(** * In-memory pub/sub broker: engine, subscriber queues, connection handler

    A shallow embedding of the broker's core:
    - [SubscriberQueue] (pubsub/pubsub.js): the bounded per-subscriber queue
      and its backpressure policy;
    - [PubSubEngine] (pubsub/pubsub.js): topic registry, ring buffer, fan-out,
      subscribe / unsubscribe / replay;
    - [WebSocketHandler] (ws/handler.js): the per-connection protocol
      dispatcher and the identity it hands to the engine.

    JavaScript [Map]s are finite maps ([gmap]), [Set]s are finite sets
    ([gset]), arrays are lists.  A [for ... of] loop over a [Map] or a [Set]
    is a fold over its entries; the source visits them in insertion order,
    the fold in the order of [map_to_list], and what is proved about the
    loops is proved for every order of the entries.  The engine mutates its
    object in place; here every method takes the state and returns the new
    state together with the method's return value.  Wall-clock readings
    ([Date.now()], [new Date().toISOString()]) are an explicit argument
    [now].  The [EventEmitter] notifications ([emit]) only feed the logger,
    and the heartbeat and ping timers only write info frames and pings:
    neither is part of the state modelled here. *)

From stdpp Require Import gmap strings list fin_maps.
From Stdlib Require Import QArith.

Close Scope Q_scope.
Open Scope string_scope.
Open Scope list_scope.
#[local] Set Warnings "-register-all,-clear-no-such-hyp".

(** ** JavaScript values carried by messages *)

Inductive Value :=
| VUndefined
| VNull
| VBool (b : bool)
| VNum (z : Z)
| VStr (s : string)
| VObj (fields : list (string * Value))
| VArr (items : list Value).

(** [!v] is [negb (truthy v)]: undefined, null, false, 0 and the empty
    string are falsy; every object and array is truthy. *)
Definition truthy (v : Value) : bool :=
  match v with
  | VUndefined | VNull => false
  | VBool b => b
  | VNum z => negb (z =? 0)%Z
  | VStr s => negb (String.eqb s "")
  | VObj _ | VArr _ => true
  end.

(** A published message: a missing field reads as [VUndefined]. *)
Record Message := mkMessage {
  msg_id : Value;
  msg_payload : Value;
  msg_ts : Value
}.

(** Frames written to a connection ([JSON.stringify] of these objects).
    [replay] is [false] where the source leaves the field out. *)
Inductive Frame :=
| Event (topic : string) (message : Message) (ts : nat) (replay : bool)
| Ack (request_id : option string) (topic : string)
      (subscribers : option nat) (ts : nat)
| Error (code : string) (text : string) (ts : nat)
| Pong (request_id : option string) (ts : nat)
| Info (text : string) (ts : nat).

(** ** The transport: WebSocket objects

    The engine and the handler hold references to WebSocket objects of the
    [ws] package; a reference is a handle [nat] into the table of sockets.
    A socket has a readiness flag (1 = OPEN, 2 = CLOSING), the frames
    written to it so far, and the [close(code, reason)] calls made on it.
    [close] on an open socket starts the closing handshake. *)

Record Socket := mkSocket {
  readyState : nat;
  sent : list Frame;
  closeCalls : list (nat * string)
}.

Definition Sockets := nat -> Socket.

Definition OPEN : nat := 1.
Definition CLOSING : nat := 2.

Definition set_socket (ws : nat) (s : Socket) (net : Sockets) : Sockets :=
  fun w => if Nat.eqb w ws then s else net w.

Definition ws_send (ws : nat) (f : Frame) (net : Sockets) : Sockets :=
  let s := net ws in
  set_socket ws (mkSocket (readyState s) (sent s ++ [f]) (closeCalls s)) net.

Definition ws_close (ws : nat) (code : nat) (why : string) (net : Sockets)
  : Sockets :=
  let s := net ws in
  set_socket ws
    (mkSocket (if Nat.eqb (readyState s) OPEN then CLOSING else readyState s)
              (sent s) (closeCalls s ++ [(code, why)]))
    net.

(** [array.slice(-n)] for a positive integer [n]: the last [n] elements,
    the whole array when it is shorter. *)
Definition slice_last {A} (n : nat) (l : list A) : list A :=
  drop (length l - n) l.

(** ** Numbers from the wire

    [last_n] reaches [subscribe] as [JSON.parse] gave it, unvalidated.  The
    engine compares it with 0 and negates it for [slice]; both apply
    [ToNumber] first, so the field is modelled by that number: a finite
    double with its exact value, an infinity (a literal such as 1e999), or
    NaN (a value that is no number). *)
Inductive Number :=
| Num (q : Q)
| Infinity (negative : bool)
| NaN.

Bind Scope Z_scope with Number.

(** An integer as a number. *)
Definition of_Z (z : Z) : Number := Num (inject_Z z).

Coercion of_Z : Z >-> Number.

(** [n > 0] *)
Definition greater_than_zero (n : Number) : bool :=
  match n with
  | Num q => (0 <? Qnum q)%Z
  | Infinity negative => negb negative
  | NaN => false
  end.

(** [-n] *)
Definition negate (n : Number) : Number :=
  match n with
  | Num q => Num (Qopp q)
  | Infinity negative => Infinity (negb negative)
  | NaN => NaN
  end.

(** [ToIntegerOrInfinity(n)]: NaN gives 0, a finite number is truncated
    towards zero. *)
Inductive IntegerOrInfinity :=
| Integer (z : Z)
| PlusInfinity
| MinusInfinity.

(** A finite number without its fraction. *)
Definition truncate (q : Q) : Z := Z.quot (Qnum q) (Zpos (Qden q)).

Definition toIntegerOrInfinity (n : Number) : IntegerOrInfinity :=
  match n with
  | Num q => Integer (truncate q)
  | Infinity false => PlusInfinity
  | Infinity true => MinusInfinity
  | NaN => Integer 0
  end.

(** [array.slice(start)]: the elements from index [k] on, where a negative
    [start] counts from the end. *)
Definition slice_from {A} (start : Number) (l : list A) : list A :=
  let len := length l in
  let k :=
    match toIntegerOrInfinity start with
    | MinusInfinity => 0
    | Integer relativeStart =>
        if (relativeStart <? 0)%Z
        then Z.to_nat (Z.max (Z.of_nat len + relativeStart) 0)
        else Nat.min (Z.to_nat relativeStart) len
    | PlusInfinity => len
    end in
  drop k l.

(** ** SubscriberQueue *)

Module SubscriberQueue.

Record t := mk {
  clientId : string;
  maxSize : nat;
  policy : string;
  queue : list Frame;
  droppedCount : nat;
  totalProcessed : nat
}.

(** The object [add] returns; [droppedMessage] is what [shift()]
    returned ([None] for undefined or a field left out). *)
Record result := mkResult {
  success : bool;
  action : string;
  reason : option string;
  droppedMessage : option Frame;
  res_droppedCount : nat
}.

(** [new SubscriberQueue(clientId, maxSize, policy)] *)
Definition new (cid : string) (size : nat) (pol : string) : t :=
  mk cid size pol [] 0 0.

(** [add(message, ws)] *)
Definition add (q : t) (message : Frame) (ws : nat) (net : Sockets)
  : t * Sockets * result :=
  if Nat.leb (maxSize q) (length (queue q)) then
    if bool_decide (policy q = "disconnect") then
      (q, ws_close ws 1013 "SLOW_CONSUMER" net,
       mkResult false "disconnected" (Some "SLOW_CONSUMER") None
                (droppedCount q))
    else
      let droppedMessage := head (queue q) in
      let q' := mk (clientId q) (maxSize q) (policy q)
                   (tail (queue q) ++ [message])
                   (S (droppedCount q)) (S (totalProcessed q)) in
      (q', net,
       mkResult true "dropped_oldest" None droppedMessage (droppedCount q'))
  else
    let q' := mk (clientId q) (maxSize q) (policy q)
                 (queue q ++ [message])
                 (droppedCount q) (S (totalProcessed q)) in
    (q', net, mkResult true "added" None None (droppedCount q')).

(** [getNext()] *)
Definition getNext (q : t) : t * option Frame :=
  match queue q with
  | [] => (q, None)
  | f :: rest =>
      (mk (clientId q) (maxSize q) (policy q) rest
          (droppedCount q) (totalProcessed q), Some f)
  end.

(** [clear()] *)
Definition clear (q : t) : t :=
  mk (clientId q) (maxSize q) (policy q) [] (droppedCount q)
     (totalProcessed q).

(** A run of [add]s on one queue, all through the same connection. *)
Definition add_all (q : t) (ms : list Frame) (ws : nat) (net : Sockets)
  : t * Sockets :=
  foldl (fun acc m => let '(q1, n1, _) := add acc.1 m ws acc.2 in (q1, n1))
        (q, net) ms.

End SubscriberQueue.

(** ** PubSubEngine *)

Module PubSubEngine.

(** A topic: [subscribers] maps a client id to its WebSocket,
    [messages] is the ring buffer, oldest first. *)
Record Topic := mkTopic {
  subscribers : gmap string nat;
  messages : list Message;
  createdAt : nat
}.

Record t := mk {
  topics : gmap string Topic;
  clientTopics : gmap string (gset string);
  subscriberQueues : gmap string SubscriberQueue.t;
  maxMessagesPerTopic : nat;
  maxQueueSize : nat;
  backpressurePolicy : string
}.

(** The [options] object of the constructor; [None] is a field left
    out. *)
Record options := mkOptions {
  opt_maxMessagesPerTopic : option nat;
  opt_maxQueueSize : option nat;
  opt_backpressurePolicy : option string
}.

(** [o || d] on a number: undefined and 0 give the default. *)
Definition num_or (o : option nat) (d : nat) : nat :=
  match o with
  | Some (S n) => S n
  | _ => d
  end.

(** [o || d] on a string: undefined and the empty string give the
    default. *)
Definition str_or (o : option string) (d : string) : string :=
  match o with
  | Some s => if String.eqb s "" then d else s
  | None => d
  end.

(** [new PubSubEngine(options)] *)
Definition new (o : options) : t :=
  mk ∅ ∅ ∅
     (num_or (opt_maxMessagesPerTopic o) 100)
     (num_or (opt_maxQueueSize o) 100)
     (str_or (opt_backpressurePolicy o) "drop_oldest").

Definition with_topics (e : t) (ts : gmap string Topic) : t :=
  mk ts (clientTopics e) (subscriberQueues e) (maxMessagesPerTopic e)
     (maxQueueSize e) (backpressurePolicy e).

(** [sendToClient(ws, message)]: the result is [true] when the frame was
    written. *)
Definition sendToClient (ws : nat) (message : Frame) (net : Sockets)
  : Sockets * bool :=
  if negb (Nat.eqb (readyState (net ws)) OPEN) then (net, false)
  else (ws_send ws message net, true).

(** [createTopic(topicName)] *)
Definition createTopic (topicName : string) (now : nat) (e : t) : t * bool :=
  match topics e !! topicName with
  | Some _ => (e, false)
  | None => (with_topics e (<[topicName := mkTopic ∅ [] now]> (topics e)),
             true)
  end.

(** The second loop of [deleteTopic]: drop the topic from every client's
    set and drop the clients whose set became empty. *)
Definition forget_topic (topicName : string)
  (ct : gmap string (gset string)) : gmap string (gset string) :=
  omap (fun ts : gset string =>
          let ts' := ts ∖ {[topicName]} in
          if bool_decide (size ts' = 0) then None else Some ts') ct.

(** [deleteTopic(topicName)]; the return value is the source's boolean. *)
Definition deleteTopic (topicName : string) (e : t) (net : Sockets)
  : t * Sockets * bool :=
  match topics e !! topicName with
  | None => (e, net, false)
  | Some topic =>
      let net' :=
        foldl (fun n (entry : string * nat) =>
                 ws_close entry.2 1000 "Topic deleted" n)
              net (map_to_list (subscribers topic)) in
      (mk (delete topicName (topics e))
          (forget_topic topicName (clientTopics e))
          (subscriberQueues e) (maxMessagesPerTopic e) (maxQueueSize e)
          (backpressurePolicy e),
       net', true)
  end.

(** What [subscribe] returns: [{success: true}] or
    [{success: false, error}]. *)
Inductive SubscribeResult :=
| Subscribed
| SubscribeError (error : string).

(** The replay loop of [subscribe]. *)
Definition replay (topicName : string) (ws : nat) (now : nat)
  (messagesToReplay : list Message) (net : Sockets) : Sockets :=
  foldl (fun n message =>
           (sendToClient ws (Event topicName message now true) n).1)
        net messagesToReplay.

(** [subscribe(topicName, clientId, ws, lastN)] *)
Definition subscribe (topicName clientId : string) (ws : nat) (lastN : Number)
  (now : nat) (e : t) (net : Sockets) : t * Sockets * SubscribeResult :=
  match topics e !! topicName with
  | None => (e, net, SubscribeError "TOPIC_NOT_FOUND")
  | Some topic =>
      match subscribers topic !! clientId with
      | Some _ => (e, net, SubscribeError "ALREADY_SUBSCRIBED")
      | None =>
          let queues :=
            match subscriberQueues e !! clientId with
            | Some _ => subscriberQueues e
            | None =>
                <[clientId := SubscriberQueue.new clientId (maxQueueSize e)
                                (backpressurePolicy e)]> (subscriberQueues e)
            end in
          let topic' := mkTopic (<[clientId := ws]> (subscribers topic))
                                (messages topic) (createdAt topic) in
          let mine := default ∅ (clientTopics e !! clientId) in
          let ct := <[clientId := mine ∪ {[topicName]}]> (clientTopics e) in
          let net' :=
            if greater_than_zero lastN
               && Nat.ltb 0 (length (messages topic)) then
              replay topicName ws now
                     (slice_from (negate lastN) (messages topic)) net
            else net in
          (mk (<[topicName := topic']> (topics e)) ct queues
              (maxMessagesPerTopic e) (maxQueueSize e)
              (backpressurePolicy e),
           net', Subscribed)
      end
  end.

(** [unsubscribe(topicName, clientId)] *)
Definition unsubscribe (topicName clientId : string) (e : t) : t * bool :=
  match topics e !! topicName with
  | None => (e, false)
  | Some topic =>
      match subscribers topic !! clientId with
      | None => (e, false)
      | Some _ =>
          let topic' := mkTopic (delete clientId (subscribers topic))
                                (messages topic) (createdAt topic) in
          let ts := <[topicName := topic']> (topics e) in
          match clientTopics e !! clientId with
          | None =>
              (mk ts (clientTopics e) (subscriberQueues e)
                  (maxMessagesPerTopic e) (maxQueueSize e)
                  (backpressurePolicy e), true)
          | Some mine =>
              let mine' := mine ∖ {[topicName]} in
              if bool_decide (size mine' = 0) then
                (mk ts (delete clientId (clientTopics e))
                    (delete clientId (subscriberQueues e))
                    (maxMessagesPerTopic e) (maxQueueSize e)
                    (backpressurePolicy e), true)
              else
                (mk ts (<[clientId := mine']> (clientTopics e))
                    (subscriberQueues e)
                    (maxMessagesPerTopic e) (maxQueueSize e)
                    (backpressurePolicy e), true)
          end
      end
  end.

(** One entry of [deliveryResults]. *)
Record DeliveryResult := mkDelivery {
  dr_clientId : string;
  dr_success : bool;
  dr_action : option string;
  dr_reason : option string;
  dr_error : option string;
  dr_droppedCount : option nat
}.

(** What [publish] returns. *)
Inductive PublishResult :=
| Published (subscribers : nat) (deliveryResults : list DeliveryResult)
| PublishError (error : string).

(** The body of the fan-out loop for one [[clientId, ws]] entry. *)
Definition deliver (topicName : string) (message : Message) (now : nat)
  (acc : gmap string SubscriberQueue.t * Sockets * list DeliveryResult)
  (entry : string * nat)
  : gmap string SubscriberQueue.t * Sockets * list DeliveryResult :=
  let '(queues, net, deliveryResults) := acc in
  let '(clientId, ws) := entry in
  match queues !! clientId with
  | None =>
      (queues, net,
       deliveryResults ++
         [mkDelivery clientId false None None
                     (Some "SUBSCRIBER_QUEUE_NOT_FOUND") None])
  | Some subscriberQueue =>
      let messageToSend := Event topicName message now false in
      let '(q', net1, queueResult) :=
        SubscriberQueue.add subscriberQueue messageToSend ws net in
      let queues' := <[clientId := q']> queues in
      if SubscriberQueue.success queueResult then
        let '(net2, sendResult) := sendToClient ws messageToSend net1 in
        (queues', net2,
         deliveryResults ++
           [mkDelivery clientId sendResult
              (Some (SubscriberQueue.action queueResult)) None None
              (Some (SubscriberQueue.res_droppedCount queueResult))])
      else
        (queues', net1,
         deliveryResults ++
           [mkDelivery clientId false
              (Some (SubscriberQueue.action queueResult))
              (SubscriberQueue.reason queueResult) None
              (Some (SubscriberQueue.res_droppedCount queueResult))])
  end.

(** [message.ts = Date.now()] when the message has no (truthy) [ts]. *)
Definition stamp (now : nat) (message : Message) : Message :=
  if truthy (msg_ts message) then message
  else mkMessage (msg_id message) (msg_payload message)
                 (VNum (Z.of_nat now)).

(** [push] then [shift] when the buffer got longer than its capacity. *)
Definition ring_push (capacity : nat) (buffer : list Message)
  (message : Message) : list Message :=
  let pushed := buffer ++ [message] in
  if Nat.ltb capacity (length pushed) then tail pushed else pushed.

(** [publish(topicName, message)] *)
Definition publish (topicName : string) (message : Message) (now : nat)
  (e : t) (net : Sockets) : t * Sockets * PublishResult :=
  match topics e !! topicName with
  | None => (e, net, PublishError "TOPIC_NOT_FOUND")
  | Some topic =>
      if negb (truthy (msg_id message)) || negb (truthy (msg_payload message))
      then (e, net, PublishError "INVALID_MESSAGE")
      else
        let message' := stamp now message in
        let topic' :=
          mkTopic (subscribers topic)
                  (ring_push (maxMessagesPerTopic e) (messages topic)
                             message')
                  (createdAt topic) in
        let '(queues, net', deliveryResults) :=
          foldl (deliver topicName message' now)
                (subscriberQueues e, net, [])
                (map_to_list (subscribers topic)) in
        (mk (<[topicName := topic']> (topics e)) (clientTopics e) queues
            (maxMessagesPerTopic e) (maxQueueSize e) (backpressurePolicy e),
         net', Published (size (subscribers topic)) deliveryResults)
  end.

(** The snapshot [getTopic] returns. *)
Record TopicInfo := mkInfo {
  info_name : string;
  info_subscribers : nat;
  info_messages : nat;
  info_createdAt : nat
}.

(** [getTopic(topicName)] *)
Definition getTopic (topicName : string) (e : t) : option TopicInfo :=
  match topics e !! topicName with
  | None => None
  | Some topic =>
      Some (mkInfo topicName (size (subscribers topic))
                   (length (messages topic)) (createdAt topic))
  end.

(** [disconnectClient(clientId)] *)
Definition disconnectClient (clientId : string) (e : t) : t * bool :=
  match clientTopics e !! clientId with
  | None => (e, false)
  | Some mine =>
      (foldl (fun e' topicName => (unsubscribe topicName clientId e').1)
             e (elements mine), true)
  end.

(** [shutdown()], without the heartbeat timer. *)
Definition shutdown (e : t) : t :=
  let e1 := foldl (fun e' (entry : string * gset string) =>
                     (disconnectClient entry.1 e').1)
                  e (map_to_list (clientTopics e)) in
  mk ∅ ∅ (subscriberQueues e1) (maxMessagesPerTopic e1) (maxQueueSize e1)
     (backpressurePolicy e1).

End PubSubEngine.

(** ** WebSocketHandler *)

Module WebSocketHandler.

(** The record kept per connection; [clientProvidedId] is [None] until a
    message sets it. *)
Record ClientInfo := mkClient {
  ws : nat;
  topics : gset string;
  connectedAt : nat;
  lastPing : nat;
  connectionId : string;
  clientProvidedId : option string
}.

Record t := mk {
  pubsubEngine : PubSubEngine.t;
  clients : gmap string ClientInfo;
  connectionCounter : Z
}.

(** A parsed protocol message; [None] is a field left out.  [last_n] is
    the number the field stands for, whatever JSON value it is. *)
Record ProtocolMessage := mkProtocol {
  type : string;
  topic : option string;
  message : option Message;
  client_id : option string;
  last_n : option Number;
  request_id : option string
}.

(** The raw data of a WebSocket message: [JSON.parse] throws, or gives
    something that is not an object, or gives an object. *)
Inductive Inbound :=
| Malformed
| NotAnObject
| Parsed (m : ProtocolMessage).

(** Truthiness of an optional string field. *)
Definition present (o : option string) : bool :=
  match o with
  | Some s => negb (String.eqb s "")
  | None => false
  end.

Definition with_engine (h : t) (e : PubSubEngine.t) : t :=
  mk e (clients h) (connectionCounter h).

Definition with_client (h : t) (cid : string) (c : ClientInfo) : t :=
  mk (pubsubEngine h) (<[cid := c]> (clients h)) (connectionCounter h).

(** [sendToClient(ws, message)] *)
Definition sendToClient (ws : nat) (f : Frame) (net : Sockets) : Sockets :=
  if Nat.eqb (readyState (net ws)) OPEN then ws_send ws f net else net.

(** [sendError(clientId, errorCode, message)] *)
Definition sendError (clientId code text : string) (now : nat) (h : t)
  (net : Sockets) : Sockets :=
  match clients h !! clientId with
  | None => net
  | Some client =>
      if negb (Nat.eqb (readyState (net (ws client))) OPEN) then net
      else sendToClient (ws client) (Error code text now) net
  end.

(** [validateMessage(message)] *)
Definition validateMessage (m : ProtocolMessage) : bool :=
  if String.eqb (type m) "" then false
  else if negb (bool_decide
                  (type m ∈ ["subscribe"; "unsubscribe"; "publish"; "ping"]))
  then false
  else if bool_decide (type m ∈ ["subscribe"; "unsubscribe"; "publish"])
  then present (topic m)
  else true.

(** [client.clientProvidedId || clientId] *)
Definition pubsubClientId (client : ClientInfo) (clientId : string)
  : string :=
  if present (clientProvidedId client)
  then default clientId (clientProvidedId client)
  else clientId.

(** [handleConnection(ws, req)]; [connectionId] is what
    [generateClientId()] returned. *)
Definition handleConnection (connectionId : string) (sock : nat) (now : nat)
  (h : t) (net : Sockets) : t * Sockets :=
  let clientInfo := mkClient sock ∅ now now connectionId None in
  (mk (pubsubEngine h) (<[connectionId := clientInfo]> (clients h))
      (connectionCounter h + 1)%Z,
   sendToClient sock (Info "Connected to Pub/Sub system" now) net).

(** [handleSubscribe(clientId, topic, lastN = 0, requestId)] *)
Definition handleSubscribe (clientId : string) (topic : option string)
  (lastN : option Number) (requestId : option string) (now : nat) (h : t)
  (net : Sockets) : t * Sockets :=
  if negb (present topic) then
    (h, sendError clientId "BAD_REQUEST" "Topic is required for subscribe"
                  now h net)
  else
    let topic := default "" topic in
    match clients h !! clientId with
    | None => (h, sendError clientId "UNAUTHORIZED" "Client not found"
                            now h net)
    | Some client =>
        let id := pubsubClientId client clientId in
        let '(e', net1, result) :=
          PubSubEngine.subscribe topic id (ws client) (default (of_Z 0) lastN)
                                 now (pubsubEngine h) net in
        let h1 := with_engine h e' in
        match result with
        | PubSubEngine.Subscribed =>
            let client' :=
              mkClient (ws client) (topics client ∪ {[topic]})
                       (connectedAt client) (lastPing client)
                       (connectionId client) (clientProvidedId client) in
            (with_client h1 clientId client',
             sendToClient (ws client) (Ack requestId topic None now) net1)
        | PubSubEngine.SubscribeError error =>
            (h1, sendError clientId error
                   (String.append "Failed to subscribe to topic: " topic)
                   now h1 net1)
        end
    end.

(** [handleUnsubscribe(clientId, topic, requestId)] *)
Definition handleUnsubscribe (clientId : string) (topic : option string)
  (requestId : option string) (now : nat) (h : t) (net : Sockets)
  : t * Sockets :=
  if negb (present topic) then
    (h, sendError clientId "BAD_REQUEST" "Topic is required for unsubscribe"
                  now h net)
  else
    let topic := default "" topic in
    match clients h !! clientId with
    | None => (h, sendError clientId "UNAUTHORIZED" "Client not found"
                            now h net)
    | Some client =>
        let id := pubsubClientId client clientId in
        let '(e', result) :=
          PubSubEngine.unsubscribe topic id (pubsubEngine h) in
        let h1 := with_engine h e' in
        if result then
          let client' :=
            mkClient (ws client) (topics client ∖ {[topic]})
                     (connectedAt client) (lastPing client)
                     (connectionId client) (clientProvidedId client) in
          (with_client h1 clientId client',
           sendToClient (ws client) (Ack requestId topic None now) net)
        else
          (h1, sendError clientId "TOPIC_NOT_FOUND"
                 (String.append "Topic not found or not subscribed: " topic)
                 now h1 net)
    end.

(** [handlePublish(clientId, topic, message, requestId)].  Without a
    client record the acknowledgement throws after the engine call and
    [handleMessage] catches it; nothing is sent then. *)
Definition handlePublish (clientId : string) (topic : option string)
  (message : option Message) (requestId : option string) (now : nat)
  (h : t) (net : Sockets) : t * Sockets :=
  if negb (present topic) then
    (h, sendError clientId "BAD_REQUEST" "Topic is required for publish"
                  now h net)
  else
    let topic := default "" topic in
    match message with
    | None =>
        (h, sendError clientId "BAD_REQUEST"
                      "Message must have id and payload" now h net)
    | Some message =>
        if negb (truthy (msg_id message))
           || negb (truthy (msg_payload message))
        then (h, sendError clientId "BAD_REQUEST"
                           "Message must have id and payload" now h net)
        else
          let '(e', net1, result) :=
            PubSubEngine.publish topic message now (pubsubEngine h) net in
          let h1 := with_engine h e' in
          match result with
          | PubSubEngine.Published subscribers _ =>
              match clients h1 !! clientId with
              | None => (h1, net1)
              | Some client =>
                  (h1, sendToClient (ws client)
                         (Ack requestId topic (Some subscribers) now) net1)
              end
          | PubSubEngine.PublishError error =>
              (h1, sendError clientId error
                     (String.append "Failed to publish to topic: " topic)
                     now h1 net1)
          end
    end.

(** [handlePing(clientId, requestId)] *)
Definition handlePing (clientId : string) (requestId : option string)
  (now : nat) (h : t) (net : Sockets) : t * Sockets :=
  match clients h !! clientId with
  | None => (h, sendError clientId "UNAUTHORIZED" "Client not found"
                          now h net)
  | Some client =>
      let client' :=
        mkClient (ws client) (topics client) (connectedAt client) now
                 (connectionId client) (clientProvidedId client) in
      (with_client h clientId client',
       sendToClient (ws client) (Pong requestId now) net)
  end.

(** The assignment [client.clientProvidedId = client_id] of
    [handleMessage], made when the connection has a record and the
    message carries a (truthy) [client_id]. *)
Definition bind_identity (clientId : string) (client_id : option string)
  (h : t) : t :=
  match clients h !! clientId with
  | None => h
  | Some client =>
      if present client_id then
        with_client h clientId
          (mkClient (ws client) (topics client) (connectedAt client)
                    (lastPing client) (connectionId client) client_id)
      else h
  end.

(** [handleMessage(clientId, data)] *)
Definition handleMessage (clientId : string) (data : Inbound) (now : nat)
  (h : t) (net : Sockets) : t * Sockets :=
  match data with
  | Malformed =>
      (h, sendError clientId "BAD_REQUEST" "Invalid JSON message" now h net)
  | NotAnObject =>
      (h, sendError clientId "BAD_REQUEST" "Invalid message format" now h net)
  | Parsed m =>
      if negb (validateMessage m) then
        (h, sendError clientId "BAD_REQUEST" "Invalid message format"
                      now h net)
      else if bool_decide
                (type m ∈ ["subscribe"; "unsubscribe"; "publish"])
              && negb (present (client_id m))
      then
        (h, sendError clientId "BAD_REQUEST"
                      "client_id is required for this operation" now h net)
      else
        let h1 := bind_identity clientId (client_id m) h in
        if String.eqb (type m) "subscribe" then
          handleSubscribe clientId (topic m) (last_n m) (request_id m)
                          now h1 net
        else if String.eqb (type m) "unsubscribe" then
          handleUnsubscribe clientId (topic m) (request_id m) now h1 net
        else if String.eqb (type m) "publish" then
          handlePublish clientId (topic m) (message m) (request_id m)
                        now h1 net
        else if String.eqb (type m) "ping" then
          handlePing clientId (request_id m) now h1 net
        else
          (h1, sendError clientId "BAD_REQUEST"
                 (String.append "Unknown message type: " (type m))
                 now h1 net)
  end.

(** The unsubscribe loop of [handleClose]. *)
Definition unsubscribe_all (id : string) (ts : list string)
  (e : PubSubEngine.t) : PubSubEngine.t :=
  foldl (fun e' topic => (PubSubEngine.unsubscribe topic id e').1) e ts.

(** [handleClose(clientId, code, reason)] *)
Definition handleClose (clientId : string) (h : t) : t :=
  match clients h !! clientId with
  | None => h
  | Some client =>
      let id := pubsubClientId client clientId in
      mk (unsubscribe_all id (elements (topics client)) (pubsubEngine h))
         (delete clientId (clients h))
         (connectionCounter h - 1)%Z
  end.

End WebSocketHandler.

(** ** Runs of the engine and what they preserve *)

Module Run.

Import PubSubEngine.

(** The calls the engine's callers make. *)
Inductive Call :=
| CreateTopic (topicName : string) (now : nat)
| DeleteTopic (topicName : string)
| Subscribe (topicName clientId : string) (ws : nat) (lastN : Number)
            (now : nat)
| Unsubscribe (topicName clientId : string)
| Publish (topicName : string) (message : Message) (now : nat)
| DisconnectClient (clientId : string)
| Shutdown.

Definition step (s : t * Sockets) (c : Call) : t * Sockets :=
  let '(e, net) := s in
  match c with
  | CreateTopic topicName now => ((createTopic topicName now e).1, net)
  | DeleteTopic topicName => (deleteTopic topicName e net).1
  | Subscribe topicName clientId ws lastN now =>
      (subscribe topicName clientId ws lastN now e net).1
  | Unsubscribe topicName clientId => ((unsubscribe topicName clientId e).1, net)
  | Publish topicName message now => (publish topicName message now e net).1
  | DisconnectClient clientId => ((disconnectClient clientId e).1, net)
  | Shutdown => (shutdown e, net)
  end.

Definition run (cs : list Call) (s : t * Sockets) : t * Sockets :=
  foldl step s cs.

(** The engine states that calls can produce from a new engine,
    whatever the sockets do in between. *)
Inductive reachable : t -> Prop :=
| reachable_new (o : options) : reachable (new o)
| reachable_step (e : t) (net : Sockets) (c : Call) :
    reachable e -> reachable (step (e, net) c).1.

(** [clientId] is subscribed to [topicName]. *)
Definition subscribed (e : t) (topicName clientId : string) : Prop :=
  exists topic, topics e !! topicName = Some topic
                /\ is_Some (subscribers topic !! clientId).

Definition has_queue (e : t) (clientId : string) : Prop :=
  is_Some (subscriberQueues e !! clientId).

(** The invariant of the registry. *)
Record consistent (e : t) : Prop := mkConsistent {
  (** a subscription is recorded in the client's topic set *)
  sub_tracked : forall topicName clientId,
    subscribed e topicName clientId ->
    exists mine, clientTopics e !! clientId = Some mine /\ topicName ∈ mine;
  (** and a recorded topic is a subscription *)
  tracked_sub : forall clientId mine topicName,
    clientTopics e !! clientId = Some mine -> topicName ∈ mine ->
    subscribed e topicName clientId;
  (** a client with a topic set has a queue *)
  tracked_queue : forall clientId,
    is_Some (clientTopics e !! clientId) -> has_queue e clientId;
  (** the ring buffers are within capacity *)
  ring_bound : forall topicName topic,
    topics e !! topicName = Some topic ->
    length (messages topic) <= maxMessagesPerTopic e;
  (** the queues carry the engine's configuration *)
  queue_config : forall clientId q,
    subscriberQueues e !! clientId = Some q ->
    SubscriberQueue.maxSize q = maxQueueSize e
    /\ SubscriberQueue.policy q = backpressurePolicy e
    /\ SubscriberQueue.clientId q = clientId;
  queue_capacity : 1 <= maxQueueSize e;
  (** a client's topic set is never empty *)
  tracked_nonempty : forall clientId mine,
    clientTopics e !! clientId = Some mine -> mine <> ∅
}.

(** The messages the valid [Publish] calls of a run store in
    [topicName], as stamped, in publish order. *)
Fixpoint published_to (topicName : string) (cs : list Call) : list Message :=
  match cs with
  | [] => []
  | Publish t m now :: rest =>
      if bool_decide (t = topicName) && truthy (msg_id m)
         && truthy (msg_payload m)
      then stamp now m :: published_to topicName rest
      else published_to topicName rest
  | _ :: rest => published_to topicName rest
  end.

(** What one call stores in [topicName]'s buffer. *)
Definition stored_by (topicName : string) (c : Call) : list Message :=
  published_to topicName [c].

(** The calls that end a topic's life. *)
Definition ends_topic (topicName : string) (c : Call) : bool :=
  match c with
  | DeleteTopic t => bool_decide (t = topicName)
  | Shutdown => true
  | _ => false
  end.

End Run.

(** ** What the transport feeds the handler *)

Module Wire.

Import WebSocketHandler.

(** The events the [ws] server raises: a new connection, a message on a
    connection, and the close of a connection. *)
Inductive Input :=
| Connect (connectionId : string) (sock : nat) (now : nat)
| Receive (connectionId : string) (data : Inbound) (now : nat)
| Closed (connectionId : string).

Definition step (s : t * Sockets) (i : Input) : t * Sockets :=
  let '(h, net) := s in
  match i with
  | Connect connectionId sock now => handleConnection connectionId sock now h net
  | Receive connectionId data now => handleMessage connectionId data now h net
  | Closed connectionId => (handleClose connectionId h, net)
  end.

Definition run (inputs : list Input) (s : t * Sockets) : t * Sockets :=
  foldl step s inputs.

(** Protocol messages as clients write them. *)
Definition subscribe_msg (topic client_id : string) : Inbound :=
  Parsed (mkProtocol "subscribe" (Some topic) None (Some client_id) None
                     None).

Definition unsubscribe_msg (topic client_id : string) : Inbound :=
  Parsed (mkProtocol "unsubscribe" (Some topic) None (Some client_id) None
                     None).

Definition publish_msg (topic client_id : string) (m : Message) : Inbound :=
  Parsed (mkProtocol "publish" (Some topic) (Some m) (Some client_id) None
                     None).

End Wire.

(** ** Bookkeeping used in the statements *)

Section Bookkeeping.

Import SubscriberQueue.

(** A queue [tracks] the frames it was given when it holds the last
    [maxSize] of them and has counted one drop per frame beyond its
    capacity. *)
Definition tracks (q : t) (given : list Frame) : Prop :=
  queue q = slice_last (maxSize q) given
  /\ droppedCount q = length given - maxSize q
  /\ totalProcessed q = length given.

(** The queue that [add] leaves behind; it depends neither on the
    socket nor on the connection. *)
Definition enqueue (q : t) (m : Frame) : t :=
  if Nat.leb (maxSize q) (length (queue q)) then
    if bool_decide (policy q = "disconnect") then q
    else mk (clientId q) (maxSize q) (policy q) (tail (queue q) ++ [m])
            (S (droppedCount q)) (S (totalProcessed q))
  else mk (clientId q) (maxSize q) (policy q) (queue q ++ [m])
          (droppedCount q) (S (totalProcessed q)).

(** The sockets after [sendToClient] of each frame in turn. *)
Definition send_all (ws : nat) (fs : list Frame) (net : Sockets) : Sockets :=
  foldl (fun n f => (PubSubEngine.sendToClient ws f n).1) net fs.

End Bookkeeping.

(** ** Sample data *)

(** Sockets that are all open and have seen no traffic. *)
Definition quiet : Sockets := fun _ => mkSocket OPEN [] [].

Definition m1 : Message :=
  mkMessage (VStr "m1") (VObj [("x", VNum 1)]) VUndefined.
Definition m2 : Message :=
  mkMessage (VStr "m2") (VObj [("x", VNum 2)]) VUndefined.
Definition m3 : Message :=
  mkMessage (VStr "m3") (VObj [("x", VNum 3)]) VUndefined.

(** An engine with queues of capacity 1 under the given policy. *)
Definition tiny (policy : string) : PubSubEngine.t :=
  PubSubEngine.new (PubSubEngine.mkOptions None (Some 1) (Some policy)).

(** [after] holds what [before] held, in order, with [f] pushed once at
    the tail, after at most the head was shifted out. *)
Definition enqueued_once (before after : SubscriberQueue.t) (f : Frame)
  : Prop :=
  SubscriberQueue.queue after = SubscriberQueue.queue before ++ [f]
  \/ exists oldest rest,
       SubscriberQueue.queue before = oldest :: rest
       /\ SubscriberQueue.queue after = rest ++ [f].

(** The record of a topic that is known to exist. *)
Definition topic_of (e : PubSubEngine.t) (topicName : string)
  : PubSubEngine.Topic :=
  default (PubSubEngine.mkTopic ∅ [] 0) (PubSubEngine.topics e !! topicName).

(** Topic A with one subscriber, alice on socket 1, who has been sent
    [m1]: her queue of capacity 1 is full. *)
Definition alice_full (policy : string) : PubSubEngine.t * Sockets :=
  Run.run [Run.CreateTopic "A" 0; Run.Subscribe "A" "alice" 1 0 0;
           Run.Publish "A" m1 1]
          (tiny policy, quiet).

(** What the spec says [deleteTopic] returns for a topic that exists: an
    object with the two counts. *)
Definition counts_object (subscribersDisconnected messagesLost : nat) : Value :=
  VObj [("subscribersDisconnected", VNum (Z.of_nat subscribersDisconnected));
        ("messagesLost", VNum (Z.of_nat messagesLost))].

(** A socket on which [close(code, reason)] was called and which is not
    open any more. *)
Definition closed_with (code : nat) (why : string) (s : Socket) : Prop :=
  (code, why) ∈ closeCalls s /\ readyState s <> OPEN.

(** Topic orders on an engine that keeps two messages per topic. *)
Definition two_slots : PubSubEngine.t :=
  (PubSubEngine.createTopic "orders" 0
     (PubSubEngine.new (PubSubEngine.mkOptions (Some 2) None None))).1.

(** Topic orders with subscriber A on socket 1, after [m1] and [m2]. *)
Definition orders_two : PubSubEngine.t * Sockets :=
  Run.run [Run.CreateTopic "orders" 0; Run.Subscribe "orders" "A" 1 0 0;
           Run.Publish "orders" m1 1; Run.Publish "orders" m2 2]
          (PubSubEngine.new (PubSubEngine.mkOptions None None None), quiet).

(** A handler over an engine with topics T1 and T2, queues of capacity 1
    and the given policy, and no connection yet. *)
Definition two_topics (policy : string) : WebSocketHandler.t :=
  WebSocketHandler.mk
    (Run.run [Run.CreateTopic "T1" 0; Run.CreateTopic "T2" 0]
             (tiny policy, quiet)).1
    ∅ 0.

(** Connection conn1 on socket 1 subscribes to T1 as "a" and then to T2 as
    "b". *)
Definition two_identities : list Wire.Input :=
  [Wire.Connect "conn1" 1 0;
   Wire.Receive "conn1" (Wire.subscribe_msg "T1" "a") 1;
   Wire.Receive "conn1" (Wire.subscribe_msg "T2" "b") 2].

(** Connection conn2 on socket 2 then publishes [m1] and [m2] to T1: the
    second publish finds the queue of "a" full. *)
Definition overflow_T1 : list Wire.Input :=
  two_identities ++
  [Wire.Connect "conn2" 2 3;
   Wire.Receive "conn2" (Wire.publish_msg "T1" "p" m1) 4;
   Wire.Receive "conn2" (Wire.publish_msg "T1" "p" m2) 5].

(** The identity bound to a connection. *)
Definition bound_identity (h : WebSocketHandler.t) (connectionId : string)
  : option string :=
  match WebSocketHandler.clients h !! connectionId with
  | Some client => WebSocketHandler.clientProvidedId client
  | None => None
  end.

(** The record of a connection that is known to be there. *)
Definition client_of (h : WebSocketHandler.t) (connectionId : string)
  : WebSocketHandler.ClientInfo :=
  default (WebSocketHandler.mkClient 0 ∅ 0 0 "" None)
          (WebSocketHandler.clients h !! connectionId).

(** A socket that is not open and has been written nothing since [net]. *)
Definition silent_since (net net' : Sockets) (w : nat) : Prop :=
  sent (net' w) = sent (net w) /\ readyState (net' w) <> OPEN.

(** The same traffic with conn1 subscribing to both topics as "a". *)
Definition one_identity : list Wire.Input :=
  [Wire.Connect "conn1" 1 0;
   Wire.Receive "conn1" (Wire.subscribe_msg "T1" "a") 1;
   Wire.Receive "conn1" (Wire.subscribe_msg "T2" "a") 2;
   Wire.Connect "conn2" 2 3;
   Wire.Receive "conn2" (Wire.publish_msg "T1" "p" m1) 4;
   Wire.Receive "conn2" (Wire.publish_msg "T1" "p" m2) 5].


(** ** The rest of the queue and engine surface *)

Module Stats.

Import PubSubEngine.

(** What [SubscriberQueue.getStats()] returns. *)
Record QueueStats := mkQueueStats {
  qs_clientId : string;
  queueSize : nat;
  qs_maxSize : nat;
  qs_droppedCount : nat;
  qs_totalProcessed : nat;
  qs_policy : string
}.

(** [SubscriberQueue.getStats()] *)
Definition queueStats (q : SubscriberQueue.t) : QueueStats :=
  mkQueueStats (SubscriberQueue.clientId q)
               (length (SubscriberQueue.queue q))
               (SubscriberQueue.maxSize q)
               (SubscriberQueue.droppedCount q)
               (SubscriberQueue.totalProcessed q)
               (SubscriberQueue.policy q).

(** [n] calls of [getNext()] in a row, with what each returned. *)
Fixpoint drain (n : nat) (q : SubscriberQueue.t)
  : SubscriberQueue.t * list (option Frame) :=
  match n with
  | 0 => (q, [])
  | S n' =>
      let '(q1, f) := SubscriberQueue.getNext q in
      let '(q2, fs) := drain n' q1 in
      (q2, f :: fs)
  end.

(** The snapshot of one topic, as [getTopic] and [getAllTopics] build it. *)
Definition snapshot (entry : string * Topic) : TopicInfo :=
  mkInfo entry.1 (size (subscribers entry.2)) (length (messages entry.2))
         (createdAt entry.2).

(** [getAllTopics()] *)
Definition getAllTopics (e : t) : list TopicInfo :=
  map snapshot (map_to_list (topics e)).

(** [obj[key] = value] on a plain object, for a [value] that is an object:
    the key [__proto__] is the accessor of [Object.prototype], so the
    assignment sets the prototype of [obj] and adds no property. *)
Definition obj_set {V} (key : string) (value : V) (obj : gmap string V)
  : gmap string V :=
  if String.eqb key "__proto__" then obj else <[key := value]> obj.

(** What [getStats()] returns.  [stats.topics] and
    [stats.queues.queueStats] are plain objects, given by their own
    properties; a topic entry is [(messages, subscribers)]. *)
Record EngineStats := mkStats {
  st_topics : gmap string (nat * nat);
  totalSubscribers : nat;
  totalMessages : nat;
  totalQueues : nat;
  totalDroppedMessages : nat;
  st_queueStats : gmap string QueueStats
}.

(** [getStats()] *)
Definition getStats (e : t) : EngineStats :=
  let after_topics :=
    foldl (fun (acc : gmap string (nat * nat) * nat * nat)
               (entry : string * Topic) =>
             let '(ts, subs, msgs) := acc in
             (obj_set entry.1 (length (messages entry.2),
                               size (subscribers entry.2)) ts,
              subs + size (subscribers entry.2),
              msgs + length (messages entry.2)))
          (∅, 0, 0) (map_to_list (topics e)) in
  let after_queues :=
    foldl (fun (acc : gmap string QueueStats * nat)
               (entry : string * SubscriberQueue.t) =>
             let '(qs, dropped) := acc in
             (obj_set entry.1 (queueStats entry.2) qs,
              dropped + qs_droppedCount (queueStats entry.2)))
          (∅, 0) (map_to_list (subscriberQueues e)) in
  mkStats after_topics.1.1 after_topics.1.2 after_topics.2
          (size (subscriberQueues e)) after_queues.2 after_queues.1.

(** What [getClient] returns for a client that has a topic set. *)
Record ClientView := mkClientView {
  cv_clientId : string;
  cv_topics : list string;
  topicCount : nat;
  cv_queue : option QueueStats
}.

(** [getClient(clientId)] *)
Definition getClient (clientId : string) (e : t) : option ClientView :=
  match clientTopics e !! clientId with
  | None => None
  | Some mine =>
      Some (mkClientView clientId (elements mine) (size mine)
              (queueStats <$> subscriberQueues e !! clientId))
  end.

End Stats.

(** ** The rest of the handler's surface *)

Module Connections.

Import WebSocketHandler.

(** One entry of [getStats().clients]. *)
Record ConnectionStats := mkConnectionStats {
  cs_connectionId : string;
  cs_clientProvidedId : string;
  cs_topics : list string;
  cs_connectedAt : nat;
  cs_lastPing : nat;
  uptime : Z
}.

Record HandlerStats := mkHandlerStats {
  totalClients : nat;
  hs_connectionCounter : Z;
  hs_clients : list ConnectionStats
}.

(** [getStats()] *)
Definition getStats (now : nat) (h : t) : HandlerStats :=
  mkHandlerStats
    (size (clients h)) (connectionCounter h)
    (map (fun entry : string * ClientInfo =>
            mkConnectionStats entry.1
              (if present (clientProvidedId entry.2)
               then default "Not set" (clientProvidedId entry.2)
               else "Not set")
              (elements (topics entry.2)) (connectedAt entry.2)
              (lastPing entry.2)
              (Z.of_nat now - Z.of_nat (connectedAt entry.2))%Z)
         (map_to_list (clients h))).

(** [broadcast(message)] *)
Definition broadcast (message : Frame) (h : t) (net : Sockets) : Sockets :=
  foldl (fun n (entry : string * ClientInfo) =>
           sendToClient (ws entry.2) message n)
        net (map_to_list (clients h)).

(** The server's listener for the engine's heartbeat event (server.js). *)
Definition heartbeat (now : nat) (h : t) (net : Sockets) : Sockets :=
  broadcast (Info "heartbeat" now) h net.

(** [shutdown()] *)
Definition shutdown (h : t) (net : Sockets) : t * Sockets :=
  (mk (pubsubEngine h) ∅ 0,
   foldl (fun n (entry : string * ClientInfo) =>
            ws_close (ws entry.2) 1000 "Server shutdown" n)
         net (map_to_list (clients h))).

(** The frames that answer a request: everything but events. *)
Definition is_response (f : Frame) : bool :=
  match f with
  | Event _ _ _ _ => false
  | _ => true
  end.

Definition responses (fs : list Frame) : list Frame := filter is_response fs.

End Connections.

(** ** The topic routes of the REST API (routes/topics.js) *)

Module TopicRoutes.

Section WithTrim.

(** [String.prototype.trim] of the runtime. *)
Variable trim : string -> string.

(** The responses of the four routes, with their status codes. *)
Inductive Response :=
| BadRequest
| TopicExists (topic : string)
| Created (topic : string) (ts : nat)
| Internal (message : string)
| NotFound (topic : string)
| Deleted (topic : string) (subscribers_disconnected messages_lost : nat)
          (ts : nat)
| Details (info : PubSubEngine.TopicInfo) (ts : nat)
| Listing (topics : list PubSubEngine.TopicInfo) (total : nat) (ts : nat).


(** The check [!name || typeof name !== 'string' ||
    name.trim().length === 0], giving the sanitized name. *)
Definition topic_name (name : Value) : option string :=
  match name with
  | VStr s =>
      if String.eqb s "" then None
      else if Nat.eqb (String.length (trim s)) 0 then None
      else Some (trim s)
  | _ => None
  end.

(** [POST /topics] *)
Definition createTopic (name : Value) (now : nat) (e : PubSubEngine.t)
  : PubSubEngine.t * Response :=
  match topic_name name with
  | None => (e, BadRequest)
  | Some topicName =>
      match PubSubEngine.topics e !! topicName with
      | Some _ => (e, TopicExists topicName)
      | None =>
          let '(e', created) := PubSubEngine.createTopic topicName now e in
          if created then (e', Created topicName now)
          else (e', Internal "Failed to create topic")
      end
  end.

(** [DELETE /topics/:name]; reading the counts off a missing snapshot
    would throw after the deletion and end in the catch-all 500. *)
Definition deleteTopic (name : Value) (now : nat) (e : PubSubEngine.t)
  (net : Sockets) : PubSubEngine.t * Sockets * Response :=
  match topic_name name with
  | None => (e, net, BadRequest)
  | Some topicName =>
      match PubSubEngine.topics e !! topicName with
      | None => (e, net, NotFound topicName)
      | Some _ =>
          let topicInfo := PubSubEngine.getTopic topicName e in
          let '(e', net', deleted) :=
            PubSubEngine.deleteTopic topicName e net in
          if deleted then
            match topicInfo with
            | Some info =>
                (e', net',
                 Deleted topicName (PubSubEngine.info_subscribers info)
                         (PubSubEngine.info_messages info) now)
            | None => (e', net', Internal "Internal server error")
            end
          else (e', net', Internal "Failed to delete topic")
      end
  end.

(** [GET /topics] *)
Definition listTopics (now : nat) (e : PubSubEngine.t) : Response :=
  let topics := Stats.getAllTopics e in
  Listing topics (length topics) now.

(** [GET /topics/:name] *)
Definition getTopic (name : Value) (now : nat) (e : PubSubEngine.t)
  : Response :=
  match topic_name name with
  | None => BadRequest
  | Some topicName =>
      match PubSubEngine.getTopic topicName e with
      | None => NotFound topicName
      | Some info => Details info now
      end
  end.

End WithTrim.

End TopicRoutes.

(** The ASCII white space that [trim] strips (it strips more: the Unicode
    space separators and line terminators); used in examples. *)
Definition is_ascii_space (c : Ascii.ascii) : bool :=
  let n := Ascii.nat_of_ascii c in
  (Nat.leb 9 n && Nat.leb n 13) || Nat.eqb n 32.

Fixpoint trim_start (s : string) : string :=
  match s with
  | String c rest => if is_ascii_space c then trim_start rest else s
  | EmptyString => EmptyString
  end.

Definition trim_ascii (s : string) : string :=
  String.rev (trim_start (String.rev (trim_start s))).

(** ** Bookkeeping for the further properties *)

(** A queue is within its capacity and has processed what it holds plus
    what it dropped. *)
Definition queue_sound (q : SubscriberQueue.t) : Prop :=
  length (SubscriberQueue.queue q) <= SubscriberQueue.maxSize q
  /\ SubscriberQueue.totalProcessed q
     = SubscriberQueue.droppedCount q + length (SubscriberQueue.queue q).

(** How many entries of a list of sockets are the socket [w]. *)
Definition times (w : nat) (sockets : list nat) : nat :=
  length (filter (fun x => x = w) sockets).

(** The sockets the subscribers of a topic are registered with, one entry
    per subscriber. *)
Definition subscriber_sockets (topic : PubSubEngine.Topic) : list nat :=
  (map_to_list (PubSubEngine.subscribers topic)).*2.

(** The sockets of the connections a handler has records for, one entry
    per connection. *)
Definition connection_sockets (h : WebSocketHandler.t) : list nat :=
  WebSocketHandler.ws <$> (map_to_list (WebSocketHandler.clients h)).*2.

(** The handler's counter agrees with its connection records. *)
Definition counted (h : WebSocketHandler.t) : Prop :=
  WebSocketHandler.connectionCounter h
  = Z.of_nat (size (WebSocketHandler.clients h)).


(** Two socket tables that differ in event frames only. *)
Definition same_responses (net net' : Sockets) : Prop :=
  forall w,
    Connections.responses (sent (net' w)) = Connections.responses (sent (net w)).

(** From [net] to [net'] exactly one frame that is not an event was
    written, the frame [reply] to the socket [w]. *)
Definition one_reply (net net' : Sockets) (w : nat) (reply : Frame) : Prop :=
  Connections.is_response reply = true
  /\ forall w',
       Connections.responses (sent (net' w'))
       = Connections.responses (sent (net w'))
         ++ (if bool_decide (w' = w) then [reply] else []).

(** The connection ids of a run are fresh: no [Connect] carries the id of
    a connection that is live at that point. *)
Fixpoint fresh_ids (live : gset string) (inputs : list Wire.Input) : bool :=
  match inputs with
  | [] => true
  | Wire.Connect connectionId _ _ :: rest =>
      negb (bool_decide (connectionId ∈ live))
      && fresh_ids ({[connectionId]} ∪ live) rest
  | Wire.Closed connectionId :: rest =>
      fresh_ids (live ∖ {[connectionId]}) rest
  | Wire.Receive _ _ _ :: rest => fresh_ids live rest
  end.

(** The delivery result [x] is the one [publish] reports for the entry
    [(clientId, ws)] of a topic's subscribers: it carries what [add]
    answered on the client's queue, and its [success] says whether the
    frame was written, which takes an accepted frame and an open socket.
    [net] is the socket table before the publish and [net'] the one after
    it. *)
Definition reports (topicName : string) (message : Message) (now : nat)
  (queues : gmap string SubscriberQueue.t) (net net' : Sockets)
  (entry : string * nat) (x : PubSubEngine.DeliveryResult) : Prop :=
  exists q,
    queues !! entry.1 = Some q
    /\ let r := (SubscriberQueue.add q (Event topicName message now false)
                                     entry.2 net).2 in
       PubSubEngine.dr_clientId x = entry.1
       /\ PubSubEngine.dr_error x = None
       /\ PubSubEngine.dr_action x = Some (SubscriberQueue.action r)
       /\ PubSubEngine.dr_reason x = SubscriberQueue.reason r
       /\ PubSubEngine.dr_droppedCount x
          = Some (SubscriberQueue.res_droppedCount r)
       /\ (PubSubEngine.dr_success x = true ->
           SubscriberQueue.success r = true
           /\ readyState (net entry.2) = OPEN)
       /\ (SubscriberQueue.success r = true ->
           readyState (net' entry.2) = OPEN ->
           PubSubEngine.dr_success x = true).

(** * Properties *)

(** ** The bounded queue *)

Section QueueFacts.

Import SubscriberQueue.

Lemma slice_last_length {A} (n : nat) (l : list A) :
  length (slice_last n l) = Nat.min n (length l).
Proof. unfold slice_last. rewrite length_drop. lia. Qed.

Lemma slice_last_short {A} (n : nat) (l : list A) :
  length l <= n -> slice_last n l = l.
Proof.
  intros H. unfold slice_last.
  replace (length l - n) with 0 by lia. reflexivity.
Qed.

Lemma tail_drop {A} (k : nat) (l : list A) : tail (drop k l) = drop (S k) l.
Proof.
  revert l; induction k as [|k IH]; intros [|a l]; simpl;
    try reflexivity.
  apply IH.
Qed.

(** Pushing onto a buffer that holds the last [n] of [l], and shifting
    the head out when it was full, gives the last [n] of [l ++ [x]]. *)
Lemma slice_last_snoc_full {A} (n : nat) (l : list A) (x : A) :
  1 <= n -> n <= length l ->
  tail (slice_last n l) ++ [x] = slice_last n (l ++ [x]).
Proof.
  intros Hn Hl. unfold slice_last. rewrite tail_drop, length_app. simpl.
  replace (length l + 1 - n) with (S (length l - n)) by lia.
  rewrite drop_app_le by lia. reflexivity.
Qed.

Lemma slice_last_snoc_room {A} (n : nat) (l : list A) (x : A) :
  length l < n -> slice_last n l ++ [x] = slice_last n (l ++ [x]).
Proof.
  intros Hl. rewrite !slice_last_short; [reflexivity| |lia].
  rewrite length_app. simpl. lia.
Qed.

(** One [add] on a queue that does not run the disconnect branch. *)
Lemma add_no_disconnect (q : t) (m : Frame) (ws : nat) (net : Sockets) :
  policy q <> "disconnect" ->
  add q m ws net =
    (if Nat.leb (maxSize q) (length (queue q)) then
       (mk (clientId q) (maxSize q) (policy q) (tail (queue q) ++ [m])
           (S (droppedCount q)) (S (totalProcessed q)),
        net,
        mkResult true "dropped_oldest" None (head (queue q))
                 (S (droppedCount q)))
     else
       (mk (clientId q) (maxSize q) (policy q) (queue q ++ [m])
           (droppedCount q) (S (totalProcessed q)),
        net, mkResult true "added" None None (droppedCount q))).
Proof.
  intros Hp. unfold add.
  destruct (Nat.leb (maxSize q) (length (queue q))); [|reflexivity].
  rewrite bool_decide_eq_false_2 by exact Hp. reflexivity.
Qed.

Lemma add_tracks (q : t) (given : list Frame) (m : Frame) (ws : nat)
  (net : Sockets) :
  1 <= maxSize q -> policy q <> "disconnect" -> tracks q given ->
  let q' := (add q m ws net).1.1 in
  tracks q' (given ++ [m])
  /\ maxSize q' = maxSize q /\ policy q' = policy q
  /\ clientId q' = clientId q /\ (add q m ws net).1.2 = net.
Proof.
  intros HK Hp (Hq & Hd & Ht). rewrite add_no_disconnect by exact Hp.
  pose proof (slice_last_length (maxSize q) given) as Hlen.
  rewrite <- Hq in Hlen.
  destruct (Nat.leb (maxSize q) (length (queue q))) eqn:Hfull; simpl.
  - apply Nat.leb_le in Hfull.
    repeat split; simpl; try rewrite length_app; simpl; try lia.
    rewrite Hq. apply slice_last_snoc_full; lia.
  - apply Nat.leb_gt in Hfull.
    repeat split; simpl; try rewrite length_app; simpl; try lia.
    rewrite Hq. apply slice_last_snoc_room. lia.
Qed.

Lemma add_all_tracks (ms : list Frame) :
  forall (q : t) (given : list Frame) (ws : nat) (net : Sockets),
    1 <= maxSize q -> policy q <> "disconnect" -> tracks q given ->
    let q' := (add_all q ms ws net).1 in
    tracks q' (given ++ ms)
    /\ maxSize q' = maxSize q /\ policy q' = policy q
    /\ clientId q' = clientId q /\ (add_all q ms ws net).2 = net.
Proof.
  induction ms as [|m ms IH]; intros q given ws net HK Hp Htr.
  - simpl. rewrite app_nil_r. auto.
  - destruct (add_tracks q given m ws net HK Hp Htr)
      as (Htr1 & Hm1 & Hp1 & Hc1 & Hn1).
    unfold add_all. simpl.
    destruct (add q m ws net) as [[q1 net1] r1] eqn:Hadd.
    simpl in *. subst net1.
    specialize (IH q1 (given ++ [m]) ws net).
    destruct IH as (Htr2 & Hm2 & Hp2 & Hc2 & Hn2);
      [lia | congruence | exact Htr1 |].
    unfold add_all in *. simpl in *.
    rewrite <- app_assoc in Htr2. simpl in Htr2.
    destruct Htr2 as (Hq2 & Hd2 & Ht2). unfold tracks.
    rewrite Hm2, Hm1 in *. repeat split; congruence.
Qed.

(** The engine never configures a queue of capacity 0:
    [options.maxQueueSize || 100]. *)
Lemma maxQueueSize_positive (o : PubSubEngine.options) :
  1 <= PubSubEngine.maxQueueSize (PubSubEngine.new o).
Proof.
  unfold PubSubEngine.new, PubSubEngine.num_or. simpl.
  destruct (PubSubEngine.opt_maxQueueSize o) as [[|n]|]; lia.
Qed.

End QueueFacts.

Section DropOldest.

Import SubscriberQueue.

(** C1.  Drop-oldest backpressure.  [K] is a capacity the engine gives
    its queues ([options.maxQueueSize || 100], so never 0).  On a queue
    of capacity [K] and policy drop_oldest that holds [K] frames, [add]
    shifts the head out, pushes the new frame at the tail, increments
    [droppedCount], leaves the socket alone and reports success (action
    dropped_oldest, carrying the evicted head).  Consequently [K + 1]
    adds on a new queue, with no [getNext] in between, leave exactly the
    last [K] frames, in order, and [droppedCount = 1]. *)
Theorem C1_drop_oldest_backpressure :
  forall (o : PubSubEngine.options) (q : t) (m : Frame) (ws : nat)
         (net : Sockets),
    let K := PubSubEngine.maxQueueSize (PubSubEngine.new o) in
    maxSize q = K -> policy q = "drop_oldest" -> length (queue q) = K ->
    (exists oldest rest,
        queue q = oldest :: rest
        /\ add q m ws net =
             (mk (clientId q) K "drop_oldest" (rest ++ [m])
                 (S (droppedCount q)) (S (totalProcessed q)),
              net,
              mkResult true "dropped_oldest" None (Some oldest)
                       (S (droppedCount q))))
    /\ forall (cid : string) (ms : list Frame),
        length ms = K + 1 ->
        let q' := (add_all (new cid K "drop_oldest") ms ws net).1 in
        queue q' = slice_last K ms
        /\ length (queue q') = K
        /\ droppedCount q' = 1.
Proof.
  intros o q m ws net K HK Hpol Hlen.
  pose proof (maxQueueSize_positive o) as Hpos. fold K in Hpos.
  split.
  - destruct (queue q) as [|oldest rest] eqn:Hq; [simpl in Hlen; lia|].
    exists oldest, rest. split; [reflexivity|].
    rewrite add_no_disconnect by (rewrite Hpol; discriminate).
    rewrite Hq, HK, Hpol.
    replace (Nat.leb K (length (oldest :: rest))) with true
      by (symmetry; apply Nat.leb_le; lia).
    reflexivity.
  - intros cid ms Hms q'.
    destruct (add_all_tracks ms (new cid K "drop_oldest") [] ws net)
      as ((Hq & Hd & _) & Hm & _).
    + exact Hpos.
    + discriminate.
    + repeat split.
    + fold q' in Hq, Hd, Hm. simpl in Hq, Hd, Hm.
      rewrite Hm in Hq, Hd.
      rewrite Hd, Hq, slice_last_length. repeat split; lia.
Qed.

Lemma C1_drop_oldest_backpressure_witness :
  let o := PubSubEngine.mkOptions None (Some 2) None in
  let a := Info "a" 0 in
  let b := Info "b" 0 in
  let c := Info "c" 0 in
  let net := fun _ : nat => mkSocket OPEN [] [] in
  let q := mk "alice" 2 "drop_oldest" [a; b] 0 2 in
  (maxSize q = PubSubEngine.maxQueueSize (PubSubEngine.new o)
   /\ policy q = "drop_oldest" /\ length (queue q) = 2)
  /\ queue (add q c 7 net).1.1 = [b; c]
  /\ queue (add_all (new "alice" 2 "drop_oldest") [a; b; c] 7 net).1 = [b; c]
  /\ droppedCount (add_all (new "alice" 2 "drop_oldest") [a; b; c] 7 net).1
     = 1.
Proof.
  intros o a b c net q.
  split; [repeat split|].
  destruct (C1_drop_oldest_backpressure o q c 7 net eq_refl eq_refl eq_refl)
    as [(oldest & rest & Hq & Hadd) Hall].
  destruct (Hall "alice" [a; b; c] eq_refl) as (H1 & _ & H3).
  split; [reflexivity|]. split; [exact H1 | exact H3].
Defined.

End DropOldest.

(** ** Rejected calls *)

Section Rejections.

Import PubSubEngine Run.

Lemma publish_topic_not_found topicName message now e net :
  topics e !! topicName = None ->
  publish topicName message now e net
  = (e, net, PublishError "TOPIC_NOT_FOUND").
Proof. intros H. unfold publish. rewrite H. reflexivity. Qed.

Lemma publish_invalid_message topicName message now e net :
  is_Some (topics e !! topicName) ->
  truthy (msg_id message) = false \/ truthy (msg_payload message) = false ->
  publish topicName message now e net
  = (e, net, PublishError "INVALID_MESSAGE").
Proof.
  intros [topic H] Hfalsy. unfold publish. rewrite H.
  destruct Hfalsy as [-> | ->]; simpl; [reflexivity|].
  rewrite orb_true_r. reflexivity.
Qed.

Lemma publish_error_unchanged topicName message now e net error :
  (publish topicName message now e net).2 = PublishError error ->
  (publish topicName message now e net).1 = (e, net).
Proof.
  unfold publish. destruct (topics e !! topicName); [|reflexivity].
  destruct (negb _ || negb _); [reflexivity|].
  destruct (foldl _ _ _) as [[? ?] ?]. discriminate.
Qed.

Lemma createTopic_exists topicName now e :
  is_Some (topics e !! topicName) -> createTopic topicName now e = (e, false).
Proof. intros [topic H]. unfold createTopic. rewrite H. reflexivity. Qed.

Lemma subscribe_topic_not_found topicName clientId ws lastN now e net :
  topics e !! topicName = None ->
  subscribe topicName clientId ws lastN now e net
  = (e, net, SubscribeError "TOPIC_NOT_FOUND").
Proof. intros H. unfold subscribe. rewrite H. reflexivity. Qed.

Lemma subscribe_already topicName clientId ws lastN now e net :
  subscribed e topicName clientId ->
  subscribe topicName clientId ws lastN now e net
  = (e, net, SubscribeError "ALREADY_SUBSCRIBED").
Proof.
  intros (topic & Ht & [w Hw]). unfold subscribe. rewrite Ht, Hw.
  reflexivity.
Qed.

Lemma subscribe_error_unchanged topicName clientId ws lastN now e net error :
  (subscribe topicName clientId ws lastN now e net).2 = SubscribeError error ->
  (subscribe topicName clientId ws lastN now e net).1 = (e, net).
Proof.
  unfold subscribe. destruct (topics e !! topicName); [|reflexivity].
  destruct (subscribers _ !! clientId); [reflexivity|]. discriminate.
Qed.

Lemma unsubscribe_not_subscribed topicName clientId e :
  ~ subscribed e topicName clientId ->
  unsubscribe topicName clientId e = (e, false).
Proof.
  intros Hn. unfold unsubscribe.
  destruct (topics e !! topicName) as [topic|] eqn:Ht; [|reflexivity].
  destruct (subscribers topic !! clientId) as [w|] eqn:Hw; [|reflexivity].
  exfalso. apply Hn. exists topic. split; [exact Ht|]. exists w. exact Hw.
Qed.

Lemma unsubscribe_false_unchanged topicName clientId e :
  (unsubscribe topicName clientId e).2 = false ->
  (unsubscribe topicName clientId e).1 = e.
Proof.
  unfold unsubscribe. destruct (topics e !! topicName); [|reflexivity].
  destruct (subscribers _ !! clientId); [|reflexivity].
  destruct (clientTopics e !! clientId); [|discriminate].
  destruct (bool_decide _); discriminate.
Qed.

(** C9.  A call that fails with a client-protocol or resource-state
    error returns the registry and the sockets as they were: [publish]
    to an absent topic (TOPIC_NOT_FOUND) or of a message without a
    truthy id or payload (INVALID_MESSAGE), [createTopic] of an existing
    name ([false], TOPIC_EXISTS), [subscribe] to an absent topic
    (TOPIC_NOT_FOUND) or of a pair already subscribed
    (ALREADY_SUBSCRIBED), and [unsubscribe] of a pair that is not
    subscribed ([false]).  These are the only failures of the four
    calls, and each leaves every topic, subscriber map, queue and client
    topic set untouched. *)
Theorem C9_failed_calls_mutate_nothing :
  forall (e : t) (net : Sockets) (topicName clientId : string)
         (message : Message) (ws : nat) (lastN : Number) (now : nat),
    (topics e !! topicName = None ->
     publish topicName message now e net
     = (e, net, PublishError "TOPIC_NOT_FOUND"))
    /\ (is_Some (topics e !! topicName) ->
        truthy (msg_id message) = false
        \/ truthy (msg_payload message) = false ->
        publish topicName message now e net
        = (e, net, PublishError "INVALID_MESSAGE"))
    /\ (is_Some (topics e !! topicName) ->
        createTopic topicName now e = (e, false))
    /\ (topics e !! topicName = None ->
        subscribe topicName clientId ws lastN now e net
        = (e, net, SubscribeError "TOPIC_NOT_FOUND"))
    /\ (subscribed e topicName clientId ->
        subscribe topicName clientId ws lastN now e net
        = (e, net, SubscribeError "ALREADY_SUBSCRIBED"))
    /\ (~ subscribed e topicName clientId ->
        unsubscribe topicName clientId e = (e, false))
    /\ (forall error,
          (publish topicName message now e net).2 = PublishError error ->
          (publish topicName message now e net).1 = (e, net))
    /\ ((createTopic topicName now e).2 = false ->
        (createTopic topicName now e).1 = e)
    /\ (forall error,
          (subscribe topicName clientId ws lastN now e net).2
          = SubscribeError error ->
          (subscribe topicName clientId ws lastN now e net).1 = (e, net))
    /\ ((unsubscribe topicName clientId e).2 = false ->
        (unsubscribe topicName clientId e).1 = e).
Proof.
  intros e net topicName clientId message ws lastN now.
  repeat split.
  - apply publish_topic_not_found.
  - apply publish_invalid_message.
  - apply createTopic_exists.
  - apply subscribe_topic_not_found.
  - apply subscribe_already.
  - apply unsubscribe_not_subscribed.
  - apply publish_error_unchanged.
  - unfold createTopic. destruct (topics e !! topicName);
      [reflexivity | discriminate].
  - apply subscribe_error_unchanged.
  - apply unsubscribe_false_unchanged.
Qed.

(** C10.  [publish] to an existing topic rejects with INVALID_MESSAGE,
    and changes nothing, whenever the message's id or payload is falsy,
    also when the field is there: a payload of 0, of the empty string,
    of [false] or of [null] is rejected whatever the id. *)
Theorem C10_falsy_id_or_payload_rejected :
  forall (e : t) (net : Sockets) (topicName : string) (now : nat),
    is_Some (topics e !! topicName) ->
    (forall message,
        truthy (msg_id message) = false
        \/ truthy (msg_payload message) = false ->
        publish topicName message now e net
        = (e, net, PublishError "INVALID_MESSAGE"))
    /\ (forall id payload ts,
           payload ∈ [VNum 0; VStr ""; VBool false; VNull] ->
           publish topicName (mkMessage id payload ts) now e net
           = (e, net, PublishError "INVALID_MESSAGE")).
Proof.
  intros e net topicName now Ht. split.
  - intros message Hf. apply publish_invalid_message; assumption.
  - intros id payload ts Hin. apply publish_invalid_message; [exact Ht|].
    right. simpl.
    repeat (apply elem_of_cons in Hin; destruct Hin as [-> | Hin];
            [reflexivity|]).
    apply elem_of_nil in Hin. contradiction.
Qed.

Lemma C9_failed_calls_mutate_nothing_witness :
  let s := alice_full "drop_oldest" in
  let bad := mkMessage (VStr "m9") VNull VUndefined in
  (topics s.1 !! "B" = None /\ is_Some (topics s.1 !! "A")
   /\ truthy (msg_payload bad) = false
   /\ subscribed s.1 "A" "alice" /\ ~ subscribed s.1 "B" "alice")
  /\ publish "B" m2 2 s.1 s.2 = (s.1, s.2, PublishError "TOPIC_NOT_FOUND")
  /\ publish "A" bad 2 s.1 s.2 = (s.1, s.2, PublishError "INVALID_MESSAGE")
  /\ createTopic "A" 2 s.1 = (s.1, false)
  /\ subscribe "B" "alice" 1 0 2 s.1 s.2
     = (s.1, s.2, SubscribeError "TOPIC_NOT_FOUND")
  /\ subscribe "A" "alice" 1 0 2 s.1 s.2
     = (s.1, s.2, SubscribeError "ALREADY_SUBSCRIBED")
  /\ unsubscribe "B" "alice" s.1 = (s.1, false).
Proof.
  intros s bad.
  assert (HA : is_Some (topics s.1 !! "A")) by (vm_compute; eauto).
  assert (Hsub : subscribed s.1 "A" "alice").
  { exists (topic_of s.1 "A"). split; [reflexivity|]. vm_compute. eauto. }
  assert (Hnot : ~ subscribed s.1 "B" "alice").
  { intros (topic & Ht & _). vm_compute in Ht. discriminate. }
  split; [repeat split; assumption|].
  destruct (C9_failed_calls_mutate_nothing s.1 s.2 "B" "alice" m2 1 0 2)
    as (HpubB & _ & _ & HsubB & _ & HunsB & _).
  destruct (C9_failed_calls_mutate_nothing s.1 s.2 "A" "alice" bad 1 0 2)
    as (_ & HpubA & HcreateA & _ & HsubA & _).
  split; [apply HpubB; reflexivity|].
  split; [apply HpubA; [exact HA | right; reflexivity]|].
  split; [apply HcreateA; exact HA|].
  split; [apply HsubB; reflexivity|].
  split; [apply HsubA; exact Hsub|].
  apply HunsB. exact Hnot.
Defined.

Lemma C10_falsy_id_or_payload_rejected_witness :
  let s := alice_full "drop_oldest" in
  is_Some (topics s.1 !! "A")
  /\ publish "A" (mkMessage (VStr "m9") (VNum 0) VUndefined) 2 s.1 s.2
     = (s.1, s.2, PublishError "INVALID_MESSAGE")
  /\ publish "A" (mkMessage (VStr "") (VStr "text") VUndefined) 2 s.1 s.2
     = (s.1, s.2, PublishError "INVALID_MESSAGE").
Proof.
  intros s.
  assert (HA : is_Some (topics s.1 !! "A")) by (vm_compute; eauto).
  destruct (C10_falsy_id_or_payload_rejected s.1 s.2 "A" 2 HA)
    as [Hany Hpayload].
  split; [exact HA|]. split.
  - apply Hpayload. apply elem_of_cons. left. reflexivity.
  - apply Hany. left. reflexivity.
Defined.

End Rejections.

(** ** The registry invariant *)

Section Invariant.

Import PubSubEngine Run.

Lemma consistent_new (o : options) : consistent (new o).
Proof.
  split; unfold subscribed, has_queue; simpl.
  - intros topicName clientId (topic & Ht & _).
    rewrite lookup_empty in Ht. discriminate.
  - intros clientId mine topicName Hc. rewrite lookup_empty in Hc.
    discriminate.
  - intros clientId [x Hx]. rewrite lookup_empty in Hx. discriminate.
  - intros topicName topic Ht. rewrite lookup_empty in Ht. discriminate.
  - intros clientId q Hq. rewrite lookup_empty in Hq. discriminate.
  - apply maxQueueSize_positive.
  - intros clientId mine Hc. rewrite lookup_empty in Hc. discriminate.
Qed.

Lemma createTopic_consistent topicName now e :
  consistent e -> consistent (createTopic topicName now e).1.
Proof.
  intros He. unfold createTopic.
  destruct (topics e !! topicName) as [old|] eqn:Hold; [exact He|].
  destruct He as [H1 H2 H3 H4 H5 H6 H7].
  split; unfold subscribed, has_queue, with_topics in *; simpl in *;
    try assumption.
  - intros t c (topic & Ht & Hs).
    destruct (decide (t = topicName)) as [->|Hne].
    + rewrite lookup_insert_eq in Ht. injection Ht as <-.
      simpl in Hs. rewrite lookup_empty in Hs. destruct Hs; discriminate.
    + rewrite lookup_insert_ne in Ht by congruence.
      apply H1. exists topic. auto.
  - intros c mine t Hc Hin.
    destruct (H2 c mine t Hc Hin) as (topic & Ht & Hs).
    exists topic. split; [|exact Hs].
    rewrite lookup_insert_ne; [exact Ht|]. congruence.
  - intros t topic Ht.
    destruct (decide (t = topicName)) as [->|Hne].
    + rewrite lookup_insert_eq in Ht. injection Ht as <-. simpl. lia.
    + rewrite lookup_insert_ne in Ht by congruence. eauto.
Qed.

Lemma forget_topic_lookup topicName ct (c : string) :
  forget_topic topicName ct !! c =
    match ct !! c with
    | Some mine =>
        if bool_decide (size (mine ∖ {[topicName]}) = 0) then None
        else Some (mine ∖ {[topicName]})
    | None => None
    end.
Proof.
  unfold forget_topic. rewrite lookup_omap.
  destruct (ct !! c); reflexivity.
Qed.

Lemma deleteTopic_consistent topicName e net :
  consistent e -> consistent (deleteTopic topicName e net).1.1.
Proof.
  intros He. unfold deleteTopic.
  destruct (topics e !! topicName) as [old|] eqn:Hold; [|exact He].
  destruct He as [H1 H2 H3 H4 H5 H6 H7].
  split; unfold subscribed, has_queue in *; simpl in *; try assumption.
  - intros t c (topic & Ht & Hs).
    destruct (decide (t = topicName)) as [->|Hne].
    { rewrite lookup_delete_eq in Ht. discriminate. }
    rewrite lookup_delete_ne in Ht by congruence.
    destruct (H1 t c) as (mine & Hc & Hin); [exists topic; auto|].
    exists (mine ∖ {[topicName]}). rewrite forget_topic_lookup, Hc.
    assert (Hin' : t ∈ mine ∖ {[topicName]}) by set_solver.
    split; [|exact Hin'].
    rewrite bool_decide_eq_false_2; [reflexivity|].
    intros Hz. apply size_empty_inv in Hz. set_solver.
  - intros c mine' t Hc Hin.
    rewrite forget_topic_lookup in Hc.
    destruct (clientTopics e !! c) as [mine|] eqn:Hm; [|discriminate].
    destruct (bool_decide _); [discriminate|]. injection Hc as <-.
    assert (t ∈ mine /\ t <> topicName) as [Hin1 Hne] by set_solver.
    destruct (H2 c mine t Hm Hin1) as (topic & Ht & Hs).
    exists topic. split; [|exact Hs].
    rewrite lookup_delete_ne; [exact Ht|]. congruence.
  - intros c [mine' Hc]. rewrite forget_topic_lookup in Hc.
    destruct (clientTopics e !! c) as [mine|] eqn:Hm; [|discriminate].
    apply H3. eauto.
  - intros t topic Ht.
    destruct (decide (t = topicName)) as [->|Hne].
    { rewrite lookup_delete_eq in Ht. discriminate. }
    rewrite lookup_delete_ne in Ht by congruence. eauto.
  - intros c mine' Hc. rewrite forget_topic_lookup in Hc.
    destruct (clientTopics e !! c) as [mine|]; [|discriminate].
    destruct (bool_decide (size (mine ∖ {[topicName]}) = 0)) eqn:Hsz;
      [discriminate|].
    injection Hc as <-. apply bool_decide_eq_false in Hsz.
    intros Hempty. apply Hsz. rewrite Hempty. apply size_empty.
Qed.

Lemma subscribe_consistent topicName clientId ws lastN now e net :
  consistent e ->
  consistent (subscribe topicName clientId ws lastN now e net).1.1.
Proof.
  intros He. unfold subscribe.
  destruct (topics e !! topicName) as [old|] eqn:Hold; [|exact He].
  destruct (subscribers old !! clientId) as [w|] eqn:Hw; [exact He|].
  destruct He as [H1 H2 H3 H4 H5 H6 H7].
  split; unfold subscribed, has_queue in *; simpl in *; try assumption.
  - intros t c (topic & Ht & Hs).
    destruct (decide (c = clientId)) as [->|Hc].
    + rewrite lookup_insert_eq. eexists. split; [reflexivity|].
      destruct (decide (t = topicName)) as [->|Hne]; [set_solver|].
      rewrite lookup_insert_ne in Ht by congruence.
      destruct (H1 t clientId) as (mine & Hm & Hin); [eauto|].
      rewrite Hm. simpl. set_solver.
    + rewrite lookup_insert_ne by congruence. apply (H1 t c).
      destruct (decide (t = topicName)) as [->|Hne].
      * rewrite lookup_insert_eq in Ht. injection Ht as <-. simpl in Hs.
        rewrite lookup_insert_ne in Hs by congruence. eauto.
      * rewrite lookup_insert_ne in Ht by congruence. eauto.
  - intros c mine' t Hc Hin.
    assert (Hold_sub : (exists topic, topics e !! t = Some topic
                          /\ is_Some (subscribers topic !! c)) ->
            exists topic,
              <[topicName := mkTopic (<[clientId := ws]> (subscribers old))
                               (messages old) (createdAt old)]> (topics e)
                !! t = Some topic /\ is_Some (subscribers topic !! c)).
    { intros (topic & Ht & Hs).
      destruct (decide (t = topicName)) as [->|Hne].
      - rewrite lookup_insert_eq. eexists. split; [reflexivity|]. simpl.
        rewrite Hold in Ht. injection Ht as <-.
        destruct (decide (c = clientId)) as [->|Hcne].
        + rewrite lookup_insert_eq. eauto.
        + rewrite lookup_insert_ne by congruence. exact Hs.
      - rewrite lookup_insert_ne by congruence. eauto. }
    destruct (decide (c = clientId)) as [->|Hcne].
    + rewrite lookup_insert_eq in Hc. injection Hc as <-.
      apply elem_of_union in Hin. destruct Hin as [Hin|Hin].
      * apply Hold_sub.
        destruct (clientTopics e !! clientId) as [mine|] eqn:Hm;
          simpl in Hin; [eauto | set_solver].
      * apply elem_of_singleton in Hin. subst t.
        rewrite lookup_insert_eq. eexists. split; [reflexivity|]. simpl.
        rewrite lookup_insert_eq. eauto.
    + rewrite lookup_insert_ne in Hc by congruence. eauto.
  - intros c Hc.
    destruct (decide (c = clientId)) as [->|Hcne].
    + destruct (subscriberQueues e !! clientId) eqn:Hq; [eauto|].
      rewrite lookup_insert_eq. eauto.
    + rewrite lookup_insert_ne in Hc by congruence.
      destruct (subscriberQueues e !! clientId) eqn:Hq; [eauto|].
      rewrite lookup_insert_ne by congruence. eauto.
  - intros t topic Ht.
    destruct (decide (t = topicName)) as [->|Hne].
    + rewrite lookup_insert_eq in Ht. injection Ht as <-. simpl. eauto.
    + rewrite lookup_insert_ne in Ht by congruence. eauto.
  - intros c q Hq.
    destruct (subscriberQueues e !! clientId) eqn:Hqc; [eauto|].
    destruct (decide (c = clientId)) as [->|Hcne].
    + rewrite lookup_insert_eq in Hq. injection Hq as <-. simpl. auto.
    + rewrite lookup_insert_ne in Hq by congruence. eauto.
  - intros c mine' Hc.
    destruct (decide (c = clientId)) as [->|Hcne].
    + rewrite lookup_insert_eq in Hc. injection Hc as <-. set_solver.
    + rewrite lookup_insert_ne in Hc by congruence. eauto.
Qed.

(** The subscriptions left once [clientId] is taken out of
    [topicName]'s subscriber map. *)
Lemma subscribed_without topicName clientId e old t c :
  topics e !! topicName = Some old ->
  (exists topic,
      <[topicName := mkTopic (delete clientId (subscribers old))
                       (messages old) (createdAt old)]> (topics e) !! t
      = Some topic /\ is_Some (subscribers topic !! c))
  <-> subscribed e t c /\ ~ (t = topicName /\ c = clientId).
Proof.
  intros Hold. unfold subscribed. split.
  - intros (topic & Ht & Hs).
    destruct (decide (t = topicName)) as [->|Hne].
    + rewrite lookup_insert_eq in Ht. injection Ht as <-. simpl in Hs.
      destruct (decide (c = clientId)) as [->|Hc].
      * rewrite lookup_delete_eq in Hs. destruct Hs; discriminate.
      * rewrite lookup_delete_ne in Hs by congruence.
        split; [eauto | tauto].
    + rewrite lookup_insert_ne in Ht by congruence.
      split; [eauto | tauto].
  - intros ((topic & Ht & Hs) & Hn).
    destruct (decide (t = topicName)) as [->|Hne].
    + rewrite lookup_insert_eq. eexists. split; [reflexivity|]. simpl.
      rewrite Hold in Ht. injection Ht as <-.
      rewrite lookup_delete_ne; [exact Hs|]. intros ->. tauto.
    + rewrite lookup_insert_ne by congruence. eauto.
Qed.

Lemma unsubscribe_consistent topicName clientId e :
  consistent e -> consistent (unsubscribe topicName clientId e).1.
Proof.
  intros He. unfold unsubscribe.
  destruct (topics e !! topicName) as [old|] eqn:Hold; [|exact He].
  destruct (subscribers old !! clientId) as [w|] eqn:Hw; [|exact He].
  pose proof (subscribed_without topicName clientId e old) as Hsub.
  destruct He as [H1 H2 H3 H4 H5 H6 H7].
  destruct (H1 topicName clientId) as (mine & Hm & Hin).
  { exists old. eauto. }
  assert (Hring : forall t topic,
             <[topicName := mkTopic (delete clientId (subscribers old))
                              (messages old) (createdAt old)]> (topics e)
               !! t = Some topic ->
             length (messages topic) <= maxMessagesPerTopic e).
  { intros t topic Ht.
    destruct (decide (t = topicName)) as [->|Hne].
    - rewrite lookup_insert_eq in Ht. injection Ht as <-. simpl. eauto.
    - rewrite lookup_insert_ne in Ht by congruence. eauto. }
  rewrite Hm.
  destruct (bool_decide (size (mine ∖ {[topicName]}) = 0)) eqn:Hsz.
  - apply bool_decide_eq_true in Hsz. apply size_empty_inv in Hsz.
    split; unfold has_queue; simpl; try assumption.
    + intros t c Hs. apply Hsub in Hs; [|exact Hold].
      destruct Hs as [Hs Hn].
      destruct (H1 t c Hs) as (m' & Hm' & Hin').
      destruct (decide (c = clientId)) as [->|Hc].
      * rewrite Hm in Hm'. injection Hm' as <-.
        assert (t = topicName) by set_solver. tauto.
      * exists m'. rewrite lookup_delete_ne by congruence. auto.
    + intros c m' t Hc Hin'. apply Hsub; [exact Hold|].
      destruct (decide (c = clientId)) as [->|Hcne].
      { rewrite lookup_delete_eq in Hc. discriminate. }
      rewrite lookup_delete_ne in Hc by congruence.
      split; [eauto | tauto].
    + intros c Hc.
      destruct (decide (c = clientId)) as [->|Hcne].
      { rewrite lookup_delete_eq in Hc. destruct Hc; discriminate. }
      rewrite lookup_delete_ne in Hc by congruence.
      rewrite lookup_delete_ne by congruence. apply H3. exact Hc.
    + intros c q Hq.
      destruct (decide (c = clientId)) as [->|Hcne].
      { rewrite lookup_delete_eq in Hq. discriminate. }
      rewrite lookup_delete_ne in Hq by congruence. eauto.
    + intros c m' Hc.
      destruct (decide (c = clientId)) as [->|Hcne].
      { rewrite lookup_delete_eq in Hc. discriminate. }
      rewrite lookup_delete_ne in Hc by congruence. eauto.
  - apply bool_decide_eq_false in Hsz.
    split; unfold has_queue; simpl; try assumption.
    + intros t c Hs. apply Hsub in Hs; [|exact Hold].
      destruct Hs as [Hs Hn].
      destruct (H1 t c Hs) as (m' & Hm' & Hin').
      destruct (decide (c = clientId)) as [->|Hc].
      * rewrite Hm in Hm'. injection Hm' as <-.
        rewrite lookup_insert_eq. eexists. split; [reflexivity|].
        assert (t <> topicName) by tauto. set_solver.
      * exists m'. rewrite lookup_insert_ne by congruence. auto.
    + intros c m' t Hc Hin'. apply Hsub; [exact Hold|].
      destruct (decide (c = clientId)) as [->|Hcne].
      * rewrite lookup_insert_eq in Hc. injection Hc as <-.
        split; [apply (H2 clientId mine); [exact Hm | set_solver]|].
        set_solver.
      * rewrite lookup_insert_ne in Hc by congruence.
        split; [eauto | tauto].
    + intros c Hc.
      destruct (decide (c = clientId)) as [->|Hcne].
      * apply H3. eauto.
      * rewrite lookup_insert_ne in Hc by congruence. apply H3. exact Hc.
    + intros c m' Hc.
      destruct (decide (c = clientId)) as [->|Hcne].
      * rewrite lookup_insert_eq in Hc. injection Hc as <-.
        intros Hempty. apply Hsz. rewrite Hempty. apply size_empty.
      * rewrite lookup_insert_ne in Hc by congruence. eauto.
Qed.

(** *** Fan-out *)

Lemma set_socket_other ws s net w : w <> ws -> set_socket ws s net w = net w.
Proof.
  intros H. unfold set_socket.
  destruct (Nat.eqb_spec w ws); [contradiction | reflexivity].
Qed.

Lemma set_socket_same ws s net : set_socket ws s net ws = s.
Proof. unfold set_socket. rewrite Nat.eqb_refl. reflexivity. Qed.

Lemma ws_close_other ws code why net w :
  w <> ws -> ws_close ws code why net w = net w.
Proof. apply set_socket_other. Qed.

Lemma ws_close_sent ws code why net w :
  sent (ws_close ws code why net w) = sent (net w).
Proof.
  unfold ws_close, set_socket.
  destruct (Nat.eqb_spec w ws) as [->|]; reflexivity.
Qed.

Lemma sendToClient_other ws f net w :
  w <> ws -> (sendToClient ws f net).1 w = net w.
Proof.
  intros H. unfold sendToClient.
  destruct (negb _); simpl; [reflexivity|].
  apply set_socket_other. exact H.
Qed.

Lemma add_enqueue q m ws net :
  (SubscriberQueue.add q m ws net).1.1 = enqueue q m.
Proof.
  unfold SubscriberQueue.add, enqueue.
  destruct (Nat.leb _ _); [|reflexivity].
  destruct (bool_decide _); reflexivity.
Qed.

Lemma add_other q m ws net w :
  w <> ws -> (SubscriberQueue.add q m ws net).1.2 w = net w.
Proof.
  intros H. unfold SubscriberQueue.add.
  destruct (Nat.leb _ _); [|reflexivity].
  destruct (bool_decide _); [|reflexivity].
  simpl. apply ws_close_other. exact H.
Qed.

Lemma enqueue_config q m :
  SubscriberQueue.maxSize (enqueue q m) = SubscriberQueue.maxSize q
  /\ SubscriberQueue.policy (enqueue q m) = SubscriberQueue.policy q
  /\ SubscriberQueue.clientId (enqueue q m) = SubscriberQueue.clientId q.
Proof.
  unfold enqueue. destruct (Nat.leb _ _); [|auto].
  destruct (bool_decide _); auto.
Qed.

(** One round of the loop: the entry's queue, when there is one, takes
    the frame; only the entry's socket is touched. *)
Lemma deliver_step topicName message now queues net rs c0 w0 :
  let r := deliver topicName message now (queues, net, rs) (c0, w0) in
  r.1.1 = match queues !! c0 with
          | Some q => <[c0 := enqueue q (Event topicName message now false)]>
                        queues
          | None => queues
          end
  /\ (forall w, w <> w0 -> r.1.2 w = net w)
  /\ length r.2 = S (length rs).
Proof.
  unfold deliver.
  destruct (queues !! c0) as [q|] eqn:Hq.
  - pose proof (add_enqueue q (Event topicName message now false) w0 net)
      as He.
    pose proof (add_other q (Event topicName message now false) w0 net)
      as Ho.
    destruct (SubscriberQueue.add q _ w0 net) as [[q' net1] res].
    simpl in He, Ho. subst q'.
    destruct (SubscriberQueue.success res).
    + pose proof (sendToClient_other w0
                    (Event topicName message now false) net1) as Hs.
      destruct (sendToClient w0 _ net1) as [net2 sendResult].
      simpl in *. repeat split.
      * intros w Hw. rewrite Hs, Ho by exact Hw. reflexivity.
      * rewrite length_app. simpl. lia.
    + simpl. repeat split; [exact Ho|].
      rewrite length_app. simpl. lia.
  - simpl. repeat split. rewrite length_app. simpl. lia.
Qed.

Lemma fanout_spec topicName message now (l : list (string * nat)) :
  NoDup l.*1 ->
  forall queues net rs,
    let r := foldl (deliver topicName message now) (queues, net, rs) l in
    (forall c,
        r.1.1 !! c =
          if bool_decide (c ∈ l.*1)
          then (fun q => enqueue q (Event topicName message now false))
                 <$> queues !! c
          else queues !! c)
    /\ (forall w, w ∉ l.*2 -> r.1.2 w = net w)
    /\ length r.2 = length rs + length l.
Proof.
  induction l as [|[c0 w0] l IH]; intros Hnd queues net rs.
  - split; [|split; [reflexivity | simpl; lia]]. intros c.
    case_bool_decide as Hin; [|reflexivity].
    apply elem_of_nil in Hin. contradiction.
  - rewrite fmap_cons in Hnd. apply NoDup_cons in Hnd.
    destruct Hnd as [Hc0 Hnd]. simpl in Hc0.
    rewrite !fmap_cons. cbn [foldl length fst snd].
    destruct (deliver_step topicName message now queues net rs c0 w0)
      as (Hq & Hn & Hl).
    destruct (deliver topicName message now (queues, net, rs) (c0, w0))
      as [[queues1 net1] rs1].
    simpl in Hq, Hn, Hl.
    destruct (IH Hnd queues1 net1 rs1) as (IHq & IHn & IHl).
    repeat split.
    + intros c. rewrite IHq.
      destruct (decide (c = c0)) as [->|Hne].
      * rewrite bool_decide_eq_false_2 by exact Hc0.
        rewrite bool_decide_eq_true_2 by (apply elem_of_cons; auto).
        subst queues1. destruct (queues !! c0) eqn:E.
        -- rewrite lookup_insert_eq. reflexivity.
        -- rewrite E. reflexivity.
      * assert (Hq1 : queues1 !! c = queues !! c).
        { subst queues1. destruct (queues !! c0); [|reflexivity].
          rewrite lookup_insert_ne by congruence. reflexivity. }
        rewrite Hq1.
        destruct (bool_decide (c ∈ l.*1)) eqn:Hin.
        -- apply bool_decide_eq_true in Hin.
           rewrite bool_decide_eq_true_2 by (apply elem_of_cons; auto).
           reflexivity.
        -- apply bool_decide_eq_false in Hin.
           rewrite bool_decide_eq_false_2; [reflexivity|].
           intros H. apply elem_of_cons in H. tauto.
    + intros w Hw. rewrite IHn.
      * apply Hn. intros ->. apply Hw. apply elem_of_cons. auto.
      * intros H. apply Hw. apply elem_of_cons. auto.
    + rewrite IHl, Hl. lia.
Qed.

Lemma keys_map_to_list {V} (m : gmap string V) (c : string) :
  c ∈ (map_to_list m).*1 <-> is_Some (m !! c).
Proof.
  rewrite list_elem_of_fmap. split.
  - intros ([c' v] & -> & Hin). apply elem_of_map_to_list in Hin.
    simpl. eauto.
  - intros [v Hv]. exists (c, v). split; [reflexivity|].
    apply elem_of_map_to_list. exact Hv.
Qed.

Lemma values_map_to_list {V} (m : gmap string V) (v : V) :
  v ∈ (map_to_list m).*2 <-> exists c, m !! c = Some v.
Proof.
  rewrite list_elem_of_fmap. split.
  - intros ([c v'] & -> & Hin). apply elem_of_map_to_list in Hin.
    simpl. eauto.
  - intros [c Hc]. exists (c, v). split; [reflexivity|].
    apply elem_of_map_to_list. exact Hc.
Qed.

Lemma ring_push_length capacity buffer message :
  length buffer <= capacity ->
  length (ring_push capacity buffer message) <= capacity.
Proof.
  intros H. unfold ring_push.
  destruct (Nat.ltb_spec capacity (length (buffer ++ [message]))) as [Hlt|Hge].
  - destruct buffer; simpl in *; [lia|]. rewrite length_app. simpl. lia.
  - exact Hge.
Qed.

(** The ring buffer holds the last [capacity] of what was pushed. *)
Lemma ring_push_slice capacity (pushed : list Message) message :
  ring_push capacity (slice_last capacity pushed) message
  = slice_last capacity (pushed ++ [message]).
Proof.
  unfold ring_push.
  pose proof (slice_last_length capacity pushed) as Hlen.
  destruct (Nat.ltb_spec capacity
              (length (slice_last capacity pushed ++ [message])))
    as [Hlt|Hge]; rewrite length_app in *; simpl in *.
  - destruct capacity as [|k].
    + unfold slice_last. rewrite Nat.sub_0_r, drop_all. simpl.
      rewrite Nat.sub_0_r, drop_all. reflexivity.
    + rewrite <- slice_last_snoc_full by lia.
      destruct (slice_last (S k) pushed); simpl in *; [lia | reflexivity].
  - apply slice_last_snoc_room. lia.
Qed.

(** What a valid [publish] to an existing topic does. *)
Lemma publish_spec topicName message now e net topic :
  topics e !! topicName = Some topic ->
  truthy (msg_id message) = true -> truthy (msg_payload message) = true ->
  exists queues' net' deliveryResults,
    publish topicName message now e net
    = (mk (<[topicName :=
               mkTopic (subscribers topic)
                       (ring_push (maxMessagesPerTopic e) (messages topic)
                                  (stamp now message))
                       (createdAt topic)]> (topics e))
          (clientTopics e) queues' (maxMessagesPerTopic e) (maxQueueSize e)
          (backpressurePolicy e),
       net', Published (size (subscribers topic)) deliveryResults)
    /\ (forall c,
           queues' !! c =
             if bool_decide (is_Some (subscribers topic !! c))
             then (fun q => enqueue q
                              (Event topicName (stamp now message) now false))
                    <$> subscriberQueues e !! c
             else subscriberQueues e !! c)
    /\ (forall w, (forall c, subscribers topic !! c <> Some w) ->
                  net' w = net w)
    /\ length deliveryResults = size (subscribers topic).
Proof.
  intros Ht Hid Hpl. unfold publish. rewrite Ht, Hid, Hpl. simpl.
  destruct (fanout_spec topicName (stamp now message) now
              (map_to_list (subscribers topic))
              (NoDup_fst_map_to_list _) (subscriberQueues e) net [])
    as (Hq & Hn & Hl).
  destruct (foldl _ _ _) as [[queues' net'] rs]. simpl in Hq, Hn, Hl.
  exists queues', net', rs. split; [reflexivity|]. repeat split.
  - intros c. rewrite Hq.
    destruct (bool_decide (c ∈ (map_to_list (subscribers topic)).*1))
      eqn:Hin.
    + apply bool_decide_eq_true in Hin. apply keys_map_to_list in Hin.
      rewrite bool_decide_eq_true_2 by exact Hin. reflexivity.
    + apply bool_decide_eq_false in Hin.
      rewrite bool_decide_eq_false_2; [reflexivity|].
      intros H. apply Hin. apply keys_map_to_list. exact H.
  - intros w Hw. apply Hn. intros Hin. apply values_map_to_list in Hin.
    destruct Hin as [c Hc]. exact (Hw c Hc).
  - rewrite Hl. apply length_map_to_list.
Qed.

Lemma publish_consistent topicName message now e net :
  consistent e -> consistent (publish topicName message now e net).1.1.
Proof.
  intros He.
  destruct (topics e !! topicName) as [topic|] eqn:Ht;
    [|rewrite publish_topic_not_found by exact Ht; exact He].
  destruct (truthy (msg_id message)) eqn:Hid;
    [|rewrite publish_invalid_message by eauto; exact He].
  destruct (truthy (msg_payload message)) eqn:Hpl;
    [|rewrite publish_invalid_message by eauto; exact He].
  destruct (publish_spec topicName message now e net topic Ht Hid Hpl)
    as (queues' & net' & rs & -> & Hq & _).
  assert (Hsub : forall t c,
             (exists topic0,
                 <[topicName :=
                     mkTopic (subscribers topic)
                       (ring_push (maxMessagesPerTopic e) (messages topic)
                                  (stamp now message))
                       (createdAt topic)]> (topics e) !! t = Some topic0
                 /\ is_Some (subscribers topic0 !! c))
             <-> subscribed e t c).
  { intros t c. unfold subscribed.
    destruct (decide (t = topicName)) as [->|Hne].
    - rewrite lookup_insert_eq, Ht. split.
      + intros (topic0 & [= <-] & Hs). eauto.
      + intros (topic0 & [= <-] & Hs). eauto.
    - rewrite lookup_insert_ne by congruence. reflexivity. }
  destruct He as [H1 H2 H3 H4 H5 H6 H7].
  split; unfold subscribed, has_queue in *; simpl; try assumption.
  - intros t c Hs. apply Hsub in Hs. auto.
  - intros c mine t Hc Hin. apply Hsub. eauto.
  - intros c Hc. destruct (H3 c Hc) as [q Hqc]. rewrite Hq, Hqc.
    destruct (bool_decide _); simpl; eauto.
  - intros t topic0 Ht0.
    destruct (decide (t = topicName)) as [->|Hne].
    + rewrite lookup_insert_eq in Ht0. injection Ht0 as <-. simpl.
      apply ring_push_length. eauto.
    + rewrite lookup_insert_ne in Ht0 by congruence. eauto.
  - intros c q Hqc. rewrite Hq in Hqc.
    destruct (bool_decide _).
    + destruct (subscriberQueues e !! c) as [q0|] eqn:Hq0;
        [|discriminate].
      simpl in Hqc. injection Hqc as <-.
      destruct (enqueue_config q0
                  (Event topicName (stamp now message) now false))
        as (-> & -> & ->).
      eauto.
    + eauto.
Qed.

Lemma disconnectClient_consistent clientId e :
  consistent e -> consistent (disconnectClient clientId e).1.
Proof.
  unfold disconnectClient.
  destruct (clientTopics e !! clientId) as [mine|]; [|auto]. simpl.
  generalize (elements mine). intros l. revert e.
  induction l as [|t l IH]; intros e He; simpl; [exact He|].
  apply IH. apply unsubscribe_consistent. exact He.
Qed.

Lemma unsubscribe_config topicName clientId e :
  maxMessagesPerTopic (unsubscribe topicName clientId e).1
  = maxMessagesPerTopic e
  /\ maxQueueSize (unsubscribe topicName clientId e).1 = maxQueueSize e
  /\ backpressurePolicy (unsubscribe topicName clientId e).1
     = backpressurePolicy e.
Proof.
  unfold unsubscribe. destruct (topics e !! topicName); [|auto].
  destruct (subscribers _ !! clientId); [|auto].
  destruct (clientTopics e !! clientId); [|auto].
  destruct (bool_decide _); auto.
Qed.

Lemma disconnectClient_config clientId e :
  maxMessagesPerTopic (disconnectClient clientId e).1
  = maxMessagesPerTopic e
  /\ maxQueueSize (disconnectClient clientId e).1 = maxQueueSize e
  /\ backpressurePolicy (disconnectClient clientId e).1
     = backpressurePolicy e.
Proof.
  unfold disconnectClient.
  destruct (clientTopics e !! clientId) as [mine|]; [|auto]. simpl.
  generalize (elements mine). intros l. revert e.
  induction l as [|t l IH]; intros e; simpl; [auto|].
  destruct (IH (unsubscribe t clientId e).1) as (-> & -> & ->).
  apply unsubscribe_config.
Qed.

Lemma shutdown_consistent e : consistent e -> consistent (shutdown e).
Proof.
  intros He. unfold shutdown.
  set (e1 := foldl _ e _).
  assert (He1 : consistent e1).
  { subst e1. generalize (map_to_list (clientTopics e)). intros l.
    revert e He. induction l as [|x l IH]; intros e He; simpl; [exact He|].
    apply IH. apply disconnectClient_consistent. exact He. }
  destruct He1 as [H1 H2 H3 H4 H5 H6 H7].
  split; unfold subscribed, has_queue; simpl; try assumption.
  - intros t c (topic & Ht & _). rewrite lookup_empty in Ht. discriminate.
  - intros c mine t Hc. rewrite lookup_empty in Hc. discriminate.
  - intros c [x Hx]. rewrite lookup_empty in Hx. discriminate.
  - intros t topic Ht. rewrite lookup_empty in Ht. discriminate.
  - intros c mine Hc. rewrite lookup_empty in Hc. discriminate.
Qed.

Lemma step_consistent e net c : consistent e -> consistent (step (e, net) c).1.
Proof.
  intros He. destruct c; simpl.
  - apply createTopic_consistent. exact He.
  - apply deleteTopic_consistent. exact He.
  - apply subscribe_consistent. exact He.
  - apply unsubscribe_consistent. exact He.
  - apply publish_consistent. exact He.
  - apply disconnectClient_consistent. exact He.
  - apply shutdown_consistent. exact He.
Qed.

(** Every reachable registry is consistent. *)
Lemma reachable_consistent e : reachable e -> consistent e.
Proof.
  induction 1 as [o | e net c Hr IH].
  - apply consistent_new.
  - apply step_consistent. exact IH.
Qed.

Lemma run_reachable cs : forall e net,
  reachable e -> reachable (run cs (e, net)).1.
Proof.
  induction cs as [|c cs IH]; intros e net Hr; [exact Hr|].
  unfold run in *. cbn [foldl].
  pose proof (reachable_step e net c Hr) as Hr1.
  destruct (step (e, net) c) as [e1 net1].
  apply IH. exact Hr1.
Qed.

End Invariant.

(** ** The ring buffer *)

Section RingBuffer.

Import PubSubEngine Run.

Lemma published_to_cons topicName c cs :
  published_to topicName (c :: cs)
  = stored_by topicName c ++ published_to topicName cs.
Proof.
  unfold stored_by. destruct c; simpl; try reflexivity.
  destruct (bool_decide _ && _ && _); reflexivity.
Qed.

Lemma unsubscribe_buffer t clientId e topicName topic :
  topics e !! topicName = Some topic ->
  exists topic',
    topics (unsubscribe t clientId e).1 !! topicName = Some topic'
    /\ messages topic' = messages topic.
Proof.
  intros Ht. unfold unsubscribe.
  destruct (topics e !! t) as [old|] eqn:Hold; [|eauto].
  destruct (subscribers old !! clientId); [|eauto].
  assert (exists topic',
             <[t := mkTopic (delete clientId (subscribers old))
                      (messages old) (createdAt old)]> (topics e)
               !! topicName = Some topic'
             /\ messages topic' = messages topic) as Hgoal.
  { destruct (decide (topicName = t)) as [->|Hne].
    - rewrite lookup_insert_eq. eexists. split; [reflexivity|]. simpl.
      congruence.
    - rewrite lookup_insert_ne by congruence. eauto. }
  destruct (clientTopics e !! clientId); [|exact Hgoal].
  destruct (bool_decide _); exact Hgoal.
Qed.

Lemma disconnectClient_buffer clientId e topicName topic :
  topics e !! topicName = Some topic ->
  exists topic',
    topics (disconnectClient clientId e).1 !! topicName = Some topic'
    /\ messages topic' = messages topic.
Proof.
  unfold disconnectClient.
  destruct (clientTopics e !! clientId) as [mine|]; [|eauto]. simpl.
  generalize (elements mine). intros l. revert e topic.
  induction l as [|t l IH]; intros e topic Ht; simpl; [eauto|].
  destruct (unsubscribe_buffer t clientId e topicName topic Ht)
    as (topic1 & Ht1 & Hm1).
  destruct (IH _ _ Ht1) as (topic2 & Ht2 & Hm2).
  exists topic2. split; [exact Ht2 | congruence].
Qed.

(** A call that does not end the topic leaves it in the registry and
    pushes what it publishes there onto the buffer. *)
Lemma step_buffer e net c topicName topic :
  topics e !! topicName = Some topic -> ends_topic topicName c = false ->
  exists topic',
    topics (step (e, net) c).1 !! topicName = Some topic'
    /\ messages topic'
       = foldl (ring_push (maxMessagesPerTopic e)) (messages topic)
               (stored_by topicName c)
    /\ maxMessagesPerTopic (step (e, net) c).1 = maxMessagesPerTopic e.
Proof.
  intros Ht Hend. destruct c as [t now | t | t cid ws lastN now | t cid
                                | t m now | cid | ]; simpl in *.
  - unfold createTopic. destruct (topics e !! t) eqn:Hold; simpl; [eauto|].
    rewrite lookup_insert_ne by congruence. eauto.
  - unfold deleteTopic. destruct (topics e !! t) eqn:Hold; simpl; [|eauto].
    apply bool_decide_eq_false in Hend.
    rewrite lookup_delete_ne by congruence. eauto.
  - unfold subscribe. destruct (topics e !! t) as [old|] eqn:Hold;
      simpl; [|eauto].
    destruct (subscribers old !! cid); simpl; [eauto|].
    destruct (decide (topicName = t)) as [->|Hne].
    + rewrite lookup_insert_eq. eexists. split; [reflexivity|]. simpl.
      split; [congruence | reflexivity].
    + rewrite lookup_insert_ne by congruence. eauto.
  - destruct (unsubscribe_buffer t cid e topicName topic Ht)
      as (topic' & Ht' & Hm').
    exists topic'. repeat split; [exact Ht' | exact Hm' |].
    apply unsubscribe_config.
  - unfold stored_by. simpl.
    destruct (topics e !! t) as [old|] eqn:Hold.
    2:{ rewrite publish_topic_not_found by exact Hold. simpl.
        rewrite bool_decide_eq_false_2 by congruence. simpl. eauto. }
    destruct (truthy (msg_id m)) eqn:Hid.
    2:{ rewrite publish_invalid_message by eauto. simpl.
        rewrite andb_false_r. simpl. eauto. }
    destruct (truthy (msg_payload m)) eqn:Hpl.
    2:{ rewrite publish_invalid_message by eauto. simpl.
        rewrite andb_false_r. simpl. eauto. }
    destruct (publish_spec t m now e net old Hold Hid Hpl)
      as (queues' & net' & rs & -> & _).
    simpl. rewrite !andb_true_r.
    destruct (decide (t = topicName)) as [->|Hne].
    + rewrite bool_decide_eq_true_2 by reflexivity.
      rewrite lookup_insert_eq. eexists. split; [reflexivity|]. simpl.
      split; [|reflexivity]. congruence.
    + rewrite bool_decide_eq_false_2 by exact Hne.
      rewrite lookup_insert_ne by congruence. eauto.
  - destruct (disconnectClient_buffer cid e topicName topic Ht)
      as (topic' & Ht' & Hm').
    exists topic'. repeat split; [exact Ht' | exact Hm' |].
    apply disconnectClient_config.
  - discriminate.
Qed.

Lemma run_buffer cs : forall e net topicName topic,
  topics e !! topicName = Some topic ->
  forallb (fun c => negb (ends_topic topicName c)) cs = true ->
  exists topic',
    topics (run cs (e, net)).1 !! topicName = Some topic'
    /\ messages topic'
       = foldl (ring_push (maxMessagesPerTopic e)) (messages topic)
               (published_to topicName cs)
    /\ maxMessagesPerTopic (run cs (e, net)).1 = maxMessagesPerTopic e.
Proof.
  induction cs as [|c cs IH]; intros e net topicName topic Ht Hcs.
  - simpl. eauto.
  - simpl in Hcs. apply andb_true_iff in Hcs. destruct Hcs as [Hc Hcs].
    apply negb_true_iff in Hc.
    destruct (step_buffer e net c topicName topic Ht Hc)
      as (topic1 & Ht1 & Hm1 & HK1).
    unfold run in *. cbn [foldl].
    destruct (step (e, net) c) as [e1 net1]. simpl in Ht1, HK1.
    destruct (IH e1 net1 topicName topic1 Ht1 Hcs) as (topic2 & Ht2 & Hm2 & HK2).
    exists topic2. split; [exact Ht2|]. split; [|congruence].
    rewrite Hm2, Hm1, HK1, published_to_cons, foldl_app. reflexivity.
Qed.

Lemma ring_pushes capacity (l pushed : list Message) :
  foldl (ring_push capacity) (slice_last capacity pushed) l
  = slice_last capacity (pushed ++ l).
Proof.
  revert pushed. induction l as [|m l IH]; intros pushed; simpl.
  - rewrite app_nil_r. reflexivity.
  - rewrite ring_push_slice, IH, <- app_assoc. reflexivity.
Qed.

(** C3.  The ring buffer.  In every reachable registry each topic's
    buffer is no longer than [maxMessagesPerTopic].  From a topic with
    an empty buffer, after any run of calls that does not delete the
    topic or shut the engine down, the topic is still there and its
    buffer holds the last [maxMessagesPerTopic] of the messages
    successfully published to it (as stamped), oldest first: with [N]
    such publishes and capacity [K] that is [min N K] messages. *)
Theorem C3_ring_buffer_bound :
  (forall e topicName topic,
      reachable e -> topics e !! topicName = Some topic ->
      length (messages topic) <= maxMessagesPerTopic e)
  /\ (forall e net topicName topic cs,
         topics e !! topicName = Some topic -> messages topic = [] ->
         forallb (fun c => negb (ends_topic topicName c)) cs = true ->
         let K := maxMessagesPerTopic e in
         let N := length (published_to topicName cs) in
         exists topic',
           topics (run cs (e, net)).1 !! topicName = Some topic'
           /\ messages topic' = slice_last K (published_to topicName cs)
           /\ length (messages topic') = Nat.min N K).
Proof.
  split.
  - intros e topicName topic Hr Ht.
    apply (ring_bound e (reachable_consistent e Hr) topicName topic Ht).
  - intros e net topicName topic cs Ht Hfresh Hcs K N.
    destruct (run_buffer cs e net topicName topic Ht Hcs)
      as (topic' & Ht' & Hm' & _).
    exists topic'. split; [exact Ht'|].
    assert (Hs : messages topic' = slice_last K (published_to topicName cs)).
    { rewrite Hm', Hfresh.
      change (@nil Message) with (slice_last K (@nil Message)) at 1.
      rewrite ring_pushes. reflexivity. }
    split; [exact Hs|]. rewrite Hs, slice_last_length. subst N. lia.
Qed.

Lemma C3_ring_buffer_bound_witness :
  let cs := [Publish "orders" m1 1; Publish "orders" m2 2;
             Publish "orders" m3 3] in
  let s := alice_full "drop_oldest" in
  (topics two_slots !! "orders" = Some (topic_of two_slots "orders")
   /\ messages (topic_of two_slots "orders") = []
   /\ forallb (fun c => negb (ends_topic "orders" c)) cs = true
   /\ reachable s.1 /\ topics s.1 !! "A" = Some (topic_of s.1 "A"))
  /\ messages <$> topics (run cs (two_slots, quiet)).1 !! "orders"
     = Some [stamp 2 m2; stamp 3 m3]
  /\ length (messages (topic_of s.1 "A")) <= maxMessagesPerTopic s.1.
Proof.
  intros cs s.
  assert (Hr : reachable s.1) by apply run_reachable, reachable_new.
  split; [repeat split; exact Hr|].
  destruct C3_ring_buffer_bound as [Hbound Hrun].
  split.
  - destruct (Hrun two_slots quiet "orders" (topic_of two_slots "orders")
                cs eq_refl eq_refl eq_refl) as (topic' & Ht' & Hm' & _).
    rewrite Ht'. simpl. rewrite Hm'. reflexivity.
  - apply (Hbound s.1 "A" (topic_of s.1 "A") Hr). reflexivity.
Defined.

End RingBuffer.

(** ** Fan-out *)

Section FanOut.

Import PubSubEngine Run.

Lemma enqueue_cases q f :
  (SubscriberQueue.policy q <> "disconnect"
   \/ length (SubscriberQueue.queue q) < SubscriberQueue.maxSize q ->
   1 <= SubscriberQueue.maxSize q ->
   enqueued_once q (enqueue q f) f
   /\ last (SubscriberQueue.queue (enqueue q f)) = Some f)
  /\ (SubscriberQueue.policy q = "disconnect" ->
      SubscriberQueue.maxSize q <= length (SubscriberQueue.queue q) ->
      enqueue q f = q).
Proof.
  unfold enqueue, enqueued_once. split.
  - intros Hcase Hcap.
    destruct (Nat.leb_spec (SubscriberQueue.maxSize q)
                (length (SubscriberQueue.queue q))) as [Hfull|Hroom].
    + destruct Hcase as [Hpol|Hlt]; [|lia].
      rewrite bool_decide_eq_false_2 by exact Hpol. simpl.
      rewrite last_snoc. split; [|reflexivity]. right.
      destruct (SubscriberQueue.queue q) as [|oldest rest];
        [simpl in Hfull; lia|].
      exists oldest, rest. auto.
    + simpl. rewrite last_snoc. auto.
  - intros Hpol Hfull.
    destruct (Nat.leb_spec (SubscriberQueue.maxSize q)
                (length (SubscriberQueue.queue q))) as [_|Hroom]; [|lia].
    rewrite bool_decide_eq_true_2 by exact Hpol. reflexivity.
Qed.

(** C2, as the code has it.  A valid [publish] to a topic of a reachable
    registry runs [add] exactly once on the queue of every client in the
    topic's subscriber map: where the queue has room or its policy is not
    disconnect, the event is pushed once at the tail, and what a full
    queue evicts is its old head, never the new event; a full queue under
    policy disconnect rejects the event and stays as it was.  The queue
    of a client that is not subscribed to this topic is untouched, and so
    is every socket that is not registered in this topic. *)
Theorem C2_fanout_per_subscriber :
  forall e net topicName topic message now,
    reachable e -> topics e !! topicName = Some topic ->
    truthy (msg_id message) = true -> truthy (msg_payload message) = true ->
    let event := Event topicName (stamp now message) now false in
    let after := publish topicName message now e net in
    (forall c w, subscribers topic !! c = Some w ->
       exists q,
         let q' := (SubscriberQueue.add q event w net).1.1 in
         subscriberQueues e !! c = Some q
         /\ subscriberQueues after.1.1 !! c = Some q'
         /\ (SubscriberQueue.policy q <> "disconnect"
             \/ length (SubscriberQueue.queue q) < SubscriberQueue.maxSize q ->
             enqueued_once q q' event
             /\ last (SubscriberQueue.queue q') = Some event)
         /\ (SubscriberQueue.policy q = "disconnect" ->
             SubscriberQueue.maxSize q <= length (SubscriberQueue.queue q) ->
             q' = q))
    /\ (forall c, subscribers topic !! c = None ->
          subscriberQueues after.1.1 !! c = subscriberQueues e !! c)
    /\ (forall w, (forall c, subscribers topic !! c <> Some w) ->
          after.1.2 w = net w).
Proof.
  intros e net topicName topic message now Hr Ht Hid Hpl event after.
  pose proof (reachable_consistent e Hr) as He.
  destruct (publish_spec topicName message now e net topic Ht Hid Hpl)
    as (queues' & net' & rs & Hpub & Hq & Hn & _).
  subst after. rewrite Hpub. simpl. repeat split.
  - intros c w Hc.
    destruct (sub_tracked e He topicName c) as (mine & Hm & _).
    { exists topic. eauto. }
    destruct (tracked_queue e He c) as [q Hqc]; [eauto|].
    exists q. rewrite add_enqueue. split; [exact Hqc|].
    rewrite Hq, bool_decide_eq_true_2, Hqc by eauto.
    split; [reflexivity|].
    destruct (queue_config e He c q Hqc) as (Hsize & _).
    pose proof (queue_capacity e He) as Hcap.
    destruct (enqueue_cases q event) as [Hpush Hrej].
    split; [|exact Hrej]. intros Hcase. apply Hpush; [exact Hcase | lia].
  - intros c Hc. rewrite Hq, bool_decide_eq_false_2; [reflexivity|].
    rewrite Hc. intros [x Hx]. discriminate.
  - exact Hn.
Qed.

Lemma C2_fanout_per_subscriber_witness :
  let s := alice_full "drop_oldest" in
  (reachable s.1 /\ topics s.1 !! "A" = Some (topic_of s.1 "A")
   /\ truthy (msg_id m2) = true /\ truthy (msg_payload m2) = true)
  /\ SubscriberQueue.queue
       <$> subscriberQueues (publish "A" m2 2 s.1 s.2).1.1 !! "alice"
     = Some [Event "A" (stamp 2 m2) 2 false]
  /\ (publish "A" m2 2 s.1 s.2).1.2 5 = s.2 5.
Proof.
  intros s.
  assert (Hr : reachable s.1) by apply run_reachable, reachable_new.
  split; [repeat split; [exact Hr | vm_compute; reflexivity..]|].
  destruct (C2_fanout_per_subscriber s.1 s.2 "A" (topic_of s.1 "A") m2 2
              Hr eq_refl eq_refl eq_refl) as (Hsub & _ & Hnet).
  split.
  - destruct (Hsub "alice" 1) as (q & Hq & Hq' & _);
      [vm_compute; reflexivity|].
    rewrite Hq'. vm_compute in Hq. injection Hq as <-. reflexivity.
  - apply Hnet. intros c Hc. vm_compute in Hc.
    destruct (decide (c = "alice")) as [->|Hne];
      [vm_compute in Hc; discriminate|].
    change ((<["alice" := 1]> (∅ : gmap string nat)) !! c = Some 5) in Hc.
    rewrite lookup_insert_ne, lookup_empty in Hc by congruence.
    discriminate.
Defined.

(** C2 as stated fails under policy disconnect: alice is subscribed to
    A, her queue is full, and a valid publish to A leaves her queue as
    it was, without the new event. *)
Lemma C2_counterexample_disconnect_rejects :
  let s := alice_full "disconnect" in
  let event := Event "A" (stamp 2 m2) 2 false in
  let q := SubscriberQueue.mk "alice" 1 "disconnect"
             [Event "A" (stamp 1 m1) 1 false] 0 1 in
  reachable s.1 /\ subscribed s.1 "A" "alice"
  /\ truthy (msg_id m2) = true /\ truthy (msg_payload m2) = true
  /\ subscriberQueues s.1 !! "alice" = Some q
  /\ subscriberQueues (publish "A" m2 2 s.1 s.2).1.1 !! "alice" = Some q
  /\ (event ∉ SubscriberQueue.queue q)
  /\ ~ enqueued_once q q event.
Proof.
  intros s event q. repeat split.
  - apply run_reachable, reachable_new.
  - exists (topic_of s.1 "A"). split; [reflexivity|]. vm_compute. eauto.
  - intros Hin. apply list_elem_of_singleton in Hin. discriminate.
  - intros [Happ | (oldest & rest & Hq & Hq')]; simpl in *.
    + discriminate.
    + injection Hq as <- <-. discriminate.
Qed.

End FanOut.

(** ** Replay on subscribe *)

Section Replay.

Import PubSubEngine Run.

Lemma send_all_other ws fs : forall net w,
  w <> ws -> send_all ws fs net w = net w.
Proof.
  induction fs as [|f fs IH]; intros net w Hw; simpl; [reflexivity|].
  unfold send_all in *. simpl. rewrite IH by exact Hw.
  apply sendToClient_other. exact Hw.
Qed.

(** On an open socket every frame is written, in order. *)
Lemma send_all_open ws fs : forall net,
  readyState (net ws) = OPEN ->
  send_all ws fs net ws
  = mkSocket OPEN (sent (net ws) ++ fs) (closeCalls (net ws)).
Proof.
  induction fs as [|f fs IH]; intros net Hopen.
  - simpl. rewrite app_nil_r. destruct (net ws). simpl in *. congruence.
  - unfold send_all in *. simpl.
    assert (Hstep : (sendToClient ws f net).1 ws
                    = mkSocket OPEN (sent (net ws) ++ [f])
                               (closeCalls (net ws))).
    { unfold sendToClient. rewrite Hopen. simpl. unfold ws_send.
      rewrite set_socket_same, Hopen. reflexivity. }
    rewrite IH; rewrite Hstep; simpl; [|reflexivity].
    rewrite <- app_assoc. reflexivity.
Qed.

(** On a socket that is not open nothing is written. *)
Lemma send_all_not_open ws fs : forall net,
  readyState (net ws) <> OPEN -> send_all ws fs net = net.
Proof.
  induction fs as [|f fs IH]; intros net Hclosed; [reflexivity|].
  unfold send_all in *. simpl. unfold sendToClient at 2.
  destruct (Nat.eqb_spec (readyState (net ws)) OPEN); [contradiction|].
  simpl. apply IH. exact Hclosed.
Qed.

Lemma replay_send_all topicName ws now ms net :
  replay topicName ws now ms net
  = send_all ws (map (fun m => Event topicName m now true) ms) net.
Proof.
  unfold replay, send_all. revert net.
  induction ms as [|m ms IH]; intros net; simpl; [reflexivity|]. apply IH.
Qed.

(** What [slice(-lastN)] takes for a number greater than zero. *)
Lemma truncate_of_Z z : truncate (inject_Z z) = z.
Proof. unfold truncate. simpl. apply Z.quot_1_r. Qed.

Lemma slice_from_negate_count {A} (q : Q) (l : list A) :
  (1 <= truncate q)%Z ->
  slice_from (negate (Num q)) l = slice_last (Z.to_nat (truncate q)) l.
Proof.
  intros Ht. unfold slice_from, slice_last. cbn [negate toIntegerOrInfinity].
  assert (Hneg : truncate (Qopp q) = (- truncate q)%Z).
  { unfold truncate. simpl. apply Z.quot_opp_l. discriminate. }
  rewrite Hneg.
  assert (Hlt : (- truncate q <? 0)%Z = true) by (apply Z.ltb_lt; lia).
  rewrite Hlt. f_equal. lia.
Qed.

Lemma slice_from_negate_fraction {A} (q : Q) (l : list A) :
  truncate q = 0%Z -> slice_from (negate (Num q)) l = l.
Proof.
  intros Ht. unfold slice_from. cbn [negate toIntegerOrInfinity].
  assert (Hneg : truncate (Qopp q) = (- truncate q)%Z).
  { unfold truncate. simpl. apply Z.quot_opp_l. discriminate. }
  rewrite Hneg, Ht. reflexivity.
Qed.

Lemma slice_from_negate_int {A} (z : Z) (l : list A) :
  (0 < z)%Z ->
  slice_from (negate (of_Z z)) l
  = slice_last (Nat.min (Z.to_nat z) (length l)) l.
Proof.
  intros Hz. unfold of_Z. rewrite slice_from_negate_count
    by (rewrite truncate_of_Z; lia).
  rewrite truncate_of_Z. unfold slice_last. f_equal. lia.
Qed.

(** Replay is a direct send.  A successful [subscribe] with [lastN > 0]
    hands to [sendToClient], on the subscribing connection and before it
    returns, one event frame tagged [replay] for each message of
    [messages.slice(-lastN)], oldest first, and nothing else; on an open
    connection all of them are written, in that order, and no other socket
    is touched.  The client's queue is the one it had, or a new empty one
    with both counters 0, and no other queue changes.  For an integer
    [lastN] the messages are the last [min lastN (length of the ring
    buffer)]; for a number below 1 they are the whole ring buffer. *)
Lemma replay_is_a_direct_send :
  forall e net topicName clientId ws lastN now topic,
    topics e !! topicName = Some topic ->
    (subscribe topicName clientId ws lastN now e net).2 = Subscribed ->
    greater_than_zero lastN = true ->
    let replayed := slice_from (negate lastN) (messages topic) in
    let frames := map (fun m => Event topicName m now true) replayed in
    let after := (subscribe topicName clientId ws lastN now e net).1 in
    after.2 = send_all ws frames net
    /\ (readyState (net ws) = OPEN ->
        sent (after.2 ws) = sent (net ws) ++ frames)
    /\ (forall w, w <> ws -> after.2 w = net w)
    /\ subscriberQueues after.1 !! clientId
       = Some (default (SubscriberQueue.new clientId (maxQueueSize e)
                          (backpressurePolicy e))
                       (subscriberQueues e !! clientId))
    /\ (forall c, c <> clientId ->
          subscriberQueues after.1 !! c = subscriberQueues e !! c)
    /\ (forall z : Z,
          lastN = of_Z z ->
          replayed
          = slice_last (Nat.min (Z.to_nat z) (length (messages topic)))
                       (messages topic))
    /\ (forall q, lastN = Num q -> truncate q = 0%Z ->
                  replayed = messages topic).
Proof.
  intros e net topicName clientId ws lastN now topic Ht Hok Hpos
         replayed frames after.
  assert (Hnet : after.2 = send_all ws frames net).
  { subst after frames replayed. revert Hok. unfold subscribe.
    rewrite Ht. destruct (subscribers topic !! clientId); [discriminate|].
    intros _. cbn [fst snd]. rewrite Hpos. cbn [andb].
    destruct (messages topic) as [|m ms] eqn:Hm.
    - cbn [length Nat.ltb Nat.leb]. unfold slice_from.
      rewrite drop_nil. reflexivity.
    - cbn [length Nat.ltb Nat.leb]. apply replay_send_all. }
  split; [exact Hnet|]. split; [|split; [|split; [|split; [|split]]]].
  - intros Hopen. rewrite Hnet, send_all_open by exact Hopen. reflexivity.
  - intros w Hw. rewrite Hnet. apply send_all_other. exact Hw.
  - subst after. revert Hok. unfold subscribe. rewrite Ht.
    destruct (subscribers topic !! clientId); [discriminate|].
    intros _. cbn [fst snd subscriberQueues].
    destruct (subscriberQueues e !! clientId) as [q|] eqn:Hq;
      cbn [from_option]; [exact Hq | apply lookup_insert_eq].
  - subst after. revert Hok. unfold subscribe. rewrite Ht.
    destruct (subscribers topic !! clientId); [discriminate|].
    intros _ c Hc. cbn [fst snd subscriberQueues].
    destruct (subscriberQueues e !! clientId) as [q|] eqn:Hq;
      [reflexivity|].
    rewrite lookup_insert_ne by congruence. reflexivity.
  - intros z ->. subst replayed. apply slice_from_negate_int.
    unfold greater_than_zero, of_Z in Hpos. simpl in Hpos.
    apply Z.ltb_lt in Hpos. exact Hpos.
  - intros q -> Hq. subst replayed. apply slice_from_negate_fraction.
    exact Hq.
Qed.

(** C5, where the code fails it.  Topic orders holds [m1] and [m2].  A
    subscribe with [last_n = 0.5] succeeds and replays both messages, the
    whole ring buffer, not the last [min last_n (length)] of them:
    [slice(-0.5)] is [slice(0)].  It is so for every number between 0 and
    1, on every registry.  With [last_n = 1] the same call replays [m2]
    alone. *)
Theorem C5_fraction_replays_the_whole_buffer :
  let s := orders_two in
  let half := subscribe "orders" "B" 2 (Num (1 # 2)) 3 s.1 s.2 in
  let one := subscribe "orders" "B" 2 1 3 s.1 s.2 in
  messages (topic_of s.1 "orders") = [stamp 1 m1; stamp 2 m2]
  /\ half.2 = Subscribed
  /\ sent (half.1.2 2) = [Event "orders" (stamp 1 m1) 3 true;
                          Event "orders" (stamp 2 m2) 3 true]
  /\ sent (one.1.2 2) = [Event "orders" (stamp 2 m2) 3 true]
  /\ forall e net topicName topic clientId ws q now,
       topics e !! topicName = Some topic ->
       subscribers topic !! clientId = None ->
       (0 < Qnum q)%Z -> truncate q = 0%Z ->
       readyState (net ws) = OPEN ->
       sent ((subscribe topicName clientId ws (Num q) now e net).1.2 ws)
       = sent (net ws)
         ++ map (fun m => Event topicName m now true) (messages topic).
Proof.
  split; [reflexivity|]. split; [reflexivity|].
  split; [vm_compute; reflexivity|]. split; [vm_compute; reflexivity|].
  intros e net topicName topic clientId ws q now Ht Hc Hpos Hq Hopen.
  assert (Hok : (subscribe topicName clientId ws (Num q) now e net).2
                = Subscribed).
  { unfold subscribe. rewrite Ht, Hc. reflexivity. }
  assert (Hgt : greater_than_zero (Num q) = true)
    by (apply Z.ltb_lt; exact Hpos).
  destruct (replay_is_a_direct_send e net topicName clientId ws (Num q) now
              topic Ht Hok Hgt) as (_ & Hsent & _ & _ & _ & _ & Hall).
  rewrite (Hsent Hopen), (Hall q eq_refl Hq). reflexivity.
Qed.

End Replay.

(** ** Deleting a topic *)

Section DeleteTopic.

Import PubSubEngine Run.

Lemma ws_close_closed ws code why net :
  closed_with code why (ws_close ws code why net ws).
Proof.
  unfold closed_with, ws_close. rewrite set_socket_same. simpl. split.
  - apply elem_of_app. right. apply list_elem_of_singleton. reflexivity.
  - destruct (Nat.eqb_spec (readyState (net ws)) OPEN) as [_|Hne];
      [discriminate | exact Hne].
Qed.

Lemma ws_close_keeps_closed ws code why code' why' net w :
  closed_with code' why' (net w) ->
  closed_with code' why' (ws_close ws code why net w).
Proof.
  unfold closed_with, ws_close, set_socket. intros [Hin Hst].
  destruct (Nat.eqb_spec w ws) as [->|Hne]; [|auto]. simpl. split.
  - apply elem_of_app. auto.
  - destruct (Nat.eqb_spec (readyState (net ws)) OPEN); [discriminate|].
    exact Hst.
Qed.

Lemma close_all_spec (l : list (string * nat)) : forall net,
  let net' := foldl (fun n (entry : string * nat) =>
                       ws_close entry.2 1000 "Topic deleted" n) net l in
  (forall w, w ∉ l.*2 -> net' w = net w)
  /\ (forall w, closed_with 1000 "Topic deleted" (net w) ->
                closed_with 1000 "Topic deleted" (net' w))
  /\ (forall w, w ∈ l.*2 -> closed_with 1000 "Topic deleted" (net' w))
  /\ (forall w, sent (net' w) = sent (net w)).
Proof.
  induction l as [|[c0 w0] l IH]; intros net.
  - simpl. split; [|split; [|split]]; auto.
    intros w Hw. apply elem_of_nil in Hw. contradiction.
  - rewrite fmap_cons. cbn [foldl snd].
    destruct (IH (ws_close w0 1000 "Topic deleted" net))
      as (Hout & Hkeep & Hin & Hsent).
    split; [|split; [|split]].
    + intros w Hw. rewrite Hout.
      * apply ws_close_other. intros ->. apply Hw. apply elem_of_cons. auto.
      * intros H. apply Hw. apply elem_of_cons. auto.
    + intros w Hw. apply Hkeep. apply ws_close_keeps_closed. exact Hw.
    + intros w Hw. apply elem_of_cons in Hw. destruct Hw as [->|Hw].
      * apply Hkeep. apply ws_close_closed.
      * apply Hin. exact Hw.
    + intros w. rewrite Hsent. apply ws_close_sent.
Qed.

(** C6, as the code has it.  [deleteTopic] returns [false], and changes
    nothing, when the name is not in the registry.  Otherwise it returns
    [true] (a boolean, not an object of counts): it calls
    [close(1000, "Topic deleted")] on the socket of every subscriber and
    on no other socket, removes the topic and only that topic from the
    registry, and removes the name from every client's topic set,
    dropping the sets that become empty.  The number of subscribers and
    of buffered messages is what [getTopic] reports before the call. *)
Theorem C6_deleteTopic_returns_boolean :
  forall e net topicName,
    (topics e !! topicName = None ->
     deleteTopic topicName e net = (e, net, false))
    /\ (forall topic,
          topics e !! topicName = Some topic ->
          let after := deleteTopic topicName e net in
          after.2 = true
          /\ getTopic topicName e
             = Some (mkInfo topicName (size (subscribers topic))
                            (length (messages topic)) (createdAt topic))
          /\ topics after.1.1 = delete topicName (topics e)
          /\ (forall c w, subscribers topic !! c = Some w ->
                closed_with 1000 "Topic deleted" (after.1.2 w))
          /\ (forall w, (forall c, subscribers topic !! c <> Some w) ->
                after.1.2 w = net w)
          /\ (forall w, sent (after.1.2 w) = sent (net w))
          /\ (forall c,
                clientTopics after.1.1 !! c =
                  match clientTopics e !! c with
                  | Some mine =>
                      if bool_decide (size (mine ∖ {[topicName]}) = 0)
                      then None else Some (mine ∖ {[topicName]})
                  | None => None
                  end)
          /\ (forall c mine, clientTopics after.1.1 !! c = Some mine ->
                topicName ∉ mine)).
Proof.
  intros e net topicName. split.
  - intros Ht. unfold deleteTopic. rewrite Ht. reflexivity.
  - intros topic Ht after. subst after. unfold deleteTopic, getTopic.
    rewrite Ht. simpl.
    destruct (close_all_spec (map_to_list (subscribers topic)) net)
      as (Hout & _ & Hin & Hsent).
    split; [reflexivity|]. split; [reflexivity|]. split; [reflexivity|].
    split; [|split; [|split; [exact Hsent|split]]].
    + intros c w Hc. apply Hin. apply values_map_to_list. eauto.
    + intros w Hw. apply Hout. intros H. apply values_map_to_list in H.
      destruct H as [c Hc]. exact (Hw c Hc).
    + intros c. apply forget_topic_lookup.
    + intros c mine Hc. rewrite forget_topic_lookup in Hc.
      destruct (clientTopics e !! c); [|discriminate].
      destruct (bool_decide _); [discriminate|]. injection Hc as <-.
      set_solver.
Qed.

Lemma C6_deleteTopic_returns_boolean_witness :
  let s := alice_full "drop_oldest" in
  topics s.1 !! "A" = Some (topic_of s.1 "A")
  /\ (deleteTopic "A" s.1 s.2).2 = true
  /\ getTopic "A" s.1 = Some (mkInfo "A" 1 1 0)
  /\ topics (deleteTopic "A" s.1 s.2).1.1 !! "A" = None
  /\ closed_with 1000 "Topic deleted" ((deleteTopic "A" s.1 s.2).1.2 1)
  /\ clientTopics (deleteTopic "A" s.1 s.2).1.1 !! "alice" = None
  /\ deleteTopic "B" s.1 s.2 = (s.1, s.2, false).
Proof.
  intros s.
  destruct (C6_deleteTopic_returns_boolean s.1 s.2 "A") as [_ Hdel].
  destruct (C6_deleteTopic_returns_boolean s.1 s.2 "B") as [Habsent _].
  destruct (Hdel (topic_of s.1 "A") eq_refl)
    as (Hret & Hinfo & Htopics & Hclosed & _ & _ & Hct & _).
  split; [reflexivity|]. split; [exact Hret|]. split; [exact Hinfo|].
  split; [rewrite Htopics; apply lookup_delete_eq|].
  split; [apply (Hclosed "alice"); reflexivity|].
  split; [rewrite Hct; reflexivity|].
  apply Habsent. reflexivity.
Defined.

(** C6 as stated fails: on topic A, with one subscriber and one buffered
    message, [deleteTopic] returns the boolean [true], which is not the
    object [{subscribersDisconnected: 1, messagesLost: 1}]. *)
Lemma C6_counterexample_returns_true :
  let s := alice_full "drop_oldest" in
  getTopic "A" s.1 = Some (mkInfo "A" 1 1 0)
  /\ (deleteTopic "A" s.1 s.2).2 = true
  /\ VBool (deleteTopic "A" s.1 s.2).2 <> counts_object 1 1.
Proof.
  intros s. split; [reflexivity|]. split; [reflexivity|]. discriminate.
Qed.

End DeleteTopic.

(** ** The life of a subscriber queue *)

Section QueueLifecycle.

Import PubSubEngine Run.

(** In a reachable registry a subscriber has a queue. *)
Lemma subscriber_has_queue e topicName clientId :
  reachable e -> subscribed e topicName clientId -> has_queue e clientId.
Proof.
  intros Hr Hs. pose proof (reachable_consistent e Hr) as He.
  destruct (sub_tracked e He topicName clientId Hs) as (mine & Hm & _).
  apply (tracked_queue e He). eauto.
Qed.

(** The first successful subscribe of a client creates its queue, empty
    and with the engine's configuration; later ones keep the queue. *)
Lemma subscribe_queue topicName clientId ws lastN now e net :
  (subscribe topicName clientId ws lastN now e net).2 = Subscribed ->
  subscriberQueues (subscribe topicName clientId ws lastN now e net).1.1
    !! clientId
  = Some (default (SubscriberQueue.new clientId (maxQueueSize e)
                     (backpressurePolicy e))
                  (subscriberQueues e !! clientId)).
Proof.
  unfold subscribe. destruct (topics e !! topicName); [|discriminate].
  destruct (subscribers _ !! clientId); [discriminate|]. intros _. simpl.
  destruct (subscriberQueues e !! clientId) as [q|] eqn:Hq; simpl;
    [exact Hq | apply lookup_insert_eq].
Qed.

(** An [unsubscribe] that leaves the client without any subscription
    destroys its queue. *)
Lemma unsubscribe_last_destroys_queue topicName clientId e :
  reachable e ->
  (unsubscribe topicName clientId e).2 = true ->
  (forall t, ~ subscribed (unsubscribe topicName clientId e).1 t clientId) ->
  subscriberQueues (unsubscribe topicName clientId e).1 !! clientId = None.
Proof.
  intros Hr. pose proof (reachable_consistent e Hr) as He.
  unfold unsubscribe.
  destruct (topics e !! topicName) as [old|] eqn:Hold; [|discriminate].
  destruct (subscribers old !! clientId) as [w|] eqn:Hw; [|discriminate].
  destruct (sub_tracked e He topicName clientId) as (mine & Hm & Hin).
  { exists old. eauto. }
  rewrite Hm.
  destruct (bool_decide (size (mine ∖ {[topicName]}) = 0)) eqn:Hsz; simpl.
  - intros _ _. apply lookup_delete_eq.
  - intros _ Hnone. exfalso. apply bool_decide_eq_false in Hsz.
    assert (exists t, t ∈ mine ∖ {[topicName]}) as [t Ht].
    { apply set_choose_L. intros Hempty. apply Hsz. rewrite Hempty.
      apply size_empty. }
    apply (Hnone t). unfold subscribed. simpl.
    apply (subscribed_without topicName clientId e old t clientId Hold).
    split; [apply (tracked_sub e He clientId mine); [exact Hm|set_solver]|].
    set_solver.
Qed.

(** What [unsubscribe] does to the bookkeeping of a client that has the
    topic in its set. *)
Lemma unsubscribe_tracked topicName clientId e mine :
  consistent e -> clientTopics e !! clientId = Some mine ->
  topicName ∈ mine ->
  let e' := (unsubscribe topicName clientId e).1 in
  let last_one := bool_decide (size (mine ∖ {[topicName]}) = 0) in
  clientTopics e' !! clientId
  = (if last_one then None else Some (mine ∖ {[topicName]}))
  /\ subscriberQueues e' !! clientId
     = (if last_one then None else subscriberQueues e !! clientId).
Proof.
  intros He Hm Hin.
  destruct (tracked_sub e He clientId mine topicName Hm Hin)
    as (old & Hold & [w Hw]).
  unfold unsubscribe. rewrite Hold, Hw, Hm.
  destruct (bool_decide (size (mine ∖ {[topicName]}) = 0)); simpl.
  - rewrite !lookup_delete_eq. auto.
  - rewrite lookup_insert_eq. auto.
Qed.

Lemma unsubscribe_each_destroys_queue clientId (l : list string) :
  forall e,
    consistent e -> NoDup l -> l <> [] ->
    clientTopics e !! clientId = Some (list_to_set l) ->
    let e' := foldl (fun e0 t => (unsubscribe t clientId e0).1) e l in
    clientTopics e' !! clientId = None
    /\ subscriberQueues e' !! clientId = None
    /\ consistent e'.
Proof.
  induction l as [|t l IH]; intros e He Hnd Hne Hm; [congruence|].
  apply NoDup_cons in Hnd. destruct Hnd as [Ht Hnd].
  destruct (unsubscribe_tracked t clientId e (list_to_set (t :: l)) He Hm)
    as (Hct & Hq); [set_solver|].
  pose proof (unsubscribe_consistent t clientId e He) as He1.
  assert (Hrest : (list_to_set (t :: l) : gset string) ∖ {[t]}
                  = list_to_set l).
  { rewrite list_to_set_cons. apply set_eq. intros x.
    rewrite elem_of_difference, elem_of_union, elem_of_singleton,
      elem_of_list_to_set.
    split; [tauto|]. intros Hx. split; [auto|]. intros ->. auto. }
  rewrite Hrest in Hct, Hq. cbn [foldl].
  destruct l as [|t' l'].
  - assert (Hz : size (list_to_set [] : gset string) = 0)
      by exact (size_empty (C := gset string)).
    rewrite bool_decide_eq_true_2 in Hct, Hq by exact Hz.
    cbn [foldl]. auto.
  - assert (Hnz : size (list_to_set (t' :: l') : gset string) <> 0).
    { intros Hz. apply size_empty_inv in Hz.
      assert (t' ∈ (list_to_set (t' :: l') : gset string)) by set_solver.
      set_solver. }
    rewrite bool_decide_eq_false_2 in Hct, Hq by exact Hnz.
    apply IH; [exact He1 | exact Hnd | discriminate | exact Hct].
Qed.

(** [disconnectClient] on a client that has subscriptions removes them
    all and destroys its queue. *)
Lemma disconnectClient_destroys_queue clientId e :
  reachable e -> (disconnectClient clientId e).2 = true ->
  let e' := (disconnectClient clientId e).1 in
  (forall t, ~ subscribed e' t clientId)
  /\ clientTopics e' !! clientId = None
  /\ subscriberQueues e' !! clientId = None.
Proof.
  intros Hr. pose proof (reachable_consistent e Hr) as He.
  unfold disconnectClient.
  destruct (clientTopics e !! clientId) as [mine|] eqn:Hm; [|discriminate].
  intros _. simpl.
  destruct (unsubscribe_each_destroys_queue clientId (elements mine) e)
    as (Hct & Hq & He'); try assumption.
  - apply NoDup_elements.
  - intros Hnil. apply elements_empty_inv in Hnil.
    apply leibniz_equiv in Hnil.
    exact (tracked_nonempty e He clientId mine Hm Hnil).
  - rewrite list_to_set_elements_L. exact Hm.
  - split; [|auto]. intros t Hs.
    destruct (sub_tracked _ He' t clientId Hs) as (m' & Hm' & _).
    congruence.
Qed.

(** C8 on the code: [deleteTopic] removes alice's only subscription and
    her topic set, and leaves her queue in [subscriberQueues]; the
    registry reached has a queue for a client without a subscription. *)
Theorem C8_deleteTopic_keeps_the_queue :
  let s := run [CreateTopic "A" 0; Subscribe "A" "alice" 1 0 0]
               (tiny "drop_oldest", quiet) in
  let after := (deleteTopic "A" s.1 s.2).1.1 in
  subscribed s.1 "A" "alice"
  /\ reachable after
  /\ (forall t, ~ subscribed after t "alice")
  /\ clientTopics after !! "alice" = None
  /\ has_queue after "alice".
Proof.
  intros s after. split; [|split; [|split; [|split]]].
  - exists (topic_of s.1 "A"). split; [reflexivity|]. vm_compute. eauto.
  - apply (reachable_step s.1 s.2 (DeleteTopic "A")).
    apply run_reachable, reachable_new.
  - intros t (topic & Ht & _).
    assert (Hempty : topics after = ∅) by (vm_compute; reflexivity).
    rewrite Hempty, lookup_empty in Ht. discriminate.
  - reflexivity.
  - unfold has_queue. vm_compute. eauto.
Qed.

End QueueLifecycle.

(** ** The identity a connection acts under *)

Section Identity.

Import WebSocketHandler.

Lemma pubsubClientId_bound client connectionId cid :
  clientProvidedId client = Some cid -> cid <> "" ->
  pubsubClientId client connectionId = cid.
Proof.
  intros Hc Hne. unfold pubsubClientId, present. rewrite Hc.
  destruct (String.eqb_spec cid ""); [contradiction | reflexivity].
Qed.

Lemma present_some (s : string) : s <> "" -> present (Some s) = true.
Proof.
  intros Hne. unfold present.
  destruct (String.eqb_spec s ""); [contradiction | reflexivity].
Qed.

Lemma bind_identity_lookup connectionId client_id h client :
  clients h !! connectionId = Some client ->
  clients (bind_identity connectionId client_id h) !! connectionId
  = Some (mkClient (ws client) (topics client) (connectedAt client)
            (lastPing client) (WebSocketHandler.connectionId client)
            (if present client_id then client_id
             else clientProvidedId client))
  /\ pubsubEngine (bind_identity connectionId client_id h) = pubsubEngine h.
Proof.
  intros Hc. unfold bind_identity. rewrite Hc.
  destruct (present client_id); simpl.
  - rewrite lookup_insert_eq. auto.
  - rewrite Hc. destruct client. auto.
Qed.

(** [handleSubscribe] calls the engine under the connection's current
    identity and keeps that identity in the record. *)
Lemma handleSubscribe_spec connectionId t lastN requestId now h net client :
  clients h !! connectionId = Some client -> t <> "" ->
  let after := handleSubscribe connectionId (Some t) lastN requestId now
                               h net in
  pubsubEngine after.1
  = (PubSubEngine.subscribe t (pubsubClientId client connectionId)
       (ws client) (default (of_Z 0) lastN) now (pubsubEngine h) net).1.1
  /\ bound_identity after.1 connectionId = clientProvidedId client.
Proof.
  intros Hc Ht. unfold handleSubscribe, bound_identity.
  rewrite present_some by exact Ht. simpl. rewrite Hc.
  destruct (PubSubEngine.subscribe _ _ _ _ _ _ _) as [[e' net1] result].
  destruct result; simpl.
  - rewrite lookup_insert_eq. auto.
  - rewrite Hc. auto.
Qed.

Lemma handleUnsubscribe_spec connectionId t requestId now h net client :
  clients h !! connectionId = Some client -> t <> "" ->
  let after := handleUnsubscribe connectionId (Some t) requestId now h net in
  pubsubEngine after.1
  = (PubSubEngine.unsubscribe t (pubsubClientId client connectionId)
       (pubsubEngine h)).1
  /\ bound_identity after.1 connectionId = clientProvidedId client.
Proof.
  intros Hc Ht. unfold handleUnsubscribe, bound_identity.
  rewrite present_some by exact Ht. simpl. rewrite Hc.
  destruct (PubSubEngine.unsubscribe _ _ _) as [e' result].
  destruct result; simpl.
  - rewrite lookup_insert_eq. auto.
  - rewrite Hc. auto.
Qed.

(** [handlePublish] hands the message to the engine without any
    identity; a message it rejects itself is one the engine would
    reject too. *)
Lemma handlePublish_spec connectionId t msg requestId now h net client :
  clients h !! connectionId = Some client -> t <> "" ->
  let after := handlePublish connectionId (Some t) (Some msg) requestId now
                             h net in
  pubsubEngine after.1
  = (PubSubEngine.publish t msg now (pubsubEngine h) net).1.1
  /\ bound_identity after.1 connectionId = clientProvidedId client.
Proof.
  intros Hc Ht. unfold handlePublish, bound_identity.
  rewrite present_some by exact Ht. simpl.
  destruct (negb (truthy (msg_id msg)) || negb (truthy (msg_payload msg)))
    eqn:Hbad.
  - simpl. rewrite Hc. split; [|reflexivity].
    unfold PubSubEngine.publish.
    destruct (PubSubEngine.topics (pubsubEngine h) !! t); [|reflexivity].
    rewrite Hbad. reflexivity.
  - destruct (PubSubEngine.publish _ _ _ _ _) as [[e' net1] result].
    destruct result; simpl; rewrite Hc; simpl; rewrite ?Hc; auto.
Qed.

Lemma handlePing_spec connectionId requestId now h net client :
  clients h !! connectionId = Some client ->
  let after := handlePing connectionId requestId now h net in
  pubsubEngine after.1 = pubsubEngine h
  /\ bound_identity after.1 connectionId = clientProvidedId client.
Proof.
  intros Hc. unfold handlePing, bound_identity. rewrite Hc. simpl.
  rewrite lookup_insert_eq. auto.
Qed.

Lemma present_inv (o : option string) :
  present o = true -> exists s, o = Some s /\ s <> "".
Proof.
  unfold present. destruct o as [s|]; [|discriminate].
  destruct (String.eqb_spec s ""); [discriminate|]. eauto.
Qed.

(** The messages that pass [validateMessage]. *)
Lemma validateMessage_inv m :
  validateMessage m = true ->
  type m = "ping"
  \/ ((type m = "subscribe" \/ type m = "unsubscribe" \/ type m = "publish")
      /\ exists t, topic m = Some t /\ t <> "").
Proof.
  unfold validateMessage.
  destruct (String.eqb (type m) ""); [discriminate|].
  destruct (bool_decide (type m ∈ ["subscribe"; "unsubscribe"; "publish";
                                  "ping"])) eqn:Hvalid; [|discriminate].
  simpl.
  destruct (bool_decide (type m ∈ ["subscribe"; "unsubscribe"; "publish"]))
    eqn:Hneeds.
  - intros Hp. right. apply bool_decide_eq_true in Hneeds.
    split; [|apply present_inv; exact Hp].
    repeat (apply elem_of_cons in Hneeds;
            destruct Hneeds as [Hneeds|Hneeds]; [tauto|]).
    apply elem_of_nil in Hneeds. contradiction.
  - intros _. left. apply bool_decide_eq_true in Hvalid.
    apply bool_decide_eq_false in Hneeds.
    repeat (apply elem_of_cons in Hvalid;
            destruct Hvalid as [Hvalid|Hvalid];
            [try (exfalso; apply Hneeds; rewrite Hvalid; set_solver)|]);
      [exact Hvalid|].
    apply elem_of_nil in Hvalid. contradiction.
Qed.

(** What [handleMessage] does with a message that passed validation and
    carries an identity, on a connection that has a record. *)
Lemma handleMessage_dispatch connectionId m now h net client cid :
  clients h !! connectionId = Some client ->
  validateMessage m = true -> client_id m = Some cid -> cid <> "" ->
  let h1 := bind_identity connectionId (Some cid) h in
  handleMessage connectionId (Parsed m) now h net
  = if String.eqb (type m) "subscribe" then
      handleSubscribe connectionId (topic m) (last_n m) (request_id m)
                      now h1 net
    else if String.eqb (type m) "unsubscribe" then
      handleUnsubscribe connectionId (topic m) (request_id m) now h1 net
    else if String.eqb (type m) "publish" then
      handlePublish connectionId (topic m) (message m) (request_id m)
                    now h1 net
    else handlePing connectionId (request_id m) now h1 net.
Proof.
  intros Hc Hv Hid Hne. unfold handleMessage.
  rewrite Hv, Hid, present_some by exact Hne. simpl.
  rewrite andb_false_r.
  destruct (validateMessage_inv m Hv) as [Hping | [[Ht | [Ht | Ht]] _]];
    rewrite ?Hping, ?Ht; reflexivity.
Qed.

(** C7, as the code has it.  On a connection that has a record, every
    validated message that carries a client_id binds that client_id to
    the connection, replacing the one bound before, and the subscribe or
    unsubscribe it asks for reaches the engine under the client_id of
    that same message, never under the connection id; publish reaches
    the engine without any identity.  A validated message without a
    client_id leaves the binding and the engine as they were. *)
Theorem C7_identity_follows_each_message :
  forall h net connectionId client m now,
    clients h !! connectionId = Some client ->
    validateMessage m = true ->
    let after := handleMessage connectionId (Parsed m) now h net in
    (forall cid, client_id m = Some cid -> cid <> "" ->
       bound_identity after.1 connectionId = Some cid
       /\ (forall t, type m = "subscribe" -> topic m = Some t ->
             pubsubEngine after.1
             = (PubSubEngine.subscribe t cid (ws client)
                  (default (of_Z 0) (last_n m)) now (pubsubEngine h) net).1.1)
       /\ (forall t, type m = "unsubscribe" -> topic m = Some t ->
             pubsubEngine after.1
             = (PubSubEngine.unsubscribe t cid (pubsubEngine h)).1)
       /\ (forall t msg, type m = "publish" -> topic m = Some t ->
             message m = Some msg ->
             pubsubEngine after.1
             = (PubSubEngine.publish t msg now (pubsubEngine h) net).1.1))
    /\ (present (client_id m) = false ->
        bound_identity after.1 connectionId = clientProvidedId client
        /\ pubsubEngine after.1 = pubsubEngine h).
Proof.
  intros h net connectionId client m now Hc Hv after. split.
  - intros cid Hid Hne. subst after.
    rewrite (handleMessage_dispatch connectionId m now h net client cid)
      by assumption.
    destruct (bind_identity_lookup connectionId (Some cid) h client Hc)
      as [Hc1 He1].
    rewrite present_some in Hc1 by exact Hne.
    set (h1 := bind_identity connectionId (Some cid) h) in *.
    set (client1 := mkClient _ _ _ _ _ _) in Hc1.
    assert (Hid1 : pubsubClientId client1 connectionId = cid)
      by (apply pubsubClientId_bound; [reflexivity | exact Hne]).
    destruct (validateMessage_inv m Hv)
      as [Hping | [Htype (t & Ht & Htne)]].
    + rewrite Hping. simpl.
      destruct (handlePing_spec connectionId (request_id m) now h1 net
                  client1 Hc1) as [_ Hb].
      split; [exact Hb|]. repeat split; intros; discriminate.
    + rewrite Ht.
      destruct Htype as [Hty | [Hty | Hty]]; rewrite Hty; simpl.
      * destruct (handleSubscribe_spec connectionId t (last_n m)
                    (request_id m) now h1 net client1 Hc1 Htne)
          as [Heng Hb].
        split; [exact Hb|]. repeat split; try (intros; discriminate).
        intros t' _ [= <-]. rewrite Heng, Hid1, He1. reflexivity.
      * destruct (handleUnsubscribe_spec connectionId t (request_id m)
                    now h1 net client1 Hc1 Htne) as [Heng Hb].
        split; [exact Hb|]. repeat split; try (intros; discriminate).
        intros t' _ [= <-]. rewrite Heng, Hid1, He1. reflexivity.
      * destruct (message m) as [msg|] eqn:Hmsg.
        -- destruct (handlePublish_spec connectionId t msg (request_id m)
                       now h1 net client1 Hc1 Htne) as [Heng Hb].
           split; [exact Hb|]. repeat split; try (intros; discriminate).
           intros t' msg' _ [= <-] [= <-]. rewrite Heng, He1. reflexivity.
        -- unfold handlePublish, bound_identity.
           rewrite present_some by exact Htne. simpl. rewrite Hc1.
           split; [reflexivity|]. repeat split; intros; discriminate.
  - intros Hnone. subst after. unfold handleMessage. rewrite Hv, Hnone.
    simpl. rewrite andb_true_r.
    destruct (validateMessage_inv m Hv) as [Hping | [Htype _]].
    + rewrite Hping. simpl.
      assert (Hh1 : bind_identity connectionId (client_id m) h = h)
        by (unfold bind_identity; rewrite Hc, Hnone; reflexivity).
      rewrite Hh1.
      destruct (handlePing_spec connectionId (request_id m) now h net
                  client Hc) as [He Hb].
      auto.
    + rewrite bool_decide_eq_true_2
        by (destruct Htype as [-> | [-> | ->]]; set_solver).
      simpl. unfold bound_identity. rewrite Hc. auto.
Qed.

Lemma C7_identity_follows_each_message_witness :
  let s := Wire.run (take 2 two_identities)
                    (two_topics "drop_oldest", quiet) in
  let m := mkProtocol "subscribe" (Some "T2") None (Some "b") None None in
  let after := handleMessage "conn1" (Parsed m) 2 s.1 s.2 in
  (clients s.1 !! "conn1" = Some (client_of s.1 "conn1")
   /\ validateMessage m = true /\ client_id m = Some "b" /\ "b" <> "")
  /\ bound_identity s.1 "conn1" = Some "a"
  /\ bound_identity after.1 "conn1" = Some "b"
  /\ pubsubEngine after.1
     = (PubSubEngine.subscribe "T2" "b" 1 0 2 (pubsubEngine s.1) s.2).1.1.
Proof.
  intros s m after.
  split; [repeat split; discriminate|].
  destruct (C7_identity_follows_each_message s.1 s.2 "conn1"
              (client_of s.1 "conn1") m 2 eq_refl eq_refl) as [Hwith _].
  destruct (Hwith "b" eq_refl) as (Hbound & Hsub & _); [discriminate|].
  split; [reflexivity|]. split; [exact Hbound|].
  exact (Hsub "T2" eq_refl eq_refl).
Defined.

(** C7 as stated fails: conn1 is bound to "a" by its first message; its
    second message carries "b", and the subscription to T2 is made under
    "b", which is also the identity bound from then on. *)
Lemma C7_counterexample_later_client_id_wins :
  let s1 := Wire.run (take 2 two_identities)
                     (two_topics "drop_oldest", quiet) in
  let s2 := Wire.run two_identities (two_topics "drop_oldest", quiet) in
  bound_identity s1.1 "conn1" = Some "a"
  /\ bound_identity s2.1 "conn1" = Some "b"
  /\ Run.subscribed (pubsubEngine s2.1) "T2" "b"
  /\ ~ Run.subscribed (pubsubEngine s2.1) "T2" "a".
Proof.
  intros s1 s2. split; [reflexivity|]. split; [reflexivity|]. split.
  - exists (topic_of (pubsubEngine s2.1) "T2"). split; [reflexivity|].
    vm_compute. eauto.
  - intros (topic & Ht & [w Hw]).
    assert (Htopic : topic = topic_of (pubsubEngine s2.1) "T2").
    { unfold topic_of. rewrite Ht. reflexivity. }
    subst topic. vm_compute in Hw. discriminate.
Qed.

End Identity.

(** ** Disconnect backpressure *)

Section Disconnect.

Import PubSubEngine Run.

Lemma add_disconnect q m ws net :
  SubscriberQueue.policy q = "disconnect" ->
  SubscriberQueue.maxSize q <= length (SubscriberQueue.queue q) ->
  SubscriberQueue.add q m ws net
  = (q, ws_close ws 1013 "SLOW_CONSUMER" net,
     SubscriberQueue.mkResult false "disconnected" (Some "SLOW_CONSUMER")
       None (SubscriberQueue.droppedCount q)).
Proof.
  intros Hp Hfull. unfold SubscriberQueue.add.
  replace (Nat.leb _ _) with true by (symmetry; apply Nat.leb_le; lia).
  rewrite bool_decide_eq_true_2 by exact Hp. reflexivity.
Qed.

(** *** Sockets that are closed stay closed, and silent *)

Lemma silent_refl net w : readyState (net w) <> OPEN -> silent_since net net w.
Proof. intros H. split; [reflexivity | exact H]. Qed.

Lemma silent_trans net net1 net2 w :
  silent_since net net1 w -> silent_since net1 net2 w ->
  silent_since net net2 w.
Proof. intros [H1 H2] [H3 H4]. split; [congruence | exact H4]. Qed.

Lemma ws_close_silent ws code why net w :
  readyState (net w) <> OPEN -> silent_since net (ws_close ws code why net) w.
Proof.
  intros H. split; [apply ws_close_sent|].
  unfold ws_close, set_socket.
  destruct (Nat.eqb_spec w ws) as [->|]; [|exact H]. simpl.
  destruct (Nat.eqb_spec (readyState (net ws)) OPEN); [discriminate|exact H].
Qed.

Lemma sendToClient_silent ws f net w :
  readyState (net w) <> OPEN -> (sendToClient ws f net).1 w = net w.
Proof.
  intros H. unfold sendToClient.
  destruct (Nat.eqb_spec (readyState (net ws)) OPEN) as [Hopen|];
    [|reflexivity].
  simpl. apply set_socket_other. intros ->. contradiction.
Qed.

Lemma sendToClient_keeps_closed ws f net w code why :
  closed_with code why (net w) ->
  closed_with code why ((sendToClient ws f net).1 w).
Proof.
  intros [Hin Hst]. rewrite sendToClient_silent by exact Hst.
  exact (conj Hin Hst).
Qed.

Lemma add_silent q m ws net w :
  readyState (net w) <> OPEN ->
  silent_since net (SubscriberQueue.add q m ws net).1.2 w.
Proof.
  intros H. unfold SubscriberQueue.add.
  destruct (Nat.leb _ _); [|apply silent_refl; exact H].
  destruct (bool_decide _); [|apply silent_refl; exact H].
  apply ws_close_silent. exact H.
Qed.

Lemma add_keeps_closed q m ws net w code why :
  closed_with code why (net w) ->
  closed_with code why ((SubscriberQueue.add q m ws net).1.2 w).
Proof.
  intros H. unfold SubscriberQueue.add.
  destruct (Nat.leb _ _); [|exact H].
  destruct (bool_decide _); [|exact H].
  apply ws_close_keeps_closed. exact H.
Qed.

(** The socket part of one round of the fan-out loop. *)
Lemma deliver_net topicName message now queues net rs c0 w0 :
  (deliver topicName message now (queues, net, rs) (c0, w0)).1.2
  = match queues !! c0 with
    | None => net
    | Some q =>
        let r := SubscriberQueue.add q (Event topicName message now false)
                                     w0 net in
        if SubscriberQueue.success r.2
        then (sendToClient w0 (Event topicName message now false) r.1.2).1
        else r.1.2
    end.
Proof.
  unfold deliver. destruct (queues !! c0) as [q|]; [|reflexivity].
  destruct (SubscriberQueue.add q _ w0 net) as [[q' net1] res]. simpl.
  destruct (SubscriberQueue.success res); [|reflexivity].
  destruct (sendToClient w0 _ net1). reflexivity.
Qed.

Lemma deliver_silent topicName message now queues net rs entry w :
  readyState (net w) <> OPEN ->
  silent_since net (deliver topicName message now (queues, net, rs) entry).1.2
               w.
Proof.
  intros H. destruct entry as [c0 w0]. rewrite deliver_net.
  destruct (queues !! c0) as [q|]; [|apply silent_refl; exact H].
  simpl.
  pose proof (add_silent q (Event topicName message now false) w0 net w H)
    as Hadd.
  destruct (SubscriberQueue.success _); [|exact Hadd].
  destruct Hadd as [Hs Hr]. split.
  - rewrite sendToClient_silent by exact Hr. exact Hs.
  - rewrite sendToClient_silent by exact Hr. exact Hr.
Qed.

Lemma deliver_keeps_closed topicName message now queues net rs entry w
      code why :
  closed_with code why (net w) ->
  closed_with code why
    ((deliver topicName message now (queues, net, rs) entry).1.2 w).
Proof.
  intros H. destruct entry as [c0 w0]. rewrite deliver_net.
  destruct (queues !! c0) as [q|]; [|exact H]. simpl.
  destruct (SubscriberQueue.success _).
  - apply sendToClient_keeps_closed, add_keeps_closed. exact H.
  - apply add_keeps_closed. exact H.
Qed.

Lemma fanout_silent topicName message now l : forall queues net rs w,
  readyState (net w) <> OPEN ->
  silent_since net
    (foldl (deliver topicName message now) (queues, net, rs) l).1.2 w.
Proof.
  induction l as [|entry l IH]; intros queues net rs w H.
  - apply silent_refl. exact H.
  - cbn [foldl].
    pose proof (deliver_silent topicName message now queues net rs entry w H)
      as Hstep.
    destruct (deliver topicName message now (queues, net, rs) entry)
      as [[queues1 net1] rs1].
    simpl in Hstep. eapply silent_trans; [exact Hstep|].
    apply IH. apply Hstep.
Qed.

Lemma fanout_keeps_closed topicName message now l code why :
  forall queues net rs w,
    closed_with code why (net w) ->
    closed_with code why
      ((foldl (deliver topicName message now) (queues, net, rs) l).1.2 w).
Proof.
  induction l as [|entry l IH]; intros queues net rs w H; [exact H|].
  cbn [foldl].
  pose proof (deliver_keeps_closed topicName message now queues net rs
                entry w code why H) as Hstep.
  destruct (deliver topicName message now (queues, net, rs) entry)
    as [[queues1 net1] rs1].
  apply IH. exact Hstep.
Qed.

(** The fan-out closes the socket of a subscriber whose queue is full
    under policy disconnect. *)
Lemma fanout_closes topicName message now (l : list (string * nat)) :
  NoDup l.*1 ->
  forall queues net rs c w q,
    (c, w) ∈ l -> queues !! c = Some q ->
    SubscriberQueue.policy q = "disconnect" ->
    SubscriberQueue.maxSize q <= length (SubscriberQueue.queue q) ->
    closed_with 1013 "SLOW_CONSUMER"
      ((foldl (deliver topicName message now) (queues, net, rs) l).1.2 w).
Proof.
  induction l as [|[c0 w0] l IH]; intros Hnd queues net rs c w q Hin Hq
                                         Hpol Hfull.
  - apply elem_of_nil in Hin. contradiction.
  - rewrite fmap_cons in Hnd. apply NoDup_cons in Hnd.
    destruct Hnd as [Hc0 Hnd]. simpl in Hc0. cbn [foldl].
    pose proof (deliver_net topicName message now queues net rs c0 w0)
      as Hnet.
    destruct (deliver_step topicName message now queues net rs c0 w0)
      as (Hqs & _ & _).
    destruct (deliver topicName message now (queues, net, rs) (c0, w0))
      as [[queues1 net1] rs1].
    simpl in Hnet, Hqs.
    apply elem_of_cons in Hin. destruct Hin as [[= -> ->] | Hin].
    + apply fanout_keeps_closed. rewrite Hnet, Hq. simpl.
      rewrite add_disconnect by assumption. simpl. apply ws_close_closed.
    + assert (Hne : c <> c0).
      { intros ->. apply Hc0. apply list_elem_of_fmap.
        exists (c0, w). auto. }
      apply (IH Hnd queues1 net1 rs1 c w q Hin); try assumption.
      rewrite Hqs. destruct (queues !! c0); [|exact Hq].
      rewrite lookup_insert_ne by congruence. exact Hq.
Qed.

Lemma publish_net topicName message now e net topic :
  topics e !! topicName = Some topic ->
  truthy (msg_id message) = true -> truthy (msg_payload message) = true ->
  (publish topicName message now e net).1.2
  = (foldl (deliver topicName (stamp now message) now)
           (subscriberQueues e, net, [])
           (map_to_list (subscribers topic))).1.2.
Proof.
  intros Ht Hid Hpl. unfold publish. rewrite Ht, Hid, Hpl. simpl.
  destruct (foldl _ _ _) as [[queues' net'] rs]. reflexivity.
Qed.

(** A valid publish that finds a subscriber's queue full under policy
    disconnect leaves that queue as it was, calls
    [close(1013, "SLOW_CONSUMER")] on the subscriber's socket, and leaves
    the subscription in the registry. *)
Lemma publish_disconnects topicName message now e net topic c w q :
  topics e !! topicName = Some topic -> subscribers topic !! c = Some w ->
  subscriberQueues e !! c = Some q ->
  SubscriberQueue.policy q = "disconnect" ->
  SubscriberQueue.maxSize q <= length (SubscriberQueue.queue q) ->
  truthy (msg_id message) = true -> truthy (msg_payload message) = true ->
  let after := publish topicName message now e net in
  subscriberQueues after.1.1 !! c = Some q
  /\ closed_with 1013 "SLOW_CONSUMER" (after.1.2 w)
  /\ subscribed after.1.1 topicName c.
Proof.
  intros Ht Hc Hq Hpol Hfull Hid Hpl after. subst after.
  rewrite (publish_net topicName message now e net topic Ht Hid Hpl).
  destruct (publish_spec topicName message now e net topic Ht Hid Hpl)
    as (queues' & net' & rs & -> & Hqs & _).
  simpl. split; [|split].
  - rewrite Hqs, bool_decide_eq_true_2, Hq by eauto. simpl.
    destruct (enqueue_cases q (Event topicName (stamp now message) now false))
      as [_ Hrej].
    rewrite Hrej by assumption. reflexivity.
  - apply (fanout_closes topicName (stamp now message) now
             (map_to_list (subscribers topic)) (NoDup_fst_map_to_list _)
             (subscriberQueues e) net [] c w q); try assumption.
    apply elem_of_map_to_list. exact Hc.
  - unfold subscribed. simpl. rewrite lookup_insert_eq.
    eexists. split; [reflexivity|]. simpl. eauto.
Qed.

Lemma close_all_silent (l : list (string * nat)) : forall net w,
  readyState (net w) <> OPEN ->
  silent_since net
    (foldl (fun n (entry : string * nat) =>
              ws_close entry.2 1000 "Topic deleted" n) net l) w.
Proof.
  induction l as [|entry l IH]; intros net w H.
  - apply silent_refl. exact H.
  - cbn [foldl].
    pose proof (ws_close_silent entry.2 1000 "Topic deleted" net w H)
      as Hstep.
    eapply silent_trans; [exact Hstep|]. apply IH. apply Hstep.
Qed.

(** No call of the engine writes to a socket that is not open, or
    reopens it. *)
Lemma step_silent c e net w :
  readyState (net w) <> OPEN -> silent_since net (step (e, net) c).2 w.
Proof.
  intros H.
  destruct c as [t now | t | t cid ws lastN now | t cid | t m now | cid | ];
    simpl; try (apply silent_refl; exact H).
  - unfold deleteTopic. destruct (topics e !! t); simpl;
      [|apply silent_refl; exact H].
    apply close_all_silent. exact H.
  - unfold subscribe. destruct (topics e !! t) as [topic|]; simpl;
      [|apply silent_refl; exact H].
    destruct (subscribers topic !! cid); simpl;
      [apply silent_refl; exact H|].
    destruct (greater_than_zero lastN && _); [|apply silent_refl; exact H].
    rewrite replay_send_all.
    destruct (decide (w = ws)) as [->|Hne].
    + rewrite send_all_not_open by exact H. apply silent_refl. exact H.
    + split; rewrite send_all_other by exact Hne; [reflexivity | exact H].
  - destruct (topics e !! t) as [topic|] eqn:Ht;
      [|rewrite publish_topic_not_found by exact Ht; apply silent_refl;
        exact H].
    destruct (truthy (msg_id m)) eqn:Hid;
      [|rewrite publish_invalid_message by eauto; apply silent_refl;
        exact H].
    destruct (truthy (msg_payload m)) eqn:Hpl;
      [|rewrite publish_invalid_message by eauto; apply silent_refl;
        exact H].
    rewrite (publish_net t m now e net topic Ht Hid Hpl).
    apply fanout_silent. exact H.
Qed.

Lemma run_silent cs : forall e net w,
  readyState (net w) <> OPEN -> silent_since net (run cs (e, net)).2 w.
Proof.
  induction cs as [|c cs IH]; intros e net w H.
  - apply silent_refl. exact H.
  - unfold run in *. cbn [foldl].
    pose proof (step_silent c e net w H) as Hstep.
    destruct (step (e, net) c) as [e1 net1]. simpl in Hstep.
    eapply silent_trans; [exact Hstep|]. apply IH. apply Hstep.
Qed.

(** The handler's own frames obey the same guard. *)
Lemma handler_send_silent ws f net w :
  readyState (net w) <> OPEN ->
  silent_since net (WebSocketHandler.sendToClient ws f net) w.
Proof.
  intros H. unfold WebSocketHandler.sendToClient.
  destruct (Nat.eqb_spec (readyState (net ws)) OPEN) as [Hopen|];
    [|apply silent_refl; exact H].
  assert (Hne : w <> ws) by (intros ->; contradiction).
  unfold ws_send. split; rewrite set_socket_other by exact Hne;
    [reflexivity | exact H].
Qed.

Lemma sendError_silent clientId code text now h net w :
  readyState (net w) <> OPEN ->
  silent_since net (WebSocketHandler.sendError clientId code text now h net) w.
Proof.
  intros H. unfold WebSocketHandler.sendError.
  destruct (WebSocketHandler.clients h !! clientId) as [client|];
    [|apply silent_refl; exact H].
  destruct (negb _); [apply silent_refl; exact H|].
  apply handler_send_silent. exact H.
Qed.

Lemma subscribe_silent topicName clientId ws lastN now e net w :
  readyState (net w) <> OPEN ->
  silent_since net (subscribe topicName clientId ws lastN now e net).1.2 w.
Proof.
  intros H. exact (step_silent (Subscribe topicName clientId ws lastN now)
                               e net w H).
Qed.

Lemma publish_silent topicName message now e net w :
  readyState (net w) <> OPEN ->
  silent_since net (publish topicName message now e net).1.2 w.
Proof.
  intros H. exact (step_silent (Publish topicName message now) e net w H).
Qed.

(** No input of the transport makes the handler or the engine write to a
    socket that is not open. *)
Lemma wire_step_silent i h net w :
  readyState (net w) <> OPEN -> silent_since net (Wire.step (h, net) i).2 w.
Proof.
  intros H. destruct i as [cid sock now | cid data now | cid]; simpl.
  - apply handler_send_silent. exact H.
  - unfold WebSocketHandler.handleMessage.
    destruct data as [| | m]; try (apply sendError_silent; exact H).
    destruct (negb (WebSocketHandler.validateMessage m));
      [apply sendError_silent; exact H|].
    destruct (bool_decide _ && _); [apply sendError_silent; exact H|].
    set (h1 := WebSocketHandler.bind_identity cid _ h).
    destruct (String.eqb _ "subscribe").
    { unfold WebSocketHandler.handleSubscribe.
      destruct (negb _); [apply sendError_silent; exact H|].
      destruct (WebSocketHandler.clients h1 !! cid) as [client|];
        [|apply sendError_silent; exact H].
      pose proof (subscribe_silent
                    (default "" (WebSocketHandler.topic m))
                    (WebSocketHandler.pubsubClientId client cid)
                    (WebSocketHandler.ws client)
                    (default (of_Z 0) (WebSocketHandler.last_n m)) now
                    (WebSocketHandler.pubsubEngine h1) net w H) as Hsub.
      destruct (subscribe _ _ _ _ _ _ _) as [[e' net1] result].
      simpl in Hsub. destruct result; simpl;
        (eapply silent_trans; [exact Hsub|]);
        [apply handler_send_silent | apply sendError_silent]; apply Hsub. }
    destruct (String.eqb _ "unsubscribe").
    { unfold WebSocketHandler.handleUnsubscribe.
      destruct (negb _); [apply sendError_silent; exact H|].
      destruct (WebSocketHandler.clients h1 !! cid) as [client|];
        [|apply sendError_silent; exact H].
      destruct (unsubscribe _ _ _) as [e' result].
      destruct result; simpl;
        [apply handler_send_silent | apply sendError_silent]; exact H. }
    destruct (String.eqb _ "publish").
    { unfold WebSocketHandler.handlePublish.
      destruct (negb _); [apply sendError_silent; exact H|].
      destruct (WebSocketHandler.message m) as [msg|];
        [|apply sendError_silent; exact H].
      destruct (negb _ || negb _); [apply sendError_silent; exact H|].
      pose proof (publish_silent (default "" (WebSocketHandler.topic m)) msg
                    now (WebSocketHandler.pubsubEngine h1) net w H) as Hpub.
      destruct (publish _ _ _ _ _) as [[e' net1] result].
      simpl in Hpub. destruct result; simpl.
      - destruct (WebSocketHandler.clients _ !! cid) as [client|];
          simpl; [|exact Hpub].
        eapply silent_trans; [exact Hpub|].
        apply handler_send_silent. apply Hpub.
      - eapply silent_trans; [exact Hpub|].
        apply sendError_silent. apply Hpub. }
    destruct (String.eqb _ "ping"); [|apply sendError_silent; exact H].
    unfold WebSocketHandler.handlePing.
    destruct (WebSocketHandler.clients h1 !! cid) as [client|];
      [|apply sendError_silent; exact H].
    simpl. apply handler_send_silent. exact H.
  - apply silent_refl. exact H.
Qed.

Lemma wire_run_silent inputs : forall h net w,
  readyState (net w) <> OPEN ->
  silent_since net (Wire.run inputs (h, net)).2 w.
Proof.
  induction inputs as [|i inputs IH]; intros h net w H.
  - apply silent_refl. exact H.
  - unfold Wire.run in *. cbn [foldl].
    pose proof (wire_step_silent i h net w H) as Hstep.
    destruct (Wire.step (h, net) i) as [h1 net1]. simpl in Hstep.
    eapply silent_trans; [exact Hstep|]. apply IH. apply Hstep.
Qed.

(** *** Tear-down on close *)

Lemma unsubscribe_only_removes t c e t' c' :
  subscribed (unsubscribe t c e).1 t' c' -> subscribed e t' c'.
Proof.
  unfold unsubscribe.
  destruct (topics e !! t) as [old|] eqn:Hold; [|auto].
  destruct (subscribers old !! c) as [w|] eqn:Hw; [|auto].
  intros Hs.
  assert (Hgoal : subscribed e t' c' /\ ~ (t' = t /\ c' = c)); [|tauto].
  apply (subscribed_without t c e old t' c' Hold).
  destruct (clientTopics e !! c); [|exact Hs].
  destruct (bool_decide _); exact Hs.
Qed.

Lemma unsubscribe_removes t c e : ~ subscribed (unsubscribe t c e).1 t c.
Proof.
  unfold unsubscribe.
  destruct (topics e !! t) as [old|] eqn:Hold.
  2:{ intros (topic & Ht & _). simpl in Ht. congruence. }
  destruct (subscribers old !! c) as [w|] eqn:Hw.
  2:{ intros (topic & Ht & [x Hx]). simpl in Ht. congruence. }
  intros Hs.
  assert (Hgoal : subscribed e t c /\ ~ (t = t /\ c = c)); [|tauto].
  apply (subscribed_without t c e old t c Hold).
  destruct (clientTopics e !! c); [|exact Hs].
  destruct (bool_decide _); exact Hs.
Qed.

Lemma unsubscribe_all_only_removes id l : forall e t c,
  subscribed (WebSocketHandler.unsubscribe_all id l e) t c ->
  subscribed e t c.
Proof.
  induction l as [|t0 l IH]; intros e t c Hs; [exact Hs|].
  unfold WebSocketHandler.unsubscribe_all in *. cbn [foldl] in Hs.
  apply IH in Hs. apply unsubscribe_only_removes in Hs. exact Hs.
Qed.

Lemma unsubscribe_all_removes id l : forall e t,
  t ∈ l -> ~ subscribed (WebSocketHandler.unsubscribe_all id l e) t id.
Proof.
  induction l as [|t0 l IH]; intros e t Hin.
  - apply elem_of_nil in Hin. contradiction.
  - unfold WebSocketHandler.unsubscribe_all in *. cbn [foldl].
    destruct (decide (t ∈ l)) as [Hl|Hl]; [apply IH; exact Hl|].
    apply elem_of_cons in Hin. destruct Hin as [->|Hin]; [|contradiction].
    intros Hs.
    apply (unsubscribe_all_only_removes id l) in Hs.
    exact (unsubscribe_removes t0 id e Hs).
Qed.

(** [handleClose] drops the connection's record and unsubscribes every
    topic of the connection's topic set under the identity the
    connection is bound to at that moment; it adds no subscription. *)
Lemma handleClose_spec connectionId h client :
  WebSocketHandler.clients h !! connectionId = Some client ->
  let h' := WebSocketHandler.handleClose connectionId h in
  let id := WebSocketHandler.pubsubClientId client connectionId in
  WebSocketHandler.clients h' !! connectionId = None
  /\ (forall t, t ∈ WebSocketHandler.topics client ->
        ~ subscribed (WebSocketHandler.pubsubEngine h') t id)
  /\ (forall t c, subscribed (WebSocketHandler.pubsubEngine h') t c ->
        subscribed (WebSocketHandler.pubsubEngine h) t c).
Proof.
  intros Hc. unfold WebSocketHandler.handleClose. rewrite Hc. simpl.
  split; [apply lookup_delete_eq|]. split.
  - intros t Ht. apply unsubscribe_all_removes. apply elem_of_elements.
    exact Ht.
  - intros t c. apply unsubscribe_all_only_removes.
Qed.

(** Backpressure by disconnect, as the code has it.  On a queue with
    policy disconnect that holds as many frames as its capacity, [add]
    rejects the frame (success false, action disconnected, reason
    SLOW_CONSUMER), leaves the queue
    and its counters as they were, and calls
    [close(1013, "SLOW_CONSUMER")] on the connection, which is not open
    from then on; no other socket is touched.  A publish that meets such
    a queue does the same for that subscriber and leaves its
    subscription in the registry.  No later call of the engine and no
    later input of the handler writes to a socket that is not open.  The
    subscriptions go when the transport reports the close: [handleClose]
    drops the connection's record and unsubscribes each topic of the
    connection's topic set under the identity bound to the connection at
    that moment, and adds none. *)
Theorem disconnect_backpressure_as_coded :
  forall q m ws net,
    SubscriberQueue.policy q = "disconnect" ->
    length (SubscriberQueue.queue q) = SubscriberQueue.maxSize q ->
    (let r := SubscriberQueue.add q m ws net in
     r.1.1 = q
     /\ r.2 = SubscriberQueue.mkResult false "disconnected"
                (Some "SLOW_CONSUMER") None (SubscriberQueue.droppedCount q)
     /\ closed_with 1013 "SLOW_CONSUMER" (r.1.2 ws)
     /\ (forall w, w <> ws -> r.1.2 w = net w))
    /\ (forall e topicName topic c message now,
          topics e !! topicName = Some topic ->
          subscribers topic !! c = Some ws ->
          subscriberQueues e !! c = Some q ->
          truthy (msg_id message) = true ->
          truthy (msg_payload message) = true ->
          let after := publish topicName message now e net in
          subscriberQueues after.1.1 !! c = Some q
          /\ closed_with 1013 "SLOW_CONSUMER" (after.1.2 ws)
          /\ subscribed after.1.1 topicName c)
    /\ (forall cs e net0 w,
          readyState (net0 w) <> OPEN ->
          silent_since net0 (run cs (e, net0)).2 w)
    /\ (forall inputs h net0 w,
          readyState (net0 w) <> OPEN ->
          silent_since net0 (Wire.run inputs (h, net0)).2 w)
    /\ (forall h connectionId client,
          WebSocketHandler.clients h !! connectionId = Some client ->
          let h' := WebSocketHandler.handleClose connectionId h in
          let id := WebSocketHandler.pubsubClientId client connectionId in
          WebSocketHandler.clients h' !! connectionId = None
          /\ (forall t, t ∈ WebSocketHandler.topics client ->
                ~ subscribed (WebSocketHandler.pubsubEngine h') t id)
          /\ (forall t c,
                subscribed (WebSocketHandler.pubsubEngine h') t c ->
                subscribed (WebSocketHandler.pubsubEngine h) t c)).
Proof.
  intros q m ws net Hpol Hfull.
  split; [|split; [|split; [|split]]].
  - rewrite add_disconnect by (try assumption; lia). simpl.
    split; [reflexivity|]. split; [reflexivity|].
    split; [apply ws_close_closed|].
    intros w Hw. apply ws_close_other. exact Hw.
  - intros e topicName topic c message now Ht Hc Hq Hid Hpl.
    apply (publish_disconnects topicName message now e net topic c ws q);
      try assumption.
    lia.
  - intros cs e net0 w H. apply run_silent. exact H.
  - intros inputs h net0 w H. apply wire_run_silent. exact H.
  - intros h connectionId client Hc.
    apply handleClose_spec. exact Hc.
Qed.

Lemma disconnect_backpressure_as_coded_witness :
  let s := Wire.run one_identity (two_topics "disconnect", quiet) in
  let before := Wire.run (take 5 one_identity)
                         (two_topics "disconnect", quiet) in
  let q := SubscriberQueue.mk "a" 1 "disconnect"
             [Event "T1" (stamp 4 m1) 4 false] 0 1 in
  let h' := WebSocketHandler.handleClose "conn1" s.1 in
  (SubscriberQueue.policy q = "disconnect"
   /\ length (SubscriberQueue.queue q) = SubscriberQueue.maxSize q
   /\ subscriberQueues (WebSocketHandler.pubsubEngine before.1) !! "a"
      = Some q
   /\ WebSocketHandler.clients s.1 !! "conn1" = Some (client_of s.1 "conn1")
   /\ readyState (s.2 1) <> OPEN)
  /\ (SubscriberQueue.add q (Info "x" 0) 1 quiet).1.1 = q
  /\ closed_with 1013 "SLOW_CONSUMER"
       ((publish "T1" m2 5 (WebSocketHandler.pubsubEngine before.1)
                 before.2).1.2 1)
  /\ sent ((run [Publish "T1" m3 6; Publish "T2" m3 7]
                (WebSocketHandler.pubsubEngine s.1, s.2)).2 1)
     = sent (s.2 1)
  /\ ~ subscribed (WebSocketHandler.pubsubEngine h') "T1" "a"
  /\ ~ subscribed (WebSocketHandler.pubsubEngine h') "T2" "a".
Proof.
  intros s before q h'.
  split; [repeat split; vm_compute; discriminate|].
  destruct (disconnect_backpressure_as_coded q (Info "x" 0) 1 quiet
              eq_refl eq_refl) as ((Hadd & _) & _).
  destruct (disconnect_backpressure_as_coded q (Info "x" 0) 1 before.2
              eq_refl eq_refl) as (_ & Hpub & Hsilent & _ & Hclose).
  split; [exact Hadd|]. split; [|split; [|split]].
  - apply (Hpub (WebSocketHandler.pubsubEngine before.1) "T1"
             (topic_of (WebSocketHandler.pubsubEngine before.1) "T1")
             "a" m2 5); reflexivity.
  - apply Hsilent. vm_compute. discriminate.
  - destruct (Hclose s.1 "conn1" (client_of s.1 "conn1") eq_refl)
      as (_ & Hgone & _).
    apply (Hgone "T1"). vm_compute. set_solver.
  - destruct (Hclose s.1 "conn1" (client_of s.1 "conn1") eq_refl)
      as (_ & Hgone & _).
    apply (Hgone "T2"). vm_compute. set_solver.
Defined.

(** C4, where the code fails it.  conn1 subscribes to T1 as "a" and to T2
    as "b"; the queues have capacity 1 and policy disconnect.  The second
    publish to T1 finds the queue of "a" full, rejects the frame and closes
    conn1's socket with 1013 SLOW_CONSUMER.  When the close is handled,
    [handleClose] unsubscribes the connection's topics under the identity
    bound last, "b": conn1 has no record any more, but "a" is still
    subscribed to T1 with the closed socket and still has its full queue,
    and the next publish to T1 still counts it as a subscriber and calls
    [close] on the dead socket again.  With the same traffic under one
    identity nothing is left: the subscriptions, the topic set and the
    queue of "a" are gone. *)
Theorem C4_subscription_survives_the_close :
  let s := Wire.run overflow_T1 (two_topics "disconnect", quiet) in
  let s' := Wire.step s (Wire.Closed "conn1") in
  let e' := WebSocketHandler.pubsubEngine s'.1 in
  let one := Wire.step (Wire.run one_identity (two_topics "disconnect", quiet))
                       (Wire.Closed "conn1") in
  closed_with 1013 "SLOW_CONSUMER" (s.2 1)
  /\ WebSocketHandler.clients s'.1 !! "conn1" = None
  /\ subscribed e' "T1" "a"
  /\ subscribers (topic_of e' "T1") !! "a" = Some 1
  /\ subscriberQueues e' !! "a"
     = Some (SubscriberQueue.mk "a" 1 "disconnect"
               [Event "T1" (stamp 4 m1) 4 false] 0 1)
  /\ (publish "T1" m3 6 e' s'.2).2
     = Published 1 [mkDelivery "a" false (Some "disconnected")
                               (Some "SLOW_CONSUMER") None (Some 0)]
  /\ closeCalls ((publish "T1" m3 6 e' s'.2).1.2 1)
     = [(1013, "SLOW_CONSUMER"); (1013, "SLOW_CONSUMER")]
  /\ clientTopics (WebSocketHandler.pubsubEngine one.1) !! "a" = None
  /\ subscriberQueues (WebSocketHandler.pubsubEngine one.1) !! "a" = None
  /\ subscribers (topic_of (WebSocketHandler.pubsubEngine one.1) "T1") = ∅.
Proof.
  intros s s' e' one.
  split; [|split; [|split; [|split; [|split; [|split; [|split; [|split;
    [|split]]]]]]]].
  - split; [|vm_compute; discriminate].
    vm_compute. apply list_elem_of_singleton. reflexivity.
  - reflexivity.
  - exists (topic_of e' "T1").
    split; [reflexivity|]. vm_compute. eauto.
  - reflexivity.
  - vm_compute. reflexivity.
  - vm_compute. reflexivity.
  - vm_compute. reflexivity.
  - vm_compute. reflexivity.
  - vm_compute. reflexivity.
  - vm_compute. reflexivity.
Qed.

End Disconnect.

(** ** Scenarios *)

Section Scenarios.

Import PubSubEngine Run.

(** Topic orders: A subscribes without replay, [m1] and [m2] are published,
    B subscribes with [last_n = 1], then [m3] is published.  B is sent [m2]
    tagged as a replay and then [m3]; A is sent the three messages once
    each; both queues hold what was fanned out to them. *)
Example scenario_orders :
  let s := run [Subscribe "orders" "B" 2 1 3; Publish "orders" m3 4]
               orders_two in
  sent (s.2 2) = [Event "orders" (stamp 2 m2) 3 true;
                  Event "orders" (stamp 4 m3) 4 false]
  /\ sent (s.2 1) = [Event "orders" (stamp 1 m1) 1 false;
                     Event "orders" (stamp 2 m2) 2 false;
                     Event "orders" (stamp 4 m3) 4 false]
  /\ SubscriberQueue.queue <$> subscriberQueues s.1 !! "B"
     = Some [Event "orders" (stamp 4 m3) 4 false]
  /\ length <$> (SubscriberQueue.queue <$> subscriberQueues s.1 !! "A")
     = Some 3.
Proof. vm_compute. repeat split. Qed.

(** [maxQueueSize = 1], drop_oldest, nobody drains: after [m1] and [m2]
    the queue is [[m2]] and one message was dropped. *)
Example scenario_drop_oldest :
  let s := run [Publish "A" m2 2] (alice_full "drop_oldest") in
  subscriberQueues s.1 !! "alice"
  = Some (SubscriberQueue.mk "alice" 1 "drop_oldest"
            [Event "A" (stamp 2 m2) 2 false] 1 2).
Proof. vm_compute. reflexivity. Qed.

(** A capacity of 0 is outside what the engine configures: there the drop
    branch of [add] shifts nothing out of the empty queue and still pushes,
    so the queue holds one frame. *)
Example add_at_capacity_zero :
  let q := SubscriberQueue.new "alice" 0 "drop_oldest" in
  (SubscriberQueue.add q (Info "x" 0) 1 quiet).1.1
  = SubscriberQueue.mk "alice" 0 "drop_oldest" [Info "x" 0] 1 1.
Proof. reflexivity. Qed.

(** A publish to topic T1 reaches nobody on topic T2. *)
Example scenario_topic_isolation :
  let s := Wire.run (take 3 two_identities)
                    (two_topics "drop_oldest", quiet) in
  let after := publish "T1" m1 3 (WebSocketHandler.pubsubEngine s.1) s.2 in
  SubscriberQueue.queue <$> subscriberQueues after.1.1 !! "b" = Some []
  /\ SubscriberQueue.queue <$> subscriberQueues after.1.1 !! "a"
     = Some [Event "T1" (stamp 3 m1) 3 false].
Proof. vm_compute. repeat split. Qed.

End Scenarios.


(** * Further properties of the code *)

(** ** Queues in the registry *)

Section QueueInvariants.

Import PubSubEngine Run.

Lemma enqueue_sound q m :
  1 <= SubscriberQueue.maxSize q -> queue_sound q -> queue_sound (enqueue q m).
Proof.
  unfold queue_sound, enqueue. intros HK [Hlen Htot].
  destruct (Nat.leb_spec (SubscriberQueue.maxSize q)
              (length (SubscriberQueue.queue q))) as [Hfull|Hroom].
  - destruct (bool_decide _); [auto|]. simpl.
    rewrite length_app. simpl.
    destruct (SubscriberQueue.queue q); simpl in *; lia.
  - simpl. rewrite length_app. simpl. lia.
Qed.

(** [unsubscribe] creates no queue and changes none. *)
Lemma unsubscribe_queues topicName clientId e c q :
  subscriberQueues (unsubscribe topicName clientId e).1 !! c = Some q ->
  subscriberQueues e !! c = Some q.
Proof.
  unfold unsubscribe. destruct (topics e !! topicName); [|auto].
  destruct (subscribers _ !! clientId); [|auto].
  destruct (clientTopics e !! clientId); [|auto].
  destruct (bool_decide _); simpl; [|auto].
  intros H. apply lookup_delete_Some in H. tauto.
Qed.

Lemma disconnectClient_queues clientId e c q :
  subscriberQueues (disconnectClient clientId e).1 !! c = Some q ->
  subscriberQueues e !! c = Some q.
Proof.
  unfold disconnectClient.
  destruct (clientTopics e !! clientId) as [mine|]; [|auto]. simpl.
  generalize (elements mine). intros l. revert e.
  induction l as [|t l IH]; intros e H; simpl in *; [exact H|].
  apply IH in H. apply unsubscribe_queues in H. exact H.
Qed.

Lemma shutdown_queues e c q :
  subscriberQueues (shutdown e) !! c = Some q ->
  subscriberQueues e !! c = Some q.
Proof.
  unfold shutdown. simpl. generalize (map_to_list (clientTopics e)).
  intros l. revert e. induction l as [|x l IH]; intros e H; simpl in *;
    [exact H|].
  apply IH in H. apply disconnectClient_queues in H. exact H.
Qed.

Lemma step_queues_sound e net c :
  consistent e ->
  (forall cid q, subscriberQueues e !! cid = Some q -> queue_sound q) ->
  forall cid q,
    subscriberQueues (step (e, net) c).1 !! cid = Some q -> queue_sound q.
Proof.
  intros He Hs cid q.
  destruct c as [t now | t | t c0 ws lastN now | t c0 | t m now | c0 | ];
    simpl.
  - unfold createTopic. destruct (topics e !! t); simpl; apply Hs.
  - unfold deleteTopic. destruct (topics e !! t); simpl; apply Hs.
  - unfold subscribe. destruct (topics e !! t) as [topic|]; simpl;
      [|apply Hs].
    destruct (subscribers topic !! c0); simpl; [apply Hs|].
    destruct (subscriberQueues e !! c0) eqn:Hq0; [apply Hs|].
    destruct (decide (cid = c0)) as [->|Hne].
    + rewrite lookup_insert_eq. intros [= <-]. split; simpl; lia.
    + rewrite lookup_insert_ne by congruence. apply Hs.
  - intros H. apply unsubscribe_queues in H. eapply Hs. exact H.
  - destruct (topics e !! t) as [topic|] eqn:Ht;
      [|rewrite publish_topic_not_found by exact Ht; apply Hs].
    destruct (truthy (msg_id m)) eqn:Hid;
      [|rewrite publish_invalid_message by eauto; apply Hs].
    destruct (truthy (msg_payload m)) eqn:Hpl;
      [|rewrite publish_invalid_message by eauto; apply Hs].
    destruct (publish_spec t m now e net topic Ht Hid Hpl)
      as (queues' & net' & rs & -> & Hq & _).
    simpl. rewrite Hq. destruct (bool_decide _); [|apply Hs].
    destruct (subscriberQueues e !! cid) as [q0|] eqn:Hq0; [|discriminate].
    simpl. intros [= <-]. apply enqueue_sound; [|eapply Hs; exact Hq0].
    destruct (queue_config e He cid q0 Hq0) as (-> & _).
    apply (queue_capacity e He).
  - intros H. apply disconnectClient_queues in H. eapply Hs. exact H.
  - intros H. apply shutdown_queues in H. eapply Hs. exact H.
Qed.

Lemma reachable_queues_sound e :
  reachable e ->
  forall cid q, subscriberQueues e !! cid = Some q -> queue_sound q.
Proof.
  induction 1 as [o | e net c Hr IH].
  - intros cid q H. simpl in H. rewrite lookup_empty in H. discriminate.
  - apply step_queues_sound; [apply reachable_consistent; exact Hr | exact IH].
Qed.

Lemma run_reachable_from cs s : reachable s.1 -> reachable (run cs s).1.
Proof. destruct s as [e net]. apply run_reachable. Qed.

Lemma alice_full_reachable policy : reachable (alice_full policy).1.
Proof. apply run_reachable, reachable_new. Qed.

(** X1.  In every reachable registry a subscriber queue holds at most
    [maxQueueSize] frames: what [getStats] reports as [queueSize] never
    exceeds what it reports as [maxSize]. *)
Theorem reachable_queue_within_capacity :
  forall e cid q,
    reachable e -> subscriberQueues e !! cid = Some q ->
    SubscriberQueue.maxSize q = maxQueueSize e
    /\ length (SubscriberQueue.queue q) <= maxQueueSize e
    /\ Stats.queueSize (Stats.queueStats q)
       <= Stats.qs_maxSize (Stats.queueStats q).
Proof.
  intros e cid q Hr Hq.
  destruct (reachable_queues_sound e Hr cid q Hq) as [Hlen _].
  destruct (queue_config e (reachable_consistent e Hr) cid q Hq) as (HK & _).
  simpl. rewrite <- HK. auto.
Qed.

Lemma reachable_queue_within_capacity_witness :
  let s := run [Publish "A" m2 2; Publish "A" m3 3] (alice_full "drop_oldest") in
  let q := default (SubscriberQueue.new "" 0 "")
                   (subscriberQueues s.1 !! "alice") in
  (reachable s.1 /\ subscriberQueues s.1 !! "alice" = Some q)
  /\ length (SubscriberQueue.queue q) <= 1.
Proof.
  intros s q.
  assert (Hr : reachable s.1).
  { apply run_reachable_from, alice_full_reachable. }
  split; [split; [exact Hr | reflexivity]|].
  destruct (reachable_queue_within_capacity s.1 "alice" q Hr eq_refl)
    as (_ & Hlen & _).
  exact Hlen.
Defined.

(** X2.  The engine never drains a queue, so in every reachable registry a
    queue has processed exactly the frames it still holds plus the frames it
    dropped: [totalProcessed = droppedCount + queueSize]. *)
Theorem reachable_queue_accounting :
  forall e cid q,
    reachable e -> subscriberQueues e !! cid = Some q ->
    Stats.qs_totalProcessed (Stats.queueStats q)
    = Stats.qs_droppedCount (Stats.queueStats q)
      + Stats.queueSize (Stats.queueStats q).
Proof.
  intros e cid q Hr Hq.
  destruct (reachable_queues_sound e Hr cid q Hq) as [_ Htot]. exact Htot.
Qed.

Lemma reachable_queue_accounting_witness :
  let s := run [Publish "A" m2 2; Publish "A" m3 3] (alice_full "drop_oldest") in
  let q := default (SubscriberQueue.new "" 0 "")
                   (subscriberQueues s.1 !! "alice") in
  (reachable s.1 /\ subscriberQueues s.1 !! "alice" = Some q)
  /\ SubscriberQueue.totalProcessed q = 3
  /\ SubscriberQueue.droppedCount q + length (SubscriberQueue.queue q) = 3.
Proof.
  intros s q.
  assert (Hr : reachable s.1).
  { apply run_reachable_from, alice_full_reachable. }
  split; [split; [exact Hr | reflexivity]|].
  pose proof (reachable_queue_accounting s.1 "alice" q Hr eq_refl) as Hacc.
  simpl in Hacc. split; [reflexivity|]. rewrite <- Hacc. reflexivity.
Defined.

End QueueInvariants.

(** ** Draining a queue, and a queue under the disconnect policy *)

Section QueueRuns.

Import SubscriberQueue.

(** [n] calls of [getNext] hand out the first [n] frames in the order the
    queue holds them, then [null]; no counter moves. *)
Lemma drain_spec n : forall q,
  Stats.drain n q
  = (mk (clientId q) (maxSize q) (policy q) (drop n (queue q))
        (droppedCount q) (totalProcessed q),
     (Some <$> take n (queue q)) ++ replicate (n - length (queue q)) None).
Proof.
  induction n as [|n IH]; intros q.
  - simpl. rewrite drop_0. destruct q; reflexivity.
  - cbn [Stats.drain]. unfold getNext.
    destruct (queue q) as [|f rest] eqn:Hq.
    + rewrite IH. rewrite Hq. simpl. rewrite drop_nil, take_nil. simpl.
      rewrite Nat.sub_0_r. destruct q; simpl in *; subst; reflexivity.
    + rewrite IH. simpl. reflexivity.
Qed.

(** X3.  A queue is first in, first out: after any run of [add]s on a new
    queue (capacity at least 1, policy other than disconnect), as many
    [getNext] calls as the queue holds frames return the last [capacity]
    frames given, oldest first, and empty the queue; one more [getNext]
    returns nothing; the counters are those [add] left. *)
Theorem getNext_returns_frames_oldest_first :
  forall cid K pol ms ws net,
    1 <= K -> pol <> "disconnect" ->
    let q := (add_all (new cid K pol) ms ws net).1 in
    let drained := Stats.drain (length (queue q)) q in
    drained.2 = Some <$> slice_last K ms
    /\ queue drained.1 = []
    /\ getNext drained.1 = (drained.1, None)
    /\ droppedCount drained.1 = length ms - K
    /\ totalProcessed drained.1 = length ms.
Proof.
  intros cid K pol ms ws net HK Hp q drained.
  destruct (add_all_tracks ms (new cid K pol) [] ws net HK Hp)
    as ((Hq & Hd & Ht) & Hm & _).
  { repeat split. }
  fold q in Hq, Hd, Ht, Hm. simpl in Hq, Hd, Ht, Hm.
  unfold drained. rewrite drain_spec. simpl.
  rewrite Nat.sub_diag, drop_all, firstn_all. simpl. rewrite app_nil_r.
  rewrite Hq, Hm, Hd, Ht. unfold getNext. simpl. rewrite Hm.
  repeat split.
Qed.

Lemma getNext_returns_frames_oldest_first_witness :
  let fs := [Info "a" 1; Info "b" 2; Info "c" 3] in
  let q := (add_all (new "alice" 2 "drop_oldest") fs 1 quiet).1 in
  (1 <= 2 /\ "drop_oldest" <> "disconnect")
  /\ (Stats.drain (length (queue q)) q).2 = [Some (Info "b" 2); Some (Info "c" 3)].
Proof.
  intros fs q. split; [split; [lia | discriminate]|].
  destruct (getNext_returns_frames_oldest_first "alice" 2 "drop_oldest" fs 1
              quiet) as (H & _); [lia | discriminate |].
  exact H.
Defined.

Lemma add_disconnect_step q m ws net :
  policy q = "disconnect" ->
  (let '(q1, n1, _) := add q m ws net in (q1, n1))
  = if Nat.leb (maxSize q) (length (queue q))
    then (q, ws_close ws 1013 "SLOW_CONSUMER" net)
    else (mk (clientId q) (maxSize q) (policy q) (queue q ++ [m])
             (droppedCount q) (S (totalProcessed q)), net).
Proof.
  intros Hp. unfold add. destruct (Nat.leb _ _); [|reflexivity].
  rewrite bool_decide_eq_true_2 by exact Hp. reflexivity.
Qed.

Lemma add_all_disconnect ms : forall q ws net,
  policy q = "disconnect" -> length (queue q) <= maxSize q ->
  let r := add_all q ms ws net in
  queue r.1 = take (maxSize q) (queue q ++ ms)
  /\ maxSize r.1 = maxSize q
  /\ droppedCount r.1 = droppedCount q
  /\ totalProcessed r.1 + length (queue q)
     = totalProcessed q + length (queue r.1)
  /\ closeCalls (r.2 ws)
     = closeCalls (net ws)
       ++ replicate (length (queue q) + length ms - maxSize q)
                    (1013, "SLOW_CONSUMER")
  /\ sent (r.2 ws) = sent (net ws)
  /\ forall w, w <> ws -> r.2 w = net w.
Proof.
  induction ms as [|m ms IH]; intros q ws net Hp Hlen.
  - simpl. rewrite app_nil_r, firstn_all2 by lia.
    replace (length (queue q) + 0 - maxSize q) with 0 by lia.
    simpl. rewrite app_nil_r. repeat split.
  - unfold add_all. cbn [foldl]. cbn zeta. cbn [fst snd].
    rewrite (add_disconnect_step q m ws net Hp).
    destruct (Nat.leb_spec (maxSize q) (length (queue q))) as [Hfull|Hroom].
    + specialize (IH q ws (ws_close ws 1013 "SLOW_CONSUMER" net) Hp Hlen).
      unfold add_all in IH. cbn zeta in IH.
      destruct IH as (Hq & Hm & Hd & Ht & Hc & Hs & Ho).
      repeat apply conj; [|exact Hm|exact Hd|exact Ht| | |].
      * rewrite Hq. rewrite !take_app_le by lia. reflexivity.
      * rewrite Hc. unfold ws_close. rewrite set_socket_same. simpl.
        rewrite <- app_assoc. f_equal.
        replace (length (queue q) + S (length ms) - maxSize q)
          with (S (length (queue q) + length ms - maxSize q)) by lia.
        reflexivity.
      * rewrite Hs. apply ws_close_sent.
      * intros w Hw. rewrite Ho by exact Hw. apply ws_close_other. exact Hw.
    + set (q1 := mk (clientId q) (maxSize q) (policy q) (queue q ++ [m])
                    (droppedCount q) (S (totalProcessed q))).
      specialize (IH q1 ws net Hp).
      unfold add_all in IH. cbn zeta in IH.
      destruct IH as (Hq & Hm & Hd & Ht & Hc & Hs & Ho).
      { simpl. rewrite length_app. simpl. lia. }
      simpl in Hq, Hm, Hd, Ht, Hc.
      repeat apply conj; [|exact Hm|exact Hd| | |exact Hs|exact Ho].
      * rewrite Hq. rewrite <- app_assoc. reflexivity.
      * rewrite length_app in Ht. simpl in Ht. lia.
      * rewrite Hc. rewrite length_app. simpl. do 2 f_equal. lia.
Qed.

(** X4.  Under the disconnect policy a new queue keeps the first
    [capacity] frames it is given and drops none; for every later frame
    [add] calls [close(1013, SLOW_CONSUMER)] on the socket once more, counts
    nothing, and writes to no socket. *)
Theorem disconnect_policy_keeps_the_first_frames :
  forall cid K ms ws net,
    let r := add_all (new cid K "disconnect") ms ws net in
    queue r.1 = take K ms
    /\ droppedCount r.1 = 0
    /\ totalProcessed r.1 = Nat.min K (length ms)
    /\ closeCalls (r.2 ws)
       = closeCalls (net ws)
         ++ replicate (length ms - K) (1013, "SLOW_CONSUMER")
    /\ (forall w, sent (r.2 w) = sent (net w))
    /\ forall w, w <> ws -> r.2 w = net w.
Proof.
  intros cid K ms ws net r.
  destruct (add_all_disconnect ms (new cid K "disconnect") ws net eq_refl)
    as (Hq & Hm & Hd & Ht & Hc & Hs & Ho).
  { simpl. lia. }
  fold r in Hq, Hm, Hd, Ht, Hc, Hs, Ho. simpl in Hq, Hm, Hd, Ht, Hc.
  split; [exact Hq|]. split; [exact Hd|]. split.
  - rewrite Hq in Ht. rewrite length_take in Ht. lia.
  - split; [exact Hc|]. split; [|exact Ho].
    intros w. destruct (decide (w = ws)) as [->|Hw]; [exact Hs|].
    rewrite Ho by exact Hw. reflexivity.
Qed.

End QueueRuns.

(** ** Round trips and repeated calls on the registry *)

Section RoundTrips.

Import PubSubEngine Run.

Lemma forget_topic_absent topicName e :
  consistent e -> topics e !! topicName = None ->
  forget_topic topicName (clientTopics e) = clientTopics e.
Proof.
  intros He HT. apply map_eq. intros c. rewrite forget_topic_lookup.
  destruct (clientTopics e !! c) as [mine|] eqn:Hc; [|reflexivity].
  assert (Hnot : topicName ∉ mine).
  { intros Hin. destruct (tracked_sub e He c mine topicName Hc Hin)
      as (topic & Ht & _). congruence. }
  assert (Hsame : mine ∖ {[topicName]} = mine) by set_solver.
  rewrite Hsame. rewrite bool_decide_eq_false_2; [reflexivity|].
  intros Hs. apply size_empty_inv in Hs. apply leibniz_equiv in Hs.
  exact (tracked_nonempty e He c mine Hc Hs).
Qed.

Lemma createTopic_deleteTopic_restores e topicName now net :
  consistent e -> topics e !! topicName = None ->
  let e1 := (createTopic topicName now e).1 in
  (createTopic topicName now e).2 = true
  /\ getTopic topicName e1 = Some (mkInfo topicName 0 0 now)
  /\ deleteTopic topicName e1 net = (e, net, true).
Proof.
  intros He HT e1.
  unfold e1, createTopic. rewrite HT. simpl.
  split; [reflexivity|]. split.
  - unfold getTopic. simpl. rewrite lookup_insert_eq. reflexivity.
  - unfold deleteTopic. simpl. rewrite lookup_insert_eq. simpl.
    rewrite map_to_list_empty. simpl.
    rewrite delete_insert_eq, (delete_id _ _ HT).
    rewrite (forget_topic_absent topicName e He HT).
    destruct e; reflexivity.
Qed.

(** X5.  [createTopic] of a new name registers a topic without subscribers
    and messages, and [deleteTopic] of it right after gives back the
    registry as it was, closes no socket and returns [true]. *)
Theorem createTopic_deleteTopic_round_trip :
  forall e topicName now net,
    reachable e -> topics e !! topicName = None ->
    let e1 := (createTopic topicName now e).1 in
    (createTopic topicName now e).2 = true
    /\ getTopic topicName e1 = Some (mkInfo topicName 0 0 now)
    /\ deleteTopic topicName e1 net = (e, net, true).
Proof.
  intros e topicName now net Hr HT.
  apply createTopic_deleteTopic_restores;
    [apply reachable_consistent; exact Hr | exact HT].
Qed.

Lemma createTopic_deleteTopic_round_trip_witness :
  let s := alice_full "drop_oldest" in
  (reachable s.1 /\ topics s.1 !! "B" = None)
  /\ deleteTopic "B" (createTopic "B" 7 s.1).1 s.2 = (s.1, s.2, true).
Proof.
  intros s.
  assert (Hr : reachable s.1) by apply alice_full_reachable.
  split; [split; [exact Hr | reflexivity]|].
  destruct (createTopic_deleteTopic_round_trip s.1 "B" 7 s.2 Hr eq_refl)
    as (_ & _ & H).
  exact H.
Defined.

(** X6.  [unsubscribe] right after a successful [subscribe] gives back the
    topics and the clients' topic sets as they were.  The queues are as
    they were too, except that a queue the client had without having a
    topic set is gone: it was kept by [subscribe] and is deleted with the
    client's last subscription. *)
Theorem subscribe_unsubscribe_round_trip :
  forall e topicName clientId ws lastN now net,
    reachable e ->
    (subscribe topicName clientId ws lastN now e net).2 = Subscribed ->
    let e1 := (subscribe topicName clientId ws lastN now e net).1.1 in
    unsubscribe topicName clientId e1
    = (mk (topics e) (clientTopics e)
          (match clientTopics e !! clientId with
           | Some _ => subscriberQueues e
           | None => delete clientId (subscriberQueues e)
           end)
          (maxMessagesPerTopic e) (maxQueueSize e) (backpressurePolicy e),
       true)
    /\ (subscriberQueues e !! clientId = None ->
        unsubscribe topicName clientId e1 = (e, true)).
Proof.
  intros e topicName clientId ws lastN now net Hr.
  pose proof (reachable_consistent e Hr) as He.
  unfold subscribe.
  destruct (topics e !! topicName) as [topic|] eqn:HT; [|discriminate].
  destruct (subscribers topic !! clientId) as [w|] eqn:Hw; [discriminate|].
  intros _. cbn [fst snd].
  assert (Hnot : forall mine, clientTopics e !! clientId = Some mine ->
                              topicName ∉ mine).
  { intros mine Hm Hin.
    destruct (tracked_sub e He clientId mine topicName Hm Hin)
      as (topic0 & Ht0 & [w0 Hw0]). congruence. }
  assert (Hfirst :
    unsubscribe topicName clientId
      (mk (<[topicName := mkTopic (<[clientId := ws]> (subscribers topic))
                            (messages topic) (createdAt topic)]> (topics e))
          (<[clientId := default ∅ (clientTopics e !! clientId)
                         ∪ {[topicName]}]> (clientTopics e))
          match subscriberQueues e !! clientId with
          | Some _ => subscriberQueues e
          | None =>
              <[clientId := SubscriberQueue.new clientId (maxQueueSize e)
                              (backpressurePolicy e)]> (subscriberQueues e)
          end
          (maxMessagesPerTopic e) (maxQueueSize e) (backpressurePolicy e))
    = (mk (topics e) (clientTopics e)
          (match clientTopics e !! clientId with
           | Some _ => subscriberQueues e
           | None => delete clientId (subscriberQueues e)
           end)
          (maxMessagesPerTopic e) (maxQueueSize e) (backpressurePolicy e),
       true)).
  { unfold unsubscribe. simpl. rewrite !lookup_insert_eq. simpl.
    rewrite !lookup_insert_eq.
    rewrite delete_insert_eq, (delete_id _ _ Hw), insert_insert_eq.
    assert (Htopics :
      <[topicName := mkTopic (subscribers topic) (messages topic)
                             (createdAt topic)]> (topics e) = topics e).
    { apply insert_id. rewrite HT. destruct topic; reflexivity. }
    rewrite Htopics.
    destruct (clientTopics e !! clientId) as [mine|] eqn:Hm; cbn [from_option]; unfold id.
    - assert (Hsame : (mine ∪ {[topicName]}) ∖ {[topicName]} = mine).
      { pose proof (Hnot mine eq_refl). set_solver. }
      rewrite Hsame. rewrite bool_decide_eq_false_2.
      + rewrite insert_insert_eq, (insert_id _ _ _ Hm).
        destruct (tracked_queue e He clientId) as [q Hq];
          [rewrite Hm; eauto|].
        unfold has_queue in Hq. rewrite Hq. reflexivity.
      + intros Hs. apply size_empty_inv in Hs. apply leibniz_equiv in Hs.
        exact (tracked_nonempty e He clientId mine Hm Hs).
    - assert (Hsame : (∅ ∪ {[topicName]}) ∖ {[topicName]} = (∅ : gset string))
        by set_solver.
      assert (Hz : size (∅ : gset string) = 0)
        by exact (size_empty (C := gset string)).
      rewrite Hsame. rewrite bool_decide_eq_true_2 by exact Hz.
      rewrite delete_insert_eq, (delete_id _ _ Hm).
      destruct (subscriberQueues e !! clientId) as [q|] eqn:Hq;
        [reflexivity|].
      rewrite delete_insert_eq. reflexivity. }
  split; [exact Hfirst|].
  intros Hq. rewrite Hfirst. f_equal.
  destruct (clientTopics e !! clientId) as [mine|] eqn:Hm.
  - destruct e; reflexivity.
  - rewrite (delete_id _ _ Hq). destruct e; reflexivity.
Qed.

Lemma subscribe_unsubscribe_round_trip_witness :
  let s := alice_full "drop_oldest" in
  (reachable s.1 /\ (subscribe "A" "bob" 2 0 5 s.1 s.2).2 = Subscribed)
  /\ unsubscribe "A" "bob" (subscribe "A" "bob" 2 0 5 s.1 s.2).1.1
     = (s.1, true).
Proof.
  intros s.
  assert (Hr : reachable s.1) by apply alice_full_reachable.
  split; [split; [exact Hr | reflexivity]|].
  destruct (subscribe_unsubscribe_round_trip s.1 "A" "bob" 2 0%Z 5 s.2 Hr
              eq_refl) as (_ & H).
  apply H. reflexivity.
Defined.

(** X7.  A call repeated right after it succeeded is rejected and changes
    nothing: a second [createTopic] and a second [unsubscribe] return
    [false], a second [deleteTopic] returns [false] and closes nothing, a
    second [subscribe] answers ALREADY_SUBSCRIBED and replays nothing,
    whatever socket and [lastN] it names. *)
Theorem repeated_call_is_rejected :
  forall e topicName clientId now now' net net' ws ws' lastN lastN',
    (let e1 := (createTopic topicName now e).1 in
     createTopic topicName now' e1 = (e1, false))
    /\ (let e1 := (unsubscribe topicName clientId e).1 in
        unsubscribe topicName clientId e1 = (e1, false))
    /\ (let e1 := (deleteTopic topicName e net).1.1 in
        deleteTopic topicName e1 net' = (e1, net', false))
    /\ (let r := subscribe topicName clientId ws lastN now e net in
        r.2 = Subscribed ->
        subscribe topicName clientId ws' lastN' now' r.1.1 net'
        = (r.1.1, net', SubscribeError "ALREADY_SUBSCRIBED")).
Proof.
  intros e topicName clientId now now' net net' ws ws' lastN lastN'.
  split; [|split; [|split]].
  - cbn zeta. apply createTopic_exists. unfold createTopic.
    destruct (topics e !! topicName) as [topic|] eqn:HT; simpl.
    + rewrite HT. eauto.
    + rewrite lookup_insert_eq. eauto.
  - cbn zeta. apply unsubscribe_not_subscribed, unsubscribe_removes.
  - cbn zeta.
    assert (Hgone : topics (deleteTopic topicName e net).1.1 !! topicName
                    = None).
    { unfold deleteTopic.
      destruct (topics e !! topicName) as [topic|] eqn:HT; simpl;
        [apply lookup_delete_eq | exact HT]. }
    generalize dependent (deleteTopic topicName e net).1.1.
    intros e1 Hgone. unfold deleteTopic. rewrite Hgone. reflexivity.
  - cbn zeta. intros Hok. apply subscribe_already.
    revert Hok. unfold subscribe.
    destruct (topics e !! topicName) as [topic|] eqn:HT; [|discriminate].
    destruct (subscribers topic !! clientId) as [w|] eqn:Hw; [discriminate|].
    intros _. cbn [fst snd].
    eexists. split; [simpl; apply lookup_insert_eq|].
    simpl. rewrite lookup_insert_eq. eauto.
Qed.

Lemma repeated_call_is_rejected_witness :
  let s := alice_full "drop_oldest" in
  let r := subscribe "A" "bob" 2 0 5 s.1 s.2 in
  r.2 = Subscribed
  /\ subscribe "A" "bob" 3 4 6 r.1.1 quiet
     = (r.1.1, quiet, SubscribeError "ALREADY_SUBSCRIBED").
Proof.
  intros s r. split; [reflexivity|].
  destruct (repeated_call_is_rejected s.1 "A" "bob" 5 6 s.2 quiet 2 3 0%Z 4%Z)
    as (_ & _ & _ & H).
  apply H. reflexivity.
Defined.

End RoundTrips.

(** ** Disconnecting a client, shutting the engine down *)

Section Teardown.

Import PubSubEngine Run.

Lemma unsubscribe_subscribed_iff t c e t' c' :
  subscribed (unsubscribe t c e).1 t' c'
  <-> subscribed e t' c' /\ ~ (t' = t /\ c' = c).
Proof.
  split.
  - intros Hs. split; [eapply unsubscribe_only_removes; exact Hs|].
    intros [-> ->]. exact (unsubscribe_removes t c e Hs).
  - intros [Hs Hne]. unfold unsubscribe.
    destruct (topics e !! t) as [old|] eqn:Hold; [|exact Hs].
    destruct (subscribers old !! c) as [w|] eqn:Hw; [|exact Hs].
    assert (Hgoal : exists topic,
               <[t := mkTopic (delete c (subscribers old)) (messages old)
                        (createdAt old)]> (topics e) !! t' = Some topic
               /\ is_Some (subscribers topic !! c')).
    { apply (subscribed_without t c e old t' c' Hold). auto. }
    destruct (clientTopics e !! c); [|exact Hgoal].
    destruct (bool_decide _); exact Hgoal.
Qed.

(** [unsubscribe] leaves the other clients' topic sets and queues alone. *)
Lemma unsubscribe_other_client t c e c' :
  c' <> c ->
  clientTopics (unsubscribe t c e).1 !! c' = clientTopics e !! c'
  /\ subscriberQueues (unsubscribe t c e).1 !! c' = subscriberQueues e !! c'.
Proof.
  intros Hne. unfold unsubscribe.
  destruct (topics e !! t); [|auto].
  destruct (subscribers _ !! c); [|auto].
  destruct (clientTopics e !! c); [|auto].
  destruct (bool_decide _); simpl.
  - rewrite !lookup_delete_ne by congruence. auto.
  - rewrite lookup_insert_ne by congruence. auto.
Qed.

Lemma unsubscribe_list_spec c (l : list string) : forall e,
  let e' := foldl (fun e0 t => (unsubscribe t c e0).1) e l in
  (forall t c', subscribed e' t c'
                <-> subscribed e t c' /\ ~ (t ∈ l /\ c' = c))
  /\ (forall c', c' <> c ->
        clientTopics e' !! c' = clientTopics e !! c'
        /\ subscriberQueues e' !! c' = subscriberQueues e !! c').
Proof.
  induction l as [|t0 l IH]; intros e; cbn [foldl].
  - split; [|auto]. intros t c'. split; [|tauto].
    intros Hs. split; [exact Hs|]. intros [Hin _].
    apply elem_of_nil in Hin. exact Hin.
  - destruct (IH (unsubscribe t0 c e).1) as [Hsub Hother]. split.
    + intros t c'. rewrite Hsub, unsubscribe_subscribed_iff.
      rewrite elem_of_cons. split.
      * intros [[Hs Hn1] Hn2]. split; [exact Hs|].
        intros [[->|Hin] ->]; tauto.
      * intros [Hs Hn]. split; [split; [exact Hs|]|]; intros [? ?]; apply Hn;
          auto.
    + intros c' Hne. destruct (Hother c' Hne) as [-> ->].
      apply unsubscribe_other_client. exact Hne.
Qed.

(** X8.  [disconnectClient] of a client without a topic set returns
    [false] and changes nothing.  Otherwise it returns [true], ends every
    subscription of that client and deletes its queue; the subscriptions,
    topic sets and queues of the other clients and every ring buffer stay
    as they were. *)
Theorem disconnectClient_removes_one_client :
  forall e clientId,
    reachable e ->
    let e' := (disconnectClient clientId e).1 in
    ((disconnectClient clientId e).2 = false ->
     e' = e /\ forall t, ~ subscribed e t clientId)
    /\ ((disconnectClient clientId e).2 = true ->
        clientTopics e' !! clientId = None
        /\ subscriberQueues e' !! clientId = None)
    /\ (forall t c, subscribed e' t c <-> subscribed e t c /\ c <> clientId)
    /\ (forall c, c <> clientId ->
          clientTopics e' !! c = clientTopics e !! c
          /\ subscriberQueues e' !! c = subscriberQueues e !! c)
    /\ (forall t topic, topics e !! t = Some topic ->
          exists topic', topics e' !! t = Some topic'
                         /\ messages topic' = messages topic).
Proof.
  intros e clientId Hr e'.
  pose proof (reachable_consistent e Hr) as He.
  split; [|split; [|split; [|split]]].
  - unfold e', disconnectClient.
    destruct (clientTopics e !! clientId) as [mine|] eqn:Hm; [discriminate|].
    intros _. split; [reflexivity|]. intros t Hs.
    destruct (sub_tracked e He t clientId Hs) as (mine & Hm' & _).
    congruence.
  - intros Hok.
    destruct (disconnectClient_destroys_queue clientId e Hr Hok)
      as (_ & Hct & Hq).
    auto.
  - intros t c. unfold e', disconnectClient.
    destruct (clientTopics e !! clientId) as [mine|] eqn:Hm; cbn [fst].
    + destruct (unsubscribe_list_spec clientId (elements mine) e)
        as [Hsub _].
      rewrite Hsub. split.
      * intros [Hs Hn]. split; [exact Hs|]. intros ->. apply Hn.
        split; [|reflexivity].
        destruct (sub_tracked e He t clientId Hs) as (mine' & Hm' & Hin).
        rewrite Hm in Hm'. injection Hm' as <-.
        apply elem_of_elements. exact Hin.
      * intros [Hs Hn]. split; [exact Hs|]. intros [_ Heq]. auto.
    + split; [|tauto]. intros Hs. split; [exact Hs|]. intros ->.
      destruct (sub_tracked e He t clientId Hs) as (mine & Hm' & _).
      congruence.
  - intros c Hne. unfold e', disconnectClient.
    destruct (clientTopics e !! clientId) as [mine|] eqn:Hm; cbn [fst];
      [|auto].
    destruct (unsubscribe_list_spec clientId (elements mine) e)
      as [_ Hother].
    apply Hother. exact Hne.
  - intros t topic Ht. apply disconnectClient_buffer. exact Ht.
Qed.

Lemma disconnectClient_removes_one_client_witness :
  let s := alice_full "drop_oldest" in
  let e' := (disconnectClient "alice" s.1).1 in
  reachable s.1
  /\ (disconnectClient "alice" s.1).2 = true
  /\ subscriberQueues e' !! "alice" = None.
Proof.
  intros s e'.
  assert (Hr : reachable s.1) by apply alice_full_reachable.
  split; [exact Hr|]. split; [reflexivity|].
  destruct (disconnectClient_removes_one_client s.1 "alice" Hr)
    as (_ & Hq & _).
  apply Hq. reflexivity.
Defined.

Lemma disconnect_each_queues (l : list (string * gset string)) :
  forall e c q,
    subscriberQueues
      (foldl (fun e' (entry : string * gset string) =>
                (disconnectClient entry.1 e').1) e l) !! c = Some q ->
    subscriberQueues e !! c = Some q.
Proof.
  induction l as [|x l IH]; intros e c q H; cbn [foldl] in H; [exact H|].
  apply IH in H. apply disconnectClient_queues in H. exact H.
Qed.

Lemma disconnect_each_spec (l : list (string * gset string)) :
  forall e,
    reachable e -> NoDup l.*1 ->
    (forall c, c ∈ l.*1 -> is_Some (clientTopics e !! c)) ->
    forall c, c ∈ l.*1 ->
      subscriberQueues
        (foldl (fun e' (entry : string * gset string) =>
                  (disconnectClient entry.1 e').1) e l) !! c = None.
Proof.
  induction l as [|[c0 mine0] l IH]; intros e Hr Hnd Hall c Hin.
  - apply elem_of_nil in Hin. contradiction.
  - rewrite fmap_cons in Hnd, Hin, Hall. simpl in Hnd, Hin, Hall.
    apply NoDup_cons in Hnd. destruct Hnd as [Hnot Hnd].
    cbn [foldl fst].
    pose proof (reachable_step e (fun _ => mkSocket 0 [] [])
                  (DisconnectClient c0) Hr) as Hr1.
    cbn [step fst] in Hr1.
    destruct (decide (c ∈ l.*1)) as [Hl|Hl].
    + apply IH; [exact Hr1 | exact Hnd | | exact Hl].
      intros c' Hc'.
      assert (Hne : c' <> c0) by (intros ->; contradiction).
      assert (Hsame : clientTopics (disconnectClient c0 e).1 !! c'
                      = clientTopics e !! c').
      { unfold disconnectClient.
        destruct (clientTopics e !! c0) as [mine|]; cbn [fst]; [|reflexivity].
        destruct (unsubscribe_list_spec c0 (elements mine) e) as [_ Hother].
        apply Hother. exact Hne. }
      rewrite Hsame. apply Hall. apply elem_of_cons. auto.
    + apply elem_of_cons in Hin. destruct Hin as [->|Hin]; [|contradiction].
      destruct (subscriberQueues
                  (foldl (fun e' (entry : string * gset string) =>
                            (disconnectClient entry.1 e').1)
                         (disconnectClient c0 e).1 l) !! c0)
        as [q|] eqn:Hq; [|reflexivity].
      apply disconnect_each_queues in Hq.
      destruct (disconnectClient_destroys_queue c0 e Hr) as (_ & _ & Hnone).
      * unfold disconnectClient.
        destruct (Hall c0) as [mine Hm]; [apply elem_of_cons; auto|].
        rewrite Hm. reflexivity.
      * congruence.
Qed.

(** X9.  The engine's [shutdown] empties the topics and the clients' topic
    sets and deletes the queue of every client that still had a topic set.
    It creates no queue and changes none: a queue whose client has no topic
    set is still there afterwards. *)
Theorem shutdown_clears_the_registry :
  forall e,
    reachable e ->
    let e' := shutdown e in
    topics e' = ∅ /\ clientTopics e' = ∅
    /\ (forall c, is_Some (clientTopics e !! c) ->
          subscriberQueues e' !! c = None)
    /\ (forall c, clientTopics e !! c = None ->
          subscriberQueues e' !! c = subscriberQueues e !! c).
Proof.
  intros e Hr e'. split; [reflexivity|]. split; [reflexivity|]. split.
  - intros c Hc. unfold e', shutdown. cbn [subscriberQueues].
    apply disconnect_each_spec.
    + exact Hr.
    + apply NoDup_fst_map_to_list.
    + intros c' Hc'. apply keys_map_to_list. exact Hc'.
    + apply keys_map_to_list. exact Hc.
  - intros c Hc. unfold e', shutdown. cbn [subscriberQueues].
    assert (Hgen : forall (l : list (string * gset string)) e0,
               c ∉ l.*1 ->
               subscriberQueues
                 (foldl (fun e' (entry : string * gset string) =>
                           (disconnectClient entry.1 e').1) e0 l) !! c
               = subscriberQueues e0 !! c).
    { induction l as [|[c0 mine0] l IH]; intros e0 Hnot; cbn [foldl fst];
        [reflexivity|].
      rewrite fmap_cons in Hnot. simpl in Hnot.
      apply not_elem_of_cons in Hnot. destruct Hnot as [Hne Hnot].
      rewrite IH by exact Hnot.
      unfold disconnectClient.
      destruct (clientTopics e0 !! c0) as [mine|]; cbn [fst]; [|reflexivity].
      destruct (unsubscribe_list_spec c0 (elements mine) e0) as [_ Hother].
      apply Hother. exact Hne. }
    apply Hgen. intros Hin. apply keys_map_to_list in Hin.
    rewrite Hc in Hin. destruct Hin as [? ?]. discriminate.
Qed.

Lemma shutdown_clears_the_registry_witness :
  let s := alice_full "drop_oldest" in
  reachable s.1
  /\ is_Some (subscriberQueues s.1 !! "alice")
  /\ subscriberQueues (shutdown s.1) !! "alice" = None.
Proof.
  intros s.
  assert (Hr : reachable s.1) by apply alice_full_reachable.
  split; [exact Hr|]. split; [eexists; reflexivity|].
  destruct (shutdown_clears_the_registry s.1 Hr) as (_ & _ & Hq & _).
  apply Hq. eexists. reflexivity.
Defined.

End Teardown.

(** ** What a publish writes and reports *)

Section Publishing.

Import PubSubEngine Run.

(** One round of the fan-out loop appends one delivery result, for the
    client of the entry; it reports a missing queue only when the client
    has none. *)
Lemma deliver_result topicName message now queues net rs c0 w0 :
  exists x,
    (deliver topicName message now (queues, net, rs) (c0, w0)).2 = rs ++ [x]
    /\ dr_clientId x = c0
    /\ (is_Some (queues !! c0) -> dr_error x = None /\ is_Some (dr_action x)).
Proof.
  unfold deliver. destruct (queues !! c0) as [q|].
  - destruct (SubscriberQueue.add _ _ _ _) as [[q' net1] qr].
    destruct (SubscriberQueue.success qr).
    + destruct (sendToClient _ _ _) as [net2 sr]. eexists.
      split; [reflexivity|]. simpl. eauto.
    + eexists. split; [reflexivity|]. simpl. eauto.
  - eexists. split; [reflexivity|]. simpl. split; [reflexivity|].
    intros [? ?]. discriminate.
Qed.

Lemma fanout_results topicName message now (l : list (string * nat)) :
  forall queues net rs,
    let r := foldl (deliver topicName message now) (queues, net, rs) l in
    dr_clientId <$> r.2 = (dr_clientId <$> rs) ++ l.*1
    /\ ((forall c, c ∈ l.*1 -> is_Some (queues !! c)) ->
        (forall x, x ∈ rs -> dr_error x = None /\ is_Some (dr_action x)) ->
        forall x, x ∈ r.2 -> dr_error x = None /\ is_Some (dr_action x)).
Proof.
  induction l as [|[c0 w0] l IH]; intros queues net rs; cbn [foldl].
  - simpl. rewrite app_nil_r. auto.
  - destruct (deliver_result topicName message now queues net rs c0 w0)
      as (x0 & Hrs & Hid & Herr).
    destruct (deliver_step topicName message now queues net rs c0 w0)
      as (Hq & _).
    destruct (deliver topicName message now (queues, net, rs) (c0, w0))
      as [[queues1 net1] rs1].
    simpl in Hrs, Hq. subst rs1.
    destruct (IH queues1 net1 (rs ++ [x0])) as [Hids Hok]. split.
    + rewrite Hids, fmap_app, <- app_assoc. simpl. rewrite Hid. reflexivity.
    + intros Hall Hrs. apply Hok.
      * intros c Hc. subst queues1.
        assert (Hsome : is_Some (queues !! c)).
        { apply Hall. rewrite fmap_cons. apply elem_of_cons. auto. }
        destruct (queues !! c0) as [q|]; [|exact Hsome].
        destruct (decide (c = c0)) as [->|Hne].
        -- rewrite lookup_insert_eq. eauto.
        -- rewrite lookup_insert_ne by congruence. exact Hsome.
      * intros x Hx. apply elem_of_app in Hx. destruct Hx as [Hx|Hx];
          [auto|].
        apply list_elem_of_singleton in Hx. subst x. apply Herr.
        apply Hall. rewrite fmap_cons. apply elem_of_cons. auto.
Qed.

Lemma add_result_net q m ws net net' :
  (SubscriberQueue.add q m ws net).2 = (SubscriberQueue.add q m ws net').2.
Proof.
  unfold SubscriberQueue.add. destruct (Nat.leb _ _); [|reflexivity].
  destruct (bool_decide _); reflexivity.
Qed.

(** The result one round of the fan-out loop appends, field by field. *)
Lemma deliver_result_exact topicName message now queues net rs c0 w0 q :
  queues !! c0 = Some q ->
  let r := (SubscriberQueue.add q (Event topicName message now false)
                                w0 net).2 in
  exists x,
    (deliver topicName message now (queues, net, rs) (c0, w0)).2 = rs ++ [x]
    /\ dr_clientId x = c0 /\ dr_error x = None
    /\ dr_action x = Some (SubscriberQueue.action r)
    /\ dr_reason x = SubscriberQueue.reason r
    /\ dr_droppedCount x = Some (SubscriberQueue.res_droppedCount r)
    /\ dr_success x
       = SubscriberQueue.success r
         && Nat.eqb (readyState (net w0)) OPEN.
Proof.
  intros Hq. unfold deliver. rewrite Hq. unfold SubscriberQueue.add.
  destruct (Nat.leb _ _).
  - destruct (bool_decide _); cbn -[Nat.eqb OPEN].
    + eexists. split; [reflexivity|]. cbn. auto 10.
    + unfold sendToClient.
      destruct (Nat.eqb (readyState (net w0)) OPEN); cbn -[OPEN];
        eexists; (split; [reflexivity|]); cbn; auto 10.
  - cbn -[Nat.eqb OPEN]. unfold sendToClient.
    destruct (Nat.eqb (readyState (net w0)) OPEN); cbn -[OPEN];
      eexists; (split; [reflexivity|]); cbn; auto 10.
Qed.

Lemma fanout_results_exact topicName message now queues0 net0
  (l : list (string * nat)) :
  forall queues net rs,
    NoDup l.*1 ->
    (forall c, c ∈ l.*1 -> is_Some (queues0 !! c)) ->
    (forall c, c ∈ l.*1 -> queues !! c = queues0 !! c) ->
    (forall w, readyState (net w) = OPEN -> readyState (net0 w) = OPEN) ->
    let r := foldl (deliver topicName message now) (queues, net, rs) l in
    exists more,
      r.2 = rs ++ more
      /\ Forall2 (reports topicName message now queues0 net0 r.1.2) l more.
Proof.
  induction l as [|[c0 w0] l IH]; intros queues net rs Hnd Hall Hsame Hmono.
  - exists []. cbn [foldl snd]. rewrite app_nil_r.
    split; [reflexivity | constructor].
  - rewrite fmap_cons in Hnd, Hall, Hsame. cbn [fst] in Hnd, Hall, Hsame.
    apply NoDup_cons in Hnd. destruct Hnd as [Hc0 Hnd].
    destruct (Hall c0) as [q Hq0]; [apply elem_of_cons; auto|].
    assert (Hq : queues !! c0 = Some q).
    { rewrite Hsame by (apply elem_of_cons; auto). exact Hq0. }
    destruct (deliver_result_exact topicName message now queues net rs c0 w0
                q Hq)
      as (x0 & Hrs & Hid & Herr & Hact & Hreason & Hdropped & Hsuccess).
    destruct (deliver_step topicName message now queues net rs c0 w0)
      as (Hq1 & _).
    pose proof (fanout_silent topicName message now ((c0, w0) :: l) queues
                  net rs) as Hfinal.
    pose proof (deliver_silent topicName message now queues net rs (c0, w0))
      as Hstep.
    cbn [foldl] in Hfinal |- *.
    unfold Sockets in *.
    destruct (deliver topicName message now (queues, net, rs) (c0, w0))
      as [[queues1 net1] rs1].
    cbn [fst snd] in Hrs, Hq1, Hstep. subst rs1. rewrite Hq in Hq1.
    destruct (IH queues1 net1 (rs ++ [x0])) as (more & Hmore & Hreports).
    + exact Hnd.
    + intros c Hc. apply Hall. apply elem_of_cons. auto.
    + intros c Hc. subst queues1.
      assert (Hne : c <> c0) by (intros ->; contradiction).
      rewrite lookup_insert_ne by congruence.
      apply Hsame. apply elem_of_cons. auto.
    + intros w Hopen. apply Hmono.
      destruct (decide (readyState (net w) = OPEN)) as [Hw|Hw]; [exact Hw|].
      destruct (Hstep w Hw) as [_ Hclosed]. contradiction.
    + exists (x0 :: more). split.
      * transitivity ((rs ++ [x0]) ++ more); [exact Hmore|].
        rewrite <- app_assoc. reflexivity.
      * constructor; [|exact Hreports].
        exists q. cbn [fst snd]. split; [exact Hq0|]. cbn zeta.
        rewrite (add_result_net q _ w0 net0 net).
        split; [exact Hid|]. split; [exact Herr|]. split; [exact Hact|].
        split; [exact Hreason|]. split; [exact Hdropped|]. split.
        -- intros Htrue. rewrite Hsuccess in Htrue.
           apply andb_prop in Htrue. destruct Htrue as [Hok Hopen].
           split; [exact Hok|]. apply Hmono. apply Nat.eqb_eq. exact Hopen.
        -- intros Hok Hopen. rewrite Hsuccess.
           apply andb_true_intro. split; [exact Hok|].
           apply Nat.eqb_eq.
           destruct (decide (readyState (net w0) = OPEN)) as [Hw|Hw];
             [exact Hw|].
           destruct (Hfinal w0 Hw) as [_ Hclosed]. contradiction.
Qed.

(** X10.  A successful [publish] on a reachable registry reports one
    delivery result per subscriber of the topic, each subscriber once, and
    [subscribers] is their number.  The result of a subscriber is what
    [add] answered on its queue: the same action (added, dropped_oldest or
    disconnected), reason and dropped count, and never the error
    SUBSCRIBER_QUEUE_NOT_FOUND.  Its [success] is true only if [add]
    accepted the frame and the subscriber's socket was open before the
    publish, and it is true whenever [add] accepted the frame and the
    socket is still open after the publish. *)
Theorem publish_reports_each_subscriber_once :
  forall e net topicName message now n rs,
    reachable e ->
    (publish topicName message now e net).2 = Published n rs ->
    length rs = n
    /\ NoDup (dr_clientId <$> rs)
    /\ (forall c, c ∈ dr_clientId <$> rs <-> subscribed e topicName c)
    /\ (forall x, x ∈ rs ->
          exists topic w,
            topics e !! topicName = Some topic
            /\ subscribers topic !! dr_clientId x = Some w
            /\ reports topicName (stamp now message) now
                       (subscriberQueues e) net
                       (publish topicName message now e net).1.2
                       (dr_clientId x, w) x).
Proof.
  intros e net topicName message now n rs Hr.
  pose proof (reachable_consistent e Hr) as He.
  unfold publish.
  destruct (topics e !! topicName) as [topic|] eqn:Ht; [|discriminate].
  destruct (negb (truthy (msg_id message))
            || negb (truthy (msg_payload message))); [discriminate|].
  assert (Hqueues : forall c, c ∈ (map_to_list (subscribers topic)).*1 ->
                              is_Some (subscriberQueues e !! c)).
  { intros c Hc. apply keys_map_to_list in Hc.
    destruct (sub_tracked e He topicName c) as (mine & Hm & _).
    { exists topic. auto. }
    apply (tracked_queue e He c). eauto. }
  destruct (fanout_results topicName (stamp now message) now
              (map_to_list (subscribers topic)) (subscriberQueues e) net [])
    as [Hids _].
  destruct (fanout_results_exact topicName (stamp now message) now
              (subscriberQueues e) net (map_to_list (subscribers topic))
              (subscriberQueues e) net [] (NoDup_fst_map_to_list _) Hqueues)
    as (more & Hmore & Hreports); [reflexivity | auto |].
  destruct (foldl _ _ _) as [[queues' net'] rs'].
  cbn [fst snd] in Hids, Hmore, Hreports. simpl in Hmore, Hids. subst more.
  cbn [fst snd]. intros [= <- <-].
  assert (Hlen : length rs' = size (subscribers topic)).
  { rewrite <- (length_fmap dr_clientId), Hids, length_fmap.
    apply length_map_to_list. }
  split; [exact Hlen|]. split; [|split].
  - rewrite Hids. apply NoDup_fst_map_to_list.
  - intros c. rewrite Hids, keys_map_to_list. unfold subscribed.
    rewrite Ht. split.
    + intros Hc. eauto.
    + intros (topic0 & [= <-] & Hc). exact Hc.
  - intros x Hx. apply list_elem_of_lookup in Hx. destruct Hx as [i Hi].
    destruct (Forall2_lookup_r _ _ _ i x Hreports Hi)
      as ([c w] & Hentry & Hrep).
    pose proof Hrep as (q & _ & Hid & _). cbn [fst] in Hid.
    exists topic, w. split; [reflexivity|]. rewrite Hid. split.
    + apply elem_of_map_to_list. eapply list_elem_of_lookup_2. exact Hentry.
    + exact Hrep.
Qed.

Lemma publish_reports_each_subscriber_once_witness :
  let s := alice_full "drop_oldest" in
  let r := publish "A" m2 2 s.1 s.2 in
  let x := mkDelivery "alice" true (Some "dropped_oldest") None None
                      (Some 1) in
  (reachable s.1 /\ r.2 = Published 1 [x])
  /\ exists w q,
       subscribers (topic_of s.1 "A") !! "alice" = Some w
       /\ subscriberQueues s.1 !! "alice" = Some q
       /\ let answer := (SubscriberQueue.add q (Event "A" (stamp 2 m2) 2 false)
                                             w s.2).2 in
          SubscriberQueue.action answer = "dropped_oldest"
          /\ SubscriberQueue.reason answer = None
          /\ SubscriberQueue.res_droppedCount answer = 1
          /\ SubscriberQueue.success answer = true
          /\ readyState (s.2 w) = OPEN.
Proof.
  intros s r x.
  assert (Hr : reachable s.1) by apply alice_full_reachable.
  assert (Hpub : r.2 = Published 1 [x]) by reflexivity.
  split; [split; [exact Hr | exact Hpub]|].
  destruct (publish_reports_each_subscriber_once s.1 s.2 "A" m2 2 1 [x] Hr
              Hpub) as (_ & _ & _ & Hall).
  destruct (Hall x) as (topic & w & Ht & Hw & q & Hq & Hrep).
  { apply list_elem_of_singleton. reflexivity. }
  cbn zeta in Hrep. cbn [fst snd dr_clientId] in Hw, Hq, Hrep.
  destruct Hrep as (_ & _ & Hact & Hreason & Hdropped & Hsuccess & _).
  exists w, q.
  assert (Htopic : topic_of s.1 "A" = topic).
  { unfold topic_of. rewrite Ht. reflexivity. }
  rewrite Htopic. split; [exact Hw|]. split; [exact Hq|]. cbn zeta.
  destruct (Hsuccess eq_refl) as [Hok Hopen].
  cbn [x dr_action dr_reason dr_droppedCount] in Hact, Hreason, Hdropped.
  injection Hact as Hact. injection Hdropped as Hdropped.
  split; [symmetry; exact Hact|]. split; [symmetry; exact Hreason|].
  split; [symmetry; exact Hdropped|]. split; [exact Hok | exact Hopen].
Defined.

(** X11.  What [publish] does to the registry, and the subscriber count it
    reports, do not depend on the sockets: a subscriber whose socket is
    closed still has the event put on its queue and is still counted. *)
Theorem publish_registry_ignores_sockets :
  forall e topicName message now net net',
    (publish topicName message now e net).1.1
    = (publish topicName message now e net').1.1
    /\ (forall n rs,
          (publish topicName message now e net).2 = Published n rs ->
          exists rs',
            (publish topicName message now e net').2 = Published n rs'
            /\ length rs' = length rs)
    /\ (forall error,
          (publish topicName message now e net).2 = PublishError error ->
          (publish topicName message now e net').2 = PublishError error).
Proof.
  intros e topicName message now net net'.
  destruct (topics e !! topicName) as [topic|] eqn:Ht.
  2:{ rewrite !publish_topic_not_found by exact Ht. simpl.
      split; [reflexivity|]. split; [discriminate | auto]. }
  assert (Hbad : truthy (msg_id message) = false
                 \/ truthy (msg_payload message) = false
                 \/ (truthy (msg_id message) = true
                     /\ truthy (msg_payload message) = true)).
  { destruct (truthy (msg_id message)), (truthy (msg_payload message)); auto. }
  destruct Hbad as [Hbad|[Hbad|[Hid Hpl]]].
  1,2: rewrite !publish_invalid_message by eauto; simpl;
       (split; [reflexivity|]); (split; [discriminate | auto]).
  destruct (publish_spec topicName message now e net topic Ht Hid Hpl)
    as (q1 & n1 & rs1 & -> & Hq1 & _ & Hl1).
  destruct (publish_spec topicName message now e net' topic Ht Hid Hpl)
    as (q2 & n2 & rs2 & -> & Hq2 & _ & Hl2).
  simpl.
  assert (Heq : q1 = q2).
  { apply map_eq. intros c. rewrite Hq1, Hq2. reflexivity. }
  subst q2. split; [reflexivity|]. split; [|discriminate].
  intros n rs [= <- <-]. exists rs2. split; [reflexivity|]. lia.
Qed.

(** The socket table after one round of the fan-out loop on a queue whose
    policy is not disconnect. *)
Lemma deliver_sends topicName message now queues net rs c0 w0 q :
  queues !! c0 = Some q -> SubscriberQueue.policy q <> "disconnect" ->
  (deliver topicName message now (queues, net, rs) (c0, w0)).1.2
  = (sendToClient w0 (Event topicName message now false) net).1.
Proof.
  intros Hq Hp. rewrite deliver_net, Hq. cbn zeta.
  rewrite add_no_disconnect by exact Hp.
  destruct (Nat.leb _ _); reflexivity.
Qed.

Lemma times_cons w w0 l :
  times w (w0 :: l) = (if decide (w0 = w) then 1 else 0) + times w l.
Proof.
  unfold times. rewrite filter_cons. destruct (decide (w0 = w)); reflexivity.
Qed.

Lemma fanout_sends topicName message now (l : list (string * nat)) :
  forall queues net rs,
    (forall c, c ∈ l.*1 ->
       exists q, queues !! c = Some q
                 /\ SubscriberQueue.policy q <> "disconnect") ->
    let net' := (foldl (deliver topicName message now) (queues, net, rs) l).1.2
    in
    forall w,
      readyState (net' w) = readyState (net w)
      /\ closeCalls (net' w) = closeCalls (net w)
      /\ sent (net' w)
         = sent (net w)
           ++ (if bool_decide (readyState (net w) = OPEN)
               then replicate (times w l.*2)
                              (Event topicName message now false)
               else []).
Proof.
  induction l as [|[c0 w0] l IH]; intros queues net rs Hall; cbn [foldl].
  - intros w. simpl. destruct (bool_decide _); rewrite app_nil_r; auto.
  - destruct (Hall c0) as (q & Hq & Hp).
    { rewrite fmap_cons. apply elem_of_cons. auto. }
    pose proof (deliver_sends topicName message now queues net rs c0 w0 q
                  Hq Hp) as Hnet.
    destruct (deliver_step topicName message now queues net rs c0 w0)
      as (Hq1 & _).
    destruct (deliver topicName message now (queues, net, rs) (c0, w0))
      as [[queues1 net1] rs1].
    simpl in Hnet, Hq1. rewrite Hq in Hq1. subst queues1 net1.
    intros w.
    edestruct (IH (<[c0 := enqueue q (Event topicName message now false)]>
                     queues)
                  (sendToClient w0 (Event topicName message now false) net).1
                  rs1) as (Hst & Hcc & Hsent).
    { intros c Hc. destruct (decide (c = c0)) as [->|Hne].
      - rewrite lookup_insert_eq. eexists. split; [reflexivity|].
        destruct (enqueue_config q (Event topicName message now false))
          as (_ & -> & _).
        exact Hp.
      - rewrite lookup_insert_ne by congruence. apply Hall.
        rewrite fmap_cons. apply elem_of_cons. auto. }
    rewrite Hst, Hcc, Hsent. clear Hst Hcc Hsent.
    rewrite fmap_cons, times_cons. cbn [snd].
    unfold sendToClient.
    destruct (Nat.eqb_spec (readyState (net w0)) OPEN) as [Hopen|Hclosed];
      cbn [negb fst].
    + unfold ws_send, set_socket.
      destruct (Nat.eqb_spec w w0) as [->|Hne].
      * cbn [readyState sent closeCalls].
        rewrite decide_True by reflexivity.
        rewrite bool_decide_eq_true_2 by exact Hopen.
        split; [reflexivity|]. split; [reflexivity|].
        rewrite <- app_assoc. reflexivity.
      * rewrite decide_False by congruence. auto.
    + split; [reflexivity|]. split; [reflexivity|].
      destruct (decide (w0 = w)) as [->|Hne]; [|reflexivity].
      rewrite bool_decide_eq_false_2 by exact Hclosed. reflexivity.
Qed.

(** X12.  Under a policy other than disconnect a valid [publish] on a
    reachable registry writes the event to every open socket once for each
    subscriber of the topic that is registered with it, writes nothing to a
    socket that is not open, and closes no socket. *)
Theorem publish_writes_once_per_subscriber :
  forall e net topicName topic message now,
    reachable e -> backpressurePolicy e <> "disconnect" ->
    topics e !! topicName = Some topic ->
    truthy (msg_id message) = true -> truthy (msg_payload message) = true ->
    let net' := (publish topicName message now e net).1.2 in
    forall w,
      readyState (net' w) = readyState (net w)
      /\ closeCalls (net' w) = closeCalls (net w)
      /\ sent (net' w)
         = sent (net w)
           ++ (if bool_decide (readyState (net w) = OPEN)
               then replicate (times w (subscriber_sockets topic))
                              (Event topicName (stamp now message) now false)
               else []).
Proof.
  intros e net topicName topic message now Hr Hp Ht Hid Hpl net'.
  pose proof (reachable_consistent e Hr) as He.
  unfold net'. rewrite (publish_net topicName message now e net topic Ht Hid Hpl).
  apply fanout_sends. intros c Hc. apply keys_map_to_list in Hc.
  destruct (sub_tracked e He topicName c) as (mine & Hm & _).
  { exists topic. auto. }
  destruct (tracked_queue e He c) as [q Hq]; [eauto|].
  exists q. split; [exact Hq|].
  destruct (queue_config e He c q Hq) as (_ & -> & _). exact Hp.
Qed.

Lemma publish_writes_once_per_subscriber_witness :
  let s := alice_full "drop_oldest" in
  let net' := (publish "A" m2 2 s.1 s.2).1.2 in
  (reachable s.1 /\ backpressurePolicy s.1 <> "disconnect"
   /\ topics s.1 !! "A" = Some (topic_of s.1 "A")
   /\ truthy (msg_id m2) = true /\ truthy (msg_payload m2) = true)
  /\ sent (net' 1) = sent (s.2 1) ++ [Event "A" (stamp 2 m2) 2 false]
  /\ closeCalls (net' 1) = [].
Proof.
  intros s net'.
  assert (Hr : reachable s.1) by apply alice_full_reachable.
  assert (Hp : backpressurePolicy s.1 <> "disconnect")
    by (vm_compute; discriminate).
  split; [split; [exact Hr|]; split; [exact Hp|]; repeat split|].
  destruct (publish_writes_once_per_subscriber s.1 s.2 "A"
              (topic_of s.1 "A") m2 2 Hr Hp eq_refl eq_refl eq_refl 1)
    as (_ & Hcc & Hsent).
  split; [exact Hsent | exact Hcc].
Defined.

End Publishing.

(** ** Replay after a publish, and subscriptions without replay *)

Section ReplayAfterPublish.

Import PubSubEngine Run.

Lemma disconnect_each_capacity (l : list (string * gset string)) : forall e,
  maxMessagesPerTopic
    (foldl (fun e' (entry : string * gset string) =>
              (disconnectClient entry.1 e').1) e l)
  = maxMessagesPerTopic e.
Proof.
  induction l as [|x l IH]; intros e; cbn [foldl]; [reflexivity|].
  rewrite IH. apply disconnectClient_config.
Qed.

Lemma step_capacity e net c :
  maxMessagesPerTopic (step (e, net) c).1 = maxMessagesPerTopic e.
Proof.
  destruct c as [t now | t | t c0 ws lastN now | t c0 | t m now | c0 | ];
    simpl.
  - unfold createTopic. destruct (topics e !! t); reflexivity.
  - unfold deleteTopic. destruct (topics e !! t); reflexivity.
  - unfold subscribe. destruct (topics e !! t) as [topic|]; [|reflexivity].
    destruct (subscribers topic !! c0); reflexivity.
  - apply unsubscribe_config.
  - unfold publish. destruct (topics e !! t) as [topic|]; [|reflexivity].
    destruct (negb _ || negb _); [reflexivity|].
    destruct (foldl _ _ _) as [[queues net'] rs]. reflexivity.
  - apply disconnectClient_config.
  - unfold shutdown. simpl. apply disconnect_each_capacity.
Qed.

(** The constructor's [options.maxMessagesPerTopic || 100] is at least 1,
    and no call changes it. *)
Lemma reachable_capacity e : reachable e -> 1 <= maxMessagesPerTopic e.
Proof.
  induction 1 as [o | e net c Hr IH].
  - unfold new, num_or. simpl.
    destruct (opt_maxMessagesPerTopic o) as [[|n]|]; lia.
  - rewrite step_capacity. exact IH.
Qed.

Lemma ring_push_snoc capacity buffer message :
  1 <= capacity ->
  exists older, ring_push capacity buffer message = older ++ [message].
Proof.
  intros Hc. unfold ring_push.
  destruct (Nat.ltb_spec capacity (length (buffer ++ [message])))
    as [Hfull|Hroom].
  - rewrite length_app in Hfull. simpl in Hfull.
    destruct buffer as [|b buffer]; [simpl in Hfull; lia|].
    exists buffer. reflexivity.
  - exists buffer. reflexivity.
Qed.

Lemma slice_last_snoc_pos {A} (n : nat) (l : list A) (x : A) :
  1 <= n -> slice_last n (l ++ [x]) = slice_last (n - 1) l ++ [x].
Proof.
  intros Hn. unfold slice_last. rewrite length_app. simpl.
  replace (length l + 1 - n) with (length l - (n - 1)) by lia.
  apply drop_app_le. lia.
Qed.

Lemma slice_from_negate_snoc {A} (lastN : Number) (l : list A) (x : A) :
  greater_than_zero lastN = true ->
  exists first,
    slice_from (negate lastN) (l ++ [x]) = first ++ [x]
    /\ (lastN = of_Z 1 -> first = []).
Proof.
  intros Hpos. destruct lastN as [q|[|]|]; try discriminate.
  - simpl in Hpos. apply Z.ltb_lt in Hpos.
    assert (Ht : (0 <= truncate q)%Z).
    { unfold truncate. apply Z.quot_pos; lia. }
    destruct (decide (truncate q = 0%Z)) as [Hz|Hnz].
    + exists l. split; [apply slice_from_negate_fraction; exact Hz|].
      intros [= ->]. rewrite truncate_of_Z in Hz. discriminate.
    + exists (slice_last (Z.to_nat (truncate q) - 1) l). split.
      * rewrite slice_from_negate_count by lia.
        apply slice_last_snoc_pos. lia.
      * intros [= ->]. rewrite truncate_of_Z. unfold slice_last. simpl.
        rewrite Nat.sub_0_r. apply drop_all.
  - exists l. split; [reflexivity | discriminate].
Qed.

(** X13.  Publish, then subscribe: a client that subscribes with a
    [last_n] greater than zero on an open socket right after a valid
    publish to the topic gets that message as the last replayed frame, and
    it is the only frame when [last_n] is 1. *)
Theorem latest_message_is_replayed :
  forall e net topicName topic message now clientId ws (lastN : Number) now',
    reachable e -> topics e !! topicName = Some topic ->
    truthy (msg_id message) = true -> truthy (msg_payload message) = true ->
    subscribers topic !! clientId = None ->
    greater_than_zero lastN = true ->
    let p := publish topicName message now e net in
    readyState (p.1.2 ws) = OPEN ->
    let r := subscribe topicName clientId ws lastN now' p.1.1 p.1.2 in
    r.2 = Subscribed
    /\ exists earlier,
         sent (r.1.2 ws)
         = sent (p.1.2 ws) ++ earlier
           ++ [Event topicName (stamp now message) now' true]
         /\ (lastN = of_Z 1 -> earlier = []).
Proof.
  intros e net topicName topic message now clientId ws lastN now'
         Hr Ht Hid Hpl Hc Hpos p.
  pose proof (reachable_capacity e Hr) as Hcap.
  destruct (publish_spec topicName message now e net topic Ht Hid Hpl)
    as (queues' & net' & rs & Hpub & _).
  subst p. rewrite Hpub. cbn [fst snd]. intros Hopen. cbn zeta.
  unfold subscribe. cbn [topics]. rewrite lookup_insert_eq.
  cbn [subscribers messages]. rewrite Hc. cbn [fst snd].
  split; [reflexivity|].
  destruct (ring_push_snoc (maxMessagesPerTopic e) (messages topic)
              (stamp now message) Hcap) as [older Hbuf].
  rewrite Hbuf.
  rewrite Hpos. rewrite length_app. simpl.
  replace (length older + 1) with (S (length older)) by lia. simpl.
  rewrite replay_send_all, send_all_open by exact Hopen. simpl.
  destruct (slice_from_negate_snoc lastN older (stamp now message) Hpos)
    as (first & Hslice & Hone).
  rewrite Hslice, map_app. simpl.
  eexists. split; [reflexivity|].
  intros Heq. rewrite (Hone Heq). reflexivity.
Qed.

Lemma latest_message_is_replayed_witness :
  let s := alice_full "drop_oldest" in
  let p := publish "A" m2 2 s.1 s.2 in
  let r := subscribe "A" "bob" 2 1 3 p.1.1 p.1.2 in
  (reachable s.1 /\ topics s.1 !! "A" = Some (topic_of s.1 "A")
   /\ subscribers (topic_of s.1 "A") !! "bob" = None
   /\ readyState (p.1.2 2) = OPEN)
  /\ sent (r.1.2 2) = [Event "A" (stamp 2 m2) 3 true].
Proof.
  intros s p r.
  assert (Hr : reachable s.1) by apply alice_full_reachable.
  split; [split; [exact Hr|]; repeat split|].
  destruct (latest_message_is_replayed s.1 s.2 "A" (topic_of s.1 "A") m2 2
              "bob" 2 1%Z 3 Hr eq_refl eq_refl eq_refl eq_refl eq_refl eq_refl)
    as (_ & earlier & Hsent & Hone).
  rewrite (Hone eq_refl) in Hsent. exact Hsent.
Defined.

(** X14.  No replay: with a [last_n] that is not greater than zero (zero,
    negative, or no number), with an empty ring buffer, or on a socket that
    is not open, a successful [subscribe] writes nothing and leaves every
    socket as it was; the subscription is recorded all the same. *)
Theorem subscribe_without_replay :
  forall e net topicName topic clientId ws (lastN : Number) now,
    topics e !! topicName = Some topic ->
    subscribers topic !! clientId = None ->
    greater_than_zero lastN = false \/ messages topic = []
    \/ readyState (net ws) <> OPEN ->
    let r := subscribe topicName clientId ws lastN now e net in
    r.2 = Subscribed /\ r.1.2 = net /\ subscribed r.1.1 topicName clientId.
Proof.
  intros e net topicName topic clientId ws lastN now Ht Hc Hcase r.
  subst r. unfold subscribe. rewrite Ht, Hc. cbn [fst snd].
  split; [reflexivity|]. split.
  - destruct Hcase as [Hneg|[Hempty|Hclosed]].
    + rewrite Hneg. reflexivity.
    + rewrite Hempty. simpl. rewrite andb_false_r. reflexivity.
    + destruct (greater_than_zero lastN
                && Nat.ltb 0 (length (messages topic)));
        [|reflexivity].
      rewrite replay_send_all. apply send_all_not_open. exact Hclosed.
  - eexists. split; [simpl; apply lookup_insert_eq|].
    simpl. rewrite lookup_insert_eq. eauto.
Qed.

Lemma subscribe_without_replay_witness :
  let s := alice_full "drop_oldest" in
  let r := subscribe "A" "bob" 2 0 3 s.1 s.2 in
  (topics s.1 !! "A" = Some (topic_of s.1 "A")
   /\ subscribers (topic_of s.1 "A") !! "bob" = None
   /\ greater_than_zero 0 = false)
  /\ r.1.2 = s.2.
Proof.
  intros s r. split; [repeat split|].
  destruct (subscribe_without_replay s.1 s.2 "A" (topic_of s.1 "A") "bob" 2
              0%Z 3 eq_refl eq_refl) as (_ & Hnet & _).
  - left. reflexivity.
  - exact Hnet.
Defined.

End ReplayAfterPublish.

(** ** Snapshots and statistics *)

Section Snapshots.

Import PubSubEngine Run Stats.

Lemma map_fmap {A B} (f : A -> B) (l : list A) : map f l = f <$> l.
Proof. induction l as [|x l IH]; simpl; [reflexivity|]. rewrite IH. reflexivity. Qed.

(** X15.  [getAllTopics] lists every topic of the registry once, and each
    entry is the snapshot [getTopic] returns for that name. *)
Theorem getAllTopics_agrees_with_getTopic :
  forall e,
    length (getAllTopics e) = size (topics e)
    /\ NoDup (info_name <$> getAllTopics e)
    /\ forall info,
         info ∈ getAllTopics e <-> getTopic (info_name info) e = Some info.
Proof.
  intros e. unfold getAllTopics. rewrite map_fmap. split; [|split].
  - rewrite length_fmap. apply length_map_to_list.
  - rewrite <- list_fmap_compose.
    replace (info_name ∘ snapshot) with (@fst string Topic)
      by reflexivity.
    apply NoDup_fst_map_to_list.
  - intros info. rewrite list_elem_of_fmap. unfold getTopic. split.
    + intros ([name topic] & -> & Hin). apply elem_of_map_to_list in Hin.
      simpl. rewrite Hin. reflexivity.
    + destruct (topics e !! info_name info) as [topic|] eqn:Ht;
        [|discriminate].
      intros [= <-]. exists (info_name info, topic). split; [reflexivity|].
      apply elem_of_map_to_list. exact Ht.
Qed.

(** X16.  On a reachable registry [getClient] answers [null] exactly for
    the clients without a subscription; otherwise it lists the topics the
    client is subscribed to, each once, [topicCount] is their number and is
    at least 1, and the queue statistics are present, carry the engine's
    capacity and policy, and a size within the capacity. *)
Theorem getClient_lists_the_subscriptions :
  forall e clientId,
    reachable e ->
    (getClient clientId e = None <->
     forall t, ~ subscribed e t clientId)
    /\ forall view,
         getClient clientId e = Some view ->
         cv_clientId view = clientId
         /\ NoDup (cv_topics view)
         /\ (forall t, t ∈ cv_topics view <-> subscribed e t clientId)
         /\ topicCount view = length (cv_topics view)
         /\ 1 <= topicCount view
         /\ exists qs,
              cv_queue view = Some qs
              /\ qs_clientId qs = clientId
              /\ qs_maxSize qs = maxQueueSize e
              /\ qs_policy qs = backpressurePolicy e
              /\ queueSize qs <= maxQueueSize e.
Proof.
  intros e clientId Hr. pose proof (reachable_consistent e Hr) as He.
  unfold getClient. split.
  - destruct (clientTopics e !! clientId) as [mine|] eqn:Hm.
    + split; [discriminate|]. intros Hnone. exfalso.
      destruct (set_choose_L mine) as [t Ht].
      { exact (tracked_nonempty e He clientId mine Hm). }
      exact (Hnone t (tracked_sub e He clientId mine t Hm Ht)).
    + split; [|reflexivity]. intros _ t Hs.
      destruct (sub_tracked e He t clientId Hs) as (mine & Hm' & _).
      congruence.
  - intros view.
    destruct (clientTopics e !! clientId) as [mine|] eqn:Hm; [|discriminate].
    intros [= <-]. simpl.
    split; [reflexivity|]. split; [apply NoDup_elements|]. split; [|split].
    + intros t. rewrite elem_of_elements. split.
      * intros Ht. exact (tracked_sub e He clientId mine t Hm Ht).
      * intros Hs. destruct (sub_tracked e He t clientId Hs)
          as (mine' & Hm' & Hin). congruence.
    + reflexivity.
    + split.
      * destruct (set_choose_L mine) as [t Ht].
        { exact (tracked_nonempty e He clientId mine Hm). }
        assert (Hsub : {[t]} ⊆ mine) by set_solver.
        apply subseteq_size in Hsub. rewrite size_singleton in Hsub.
        exact Hsub.
      * destruct (tracked_queue e He clientId) as [q Hq]; [eauto|].
        unfold has_queue in Hq. rewrite Hq. simpl. eexists.
        split; [reflexivity|]. simpl.
        destruct (queue_config e He clientId q Hq) as (Hsize & Hpol & Hid).
        destruct (reachable_queues_sound e Hr clientId q Hq) as [Hlen _].
        repeat split; try assumption. lia.
Qed.

Lemma getClient_lists_the_subscriptions_witness :
  let s := alice_full "drop_oldest" in
  reachable s.1
  /\ forall view,
       getClient "alice" s.1 = Some view ->
       1 <= topicCount view /\ (forall t, t ∈ cv_topics view
                                          <-> subscribed s.1 t "alice").
Proof.
  intros s.
  assert (Hr : reachable s.1) by apply alice_full_reachable.
  split; [exact Hr|]. intros view Hview.
  destruct (getClient_lists_the_subscriptions s.1 "alice" Hr) as [_ Hspec].
  destruct (Hspec view Hview) as (_ & _ & Hin & _ & Hcount & _).
  split; [exact Hcount | exact Hin].
Defined.















End Snapshots.


(** ** Replies of the handler *)

Section Replies.

Import WebSocketHandler.

Lemma responses_snoc_event fs t m ts b :
  Connections.responses (fs ++ [Event t m ts b]) = Connections.responses fs.
Proof.
  unfold Connections.responses. rewrite filter_app.
  rewrite filter_cons_False by (simpl; auto). rewrite filter_nil.
  apply app_nil_r.
Qed.

Lemma responses_snoc_reply fs f :
  Connections.is_response f = true ->
  Connections.responses (fs ++ [f]) = Connections.responses fs ++ [f].
Proof.
  intros Hf. unfold Connections.responses. rewrite filter_app.
  rewrite filter_cons_True by (rewrite Hf; exact I). reflexivity.
Qed.

Lemma same_responses_refl net : same_responses net net.
Proof. intros w. reflexivity. Qed.

Lemma same_responses_trans net1 net2 net3 :
  same_responses net1 net2 -> same_responses net2 net3 ->
  same_responses net1 net3.
Proof. intros H12 H23 w. rewrite H23. apply H12. Qed.

Lemma ws_close_same ws code why net :
  same_responses net (ws_close ws code why net).
Proof. intros w. rewrite ws_close_sent. reflexivity. Qed.

Lemma engine_send_same ws t m ts b net :
  same_responses net (PubSubEngine.sendToClient ws (Event t m ts b) net).1.
Proof.
  intros w. unfold PubSubEngine.sendToClient.
  destruct (negb _); simpl; [reflexivity|].
  unfold ws_send, set_socket. destruct (Nat.eqb_spec w ws) as [->|Hne];
    [|reflexivity].
  simpl. apply responses_snoc_event.
Qed.

Lemma replay_same t ws now ms : forall net,
  same_responses net (PubSubEngine.replay t ws now ms net).
Proof.
  unfold PubSubEngine.replay.
  induction ms as [|m ms IH]; intros net; cbn [foldl];
    [apply same_responses_refl|].
  eapply same_responses_trans; [apply engine_send_same | apply IH].
Qed.

Lemma add_same q m ws net :
  same_responses net (SubscriberQueue.add q m ws net).1.2.
Proof.
  unfold SubscriberQueue.add. destruct (Nat.leb _ _);
    [|apply same_responses_refl].
  destruct (bool_decide _); simpl;
    [apply ws_close_same | apply same_responses_refl].
Qed.

Lemma deliver_same t m now queues net rs c0 w0 :
  same_responses net
    (PubSubEngine.deliver t m now (queues, net, rs) (c0, w0)).1.2.
Proof.
  rewrite deliver_net. destruct (queues !! c0) as [q|];
    [|apply same_responses_refl].
  cbn zeta. destruct (SubscriberQueue.success _).
  - eapply same_responses_trans; [apply add_same | apply engine_send_same].
  - apply add_same.
Qed.

Lemma fanout_same t m now (l : list (string * nat)) : forall queues net rs,
  same_responses net
    (foldl (PubSubEngine.deliver t m now) (queues, net, rs) l).1.2.
Proof.
  induction l as [|[c0 w0] l IH]; intros queues net rs; cbn [foldl];
    [apply same_responses_refl|].
  pose proof (deliver_same t m now queues net rs c0 w0) as Hstep.
  destruct (PubSubEngine.deliver t m now (queues, net, rs) (c0, w0))
    as [[queues1 net1] rs1].
  eapply same_responses_trans; [exact Hstep | apply IH].
Qed.

(** The engine writes event frames only. *)
Lemma publish_same t m now e net :
  same_responses net (PubSubEngine.publish t m now e net).1.2.
Proof.
  unfold PubSubEngine.publish.
  destruct (PubSubEngine.topics e !! t) as [topic|];
    [|apply same_responses_refl].
  destruct (negb _ || negb _); [apply same_responses_refl|].
  pose proof (fanout_same t (PubSubEngine.stamp now m) now
                (map_to_list (PubSubEngine.subscribers topic))
                (PubSubEngine.subscriberQueues e) net []) as Hfan.
  destruct (foldl _ _ _) as [[queues net'] rs]. exact Hfan.
Qed.

Lemma subscribe_same t c ws lastN now e net :
  same_responses net (PubSubEngine.subscribe t c ws lastN now e net).1.2.
Proof.
  unfold PubSubEngine.subscribe.
  destruct (PubSubEngine.topics e !! t) as [topic|];
    [|apply same_responses_refl].
  destruct (PubSubEngine.subscribers topic !! c);
    [apply same_responses_refl|].
  simpl. destruct (_ && _); [apply replay_same | apply same_responses_refl].
Qed.

Lemma handler_send_ready ws f net w :
  readyState (sendToClient ws f net w) = readyState (net w).
Proof.
  unfold sendToClient. destruct (Nat.eqb _ _); [|reflexivity].
  unfold ws_send, set_socket. destruct (Nat.eqb_spec w ws) as [->|];
    reflexivity.
Qed.

Lemma sendError_ready cid code text now h net w :
  readyState (sendError cid code text now h net w) = readyState (net w).
Proof.
  unfold sendError. destruct (clients h !! cid); [|reflexivity].
  destruct (negb _); [reflexivity | apply handler_send_ready].
Qed.

Lemma send_reply net net1 w f :
  Connections.is_response f = true -> same_responses net net1 ->
  readyState (sendToClient w f net1 w) = OPEN ->
  one_reply net (sendToClient w f net1) w f.
Proof.
  intros Hf Hsame Hopen. rewrite handler_send_ready in Hopen.
  split; [exact Hf|]. intros w'. unfold sendToClient.
  rewrite Hopen. simpl. unfold ws_send, set_socket.
  destruct (Nat.eqb_spec w' w) as [->|Hne].
  - simpl. rewrite bool_decide_eq_true_2 by reflexivity.
    rewrite responses_snoc_reply by exact Hf. rewrite Hsame. reflexivity.
  - rewrite bool_decide_eq_false_2 by exact Hne. rewrite app_nil_r.
    apply Hsame.
Qed.

Lemma sendError_reply cid code text now h net net1 client :
  clients h !! cid = Some client -> same_responses net net1 ->
  readyState (sendError cid code text now h net1 (ws client)) = OPEN ->
  exists reply,
    one_reply net (sendError cid code text now h net1) (ws client) reply.
Proof.
  intros Hc Hsame Hopen. pose proof Hopen as Hopen1.
  rewrite sendError_ready in Hopen1.
  revert Hopen. unfold sendError. rewrite Hc, Hopen1. simpl.
  intros Hopen. exists (Error code text now).
  apply send_reply; [reflexivity | exact Hsame | exact Hopen].
Qed.

Lemma handleSubscribe_reply cid topic lastN rid now h net client :
  clients h !! cid = Some client ->
  let r := handleSubscribe cid topic lastN rid now h net in
  readyState (r.2 (ws client)) = OPEN ->
  exists reply, one_reply net r.2 (ws client) reply.
Proof.
  intros Hc. unfold handleSubscribe.
  destruct (negb (present topic)); cbn zeta.
  { apply sendError_reply; [exact Hc | apply same_responses_refl]. }
  rewrite Hc.
  pose proof (subscribe_same (default "" topic) (pubsubClientId client cid)
                (ws client) (default (of_Z 0) lastN) now (pubsubEngine h) net)
    as Hsame.
  destruct (PubSubEngine.subscribe _ _ _ _ _ _ _) as [[e' net1] result].
  simpl in Hsame. destruct result as [|error]; cbn [snd].
  - intros Hopen. eexists. apply send_reply; [reflexivity | exact Hsame |].
    exact Hopen.
  - apply sendError_reply; [exact Hc | exact Hsame].
Qed.

Lemma handleUnsubscribe_reply cid topic rid now h net client :
  clients h !! cid = Some client ->
  let r := handleUnsubscribe cid topic rid now h net in
  readyState (r.2 (ws client)) = OPEN ->
  exists reply, one_reply net r.2 (ws client) reply.
Proof.
  intros Hc. unfold handleUnsubscribe.
  destruct (negb (present topic)); cbn zeta.
  { apply sendError_reply; [exact Hc | apply same_responses_refl]. }
  rewrite Hc.
  destruct (PubSubEngine.unsubscribe _ _ _) as [e' result].
  destruct result; cbn [snd].
  - intros Hopen. eexists.
    apply send_reply; [reflexivity | apply same_responses_refl | exact Hopen].
  - apply sendError_reply; [exact Hc | apply same_responses_refl].
Qed.

Lemma handlePublish_reply cid topic message rid now h net client :
  clients h !! cid = Some client ->
  let r := handlePublish cid topic message rid now h net in
  readyState (r.2 (ws client)) = OPEN ->
  exists reply, one_reply net r.2 (ws client) reply.
Proof.
  intros Hc. unfold handlePublish.
  destruct (negb (present topic)); cbn zeta.
  { apply sendError_reply; [exact Hc | apply same_responses_refl]. }
  destruct message as [message|].
  2:{ apply sendError_reply; [exact Hc | apply same_responses_refl]. }
  destruct (negb _ || negb _).
  { apply sendError_reply; [exact Hc | apply same_responses_refl]. }
  pose proof (publish_same (default "" topic) message now (pubsubEngine h)
                net) as Hsame.
  destruct (PubSubEngine.publish _ _ _ _ _) as [[e' net1] result].
  simpl in Hsame. destruct result as [n rs|error].
  - cbn [with_engine clients]. rewrite Hc. cbn [snd]. intros Hopen.
    eexists. apply send_reply; [reflexivity | exact Hsame | exact Hopen].
  - cbn [snd]. apply sendError_reply; [exact Hc | exact Hsame].
Qed.

Lemma handlePing_reply cid rid now h net client :
  clients h !! cid = Some client ->
  let r := handlePing cid rid now h net in
  readyState (r.2 (ws client)) = OPEN ->
  exists reply, one_reply net r.2 (ws client) reply.
Proof.
  intros Hc. unfold handlePing. rewrite Hc. cbn [snd]. intros Hopen.
  eexists.
  apply send_reply; [reflexivity | apply same_responses_refl | exact Hopen].
Qed.

(** X18.  Every message on a connection with a record gets exactly one
    reply: when the connection's socket is still open afterwards, one
    frame that is not an event (an ack, a pong or an error) was written to
    it, and no such frame was written to any other socket. *)
Theorem every_request_gets_one_reply :
  forall h net connectionId client data now,
    clients h !! connectionId = Some client ->
    let r := handleMessage connectionId data now h net in
    readyState (r.2 (ws client)) = OPEN ->
    exists reply, one_reply net r.2 (ws client) reply.
Proof.
  intros h net connectionId client data now Hc. unfold handleMessage.
  destruct data as [| |m]; cbn zeta.
  1,2: apply sendError_reply; [exact Hc | apply same_responses_refl].
  destruct (negb (validateMessage m)).
  { apply sendError_reply; [exact Hc | apply same_responses_refl]. }
  destruct (_ && _).
  { apply sendError_reply; [exact Hc | apply same_responses_refl]. }
  destruct (bind_identity_lookup connectionId (client_id m) h client Hc)
    as [Hc1 _].
  set (h1 := bind_identity connectionId (client_id m) h) in *.
  set (client1 := mkClient (ws client) (topics client) (connectedAt client)
                    (lastPing client) (WebSocketHandler.connectionId client)
                    (if present (client_id m) then client_id m
                     else clientProvidedId client)) in *.
  change (ws client) with (ws client1).
  destruct (String.eqb (type m) "subscribe");
    [apply handleSubscribe_reply; exact Hc1|].
  destruct (String.eqb (type m) "unsubscribe");
    [apply handleUnsubscribe_reply; exact Hc1|].
  destruct (String.eqb (type m) "publish");
    [apply handlePublish_reply; exact Hc1|].
  destruct (String.eqb (type m) "ping");
    [apply handlePing_reply; exact Hc1|].
  apply sendError_reply; [exact Hc1 | apply same_responses_refl].
Qed.

Lemma every_request_gets_one_reply_witness :
  let s := Wire.run two_identities (two_topics "drop_oldest", quiet) in
  let client := client_of s.1 "conn1" in
  let r := handleMessage "conn1" (Wire.publish_msg "T1" "a" m1) 3 s.1 s.2 in
  (clients s.1 !! "conn1" = Some client
   /\ readyState (r.2 (ws client)) = OPEN)
  /\ exists reply, one_reply s.2 r.2 (ws client) reply.
Proof.
  intros s client r.
  assert (H1 : clients s.1 !! "conn1" = Some client)
    by (vm_compute; reflexivity).
  assert (H2 : readyState (r.2 (ws client)) = OPEN)
    by (vm_compute; reflexivity).
  split; [split; [exact H1 | exact H2]|].
  exact (every_request_gets_one_reply s.1 s.2 "conn1" client
           (Wire.publish_msg "T1" "a" m1) 3 H1 H2).
Defined.

(** X19.  A message on a connection without a record is never answered:
    no frame other than events is written to any socket and the records
    stay as they were.  Unless it is a publish, nothing changes at all; a
    publish still reaches the engine. *)
Theorem unknown_connection_gets_no_reply :
  forall h net connectionId data now,
    clients h !! connectionId = None ->
    let r := handleMessage connectionId data now h net in
    clients r.1 = clients h
    /\ same_responses net r.2
    /\ ((forall m, data = Parsed m -> type m <> "publish") ->
        r = (h, net))
    /\ (forall t msg cid lastN requestId,
          data = Parsed (mkProtocol "publish" (Some t) (Some msg) (Some cid)
                                    lastN requestId) ->
          t <> "" -> cid <> "" ->
          let p := PubSubEngine.publish t msg now (pubsubEngine h) net in
          r = (with_engine h p.1.1, p.1.2)).
Proof.
  intros h net connectionId data now Hc.
  assert (Hpublish :
    forall t msg cid lastN requestId,
      data = Parsed (mkProtocol "publish" (Some t) (Some msg) (Some cid)
                                lastN requestId) ->
      t <> "" -> cid <> "" ->
      let p := PubSubEngine.publish t msg now (pubsubEngine h) net in
      handleMessage connectionId data now h net
      = (with_engine h p.1.1, p.1.2)).
  { intros t msg cid lastN requestId -> Ht Hcid. cbn zeta.
    assert (Hkeep : with_engine h (pubsubEngine h) = h)
      by (destruct h; reflexivity).
    assert (Hinv : truthy (msg_id msg) = false
                   \/ truthy (msg_payload msg) = false ->
                   (PubSubEngine.publish t msg now (pubsubEngine h) net).1
                   = (pubsubEngine h, net)).
    { intros Hfalsy.
      destruct (PubSubEngine.topics (pubsubEngine h) !! t) eqn:Htopic.
      - rewrite publish_invalid_message by eauto. reflexivity.
      - rewrite publish_topic_not_found by exact Htopic. reflexivity. }
    unfold handleMessage.
    assert (Hvalid : validateMessage
                       (mkProtocol "publish" (Some t) (Some msg) (Some cid)
                                   lastN requestId) = true).
    { unfold validateMessage. cbn [type topic String.eqb Ascii.eqb].
      rewrite bool_decide_eq_true_2 by (rewrite !elem_of_cons; auto).
      rewrite bool_decide_eq_true_2 by (rewrite !elem_of_cons; auto).
      cbn [negb]. apply present_some. exact Ht. }
    rewrite Hvalid. cbn [negb type client_id topic message request_id].
    rewrite (present_some cid Hcid). cbn [negb]. rewrite andb_false_r.
    unfold bind_identity. rewrite Hc.
    cbn [String.eqb Ascii.eqb Bool.eqb].
    unfold handlePublish. rewrite (present_some t Ht). cbn [negb].
    unfold sendError. rewrite Hc. cbn [from_option]. unfold id.
    destruct (truthy (msg_id msg)) eqn:Hid; cbn [negb orb].
    2:{ rewrite Hinv by auto. cbn [fst snd]. rewrite Hkeep. reflexivity. }
    destruct (truthy (msg_payload msg)) eqn:Hpl; cbn [negb orb].
    2:{ rewrite Hinv by auto. cbn [fst snd]. rewrite Hkeep. reflexivity. }
    destruct (PubSubEngine.publish t msg now (pubsubEngine h) net)
      as [[e' net1] result].
    destruct result; cbn [with_engine clients fst snd]; rewrite Hc;
      reflexivity. }
  cut (clients (handleMessage connectionId data now h net).1 = clients h
       /\ same_responses net (handleMessage connectionId data now h net).2
       /\ ((forall m, data = Parsed m -> type m <> "publish") ->
           handleMessage connectionId data now h net = (h, net))).
  { intros (H1 & H2 & H3). cbn zeta. auto. }
  clear Hpublish.
  assert (Herr : forall code text h0 net0,
             clients h0 = clients h ->
             sendError connectionId code text now h0 net0 = net0).
  { intros code text h0 net0 Hh. unfold sendError. rewrite Hh, Hc.
    reflexivity. }
  unfold handleMessage. destruct data as [| |m]; cbn zeta.
  1,2: rewrite Herr by reflexivity; split; [reflexivity|];
       split; [apply same_responses_refl | reflexivity].
  destruct (negb (validateMessage m)).
  { rewrite Herr by reflexivity. split; [reflexivity|].
    split; [apply same_responses_refl | reflexivity]. }
  destruct (_ && _).
  { rewrite Herr by reflexivity. split; [reflexivity|].
    split; [apply same_responses_refl | reflexivity]. }
  assert (Hbind : bind_identity connectionId (client_id m) h = h).
  { unfold bind_identity. rewrite Hc. reflexivity. }
  rewrite Hbind.
  destruct (String.eqb_spec (type m) "subscribe") as [Hty|_].
  { unfold handleSubscribe. destruct (negb (present (topic m)));
      [|rewrite Hc]; rewrite Herr by reflexivity;
      (split; [reflexivity|]);
      (split; [apply same_responses_refl | reflexivity]). }
  destruct (String.eqb_spec (type m) "unsubscribe") as [Hty|_].
  { unfold handleUnsubscribe. destruct (negb (present (topic m)));
      [|rewrite Hc]; rewrite Herr by reflexivity;
      (split; [reflexivity|]);
      (split; [apply same_responses_refl | reflexivity]). }
  destruct (String.eqb_spec (type m) "publish") as [Hty|_].
  { split; [|split].
    - unfold handlePublish. destruct (negb (present (topic m)));
        [reflexivity|].
      destruct (message m) as [msg|]; [|reflexivity].
      destruct (negb _ || negb _); [reflexivity|].
      destruct (PubSubEngine.publish _ _ _ _ _) as [[e' net1] result].
      destruct result; [|reflexivity].
      cbn [with_engine clients]. rewrite Hc. reflexivity.
    - unfold handlePublish. destruct (negb (present (topic m))).
      { rewrite Herr by reflexivity. apply same_responses_refl. }
      destruct (message m) as [msg|].
      2:{ rewrite Herr by reflexivity. apply same_responses_refl. }
      destruct (negb _ || negb _).
      { rewrite Herr by reflexivity. apply same_responses_refl. }
      pose proof (publish_same (default "" (topic m)) msg now
                    (pubsubEngine h) net) as Hsame.
      destruct (PubSubEngine.publish _ _ _ _ _) as [[e' net1] result].
      simpl in Hsame. destruct result.
      + cbn [with_engine clients]. rewrite Hc. exact Hsame.
      + rewrite Herr by reflexivity. exact Hsame.
    - intros Hnot. exfalso. exact (Hnot m eq_refl Hty). }
  destruct (String.eqb (type m) "ping").
  { unfold handlePing. rewrite Hc. rewrite Herr by reflexivity.
    split; [reflexivity|]. split; [apply same_responses_refl | reflexivity]. }
  rewrite Herr by reflexivity. split; [reflexivity|].
  split; [apply same_responses_refl | reflexivity].
Qed.

Lemma unknown_connection_gets_no_reply_witness :
  let h := two_topics "drop_oldest" in
  clients h !! "ghost" = None
  /\ handleMessage "ghost" (Wire.subscribe_msg "T1" "a") 1 h quiet
     = (h, quiet).
Proof.
  intros h. split; [reflexivity|].
  destruct (unknown_connection_gets_no_reply h quiet "ghost"
              (Wire.subscribe_msg "T1" "a") 1 eq_refl) as (_ & _ & Hsame & _).
  apply Hsame. intros m [= <-]. discriminate.
Defined.

End Replies.

(** ** Connections: counting, broadcast and shutdown of the handler *)

Section ConnectionRecords.

Import WebSocketHandler.

(** X20.  Connect, then close: [handleConnection] under a fresh
    connection id writes the welcome frame to the new socket when it is
    open and touches no other socket, and [handleClose] right after gives
    back the handler as it was, engine included. *)
Theorem connect_then_close_round_trip :
  forall h net connectionId sock now,
    clients h !! connectionId = None ->
    let r := handleConnection connectionId sock now h net in
    handleClose connectionId r.1 = h
    /\ (readyState (net sock) = OPEN ->
        sent (r.2 sock)
        = sent (net sock) ++ [Info "Connected to Pub/Sub system" now])
    /\ (forall w, w <> sock -> r.2 w = net w)
    /\ connectionCounter r.1 = (connectionCounter h + 1)%Z.
Proof.
  intros h net connectionId sock now Hc r. subst r.
  unfold handleConnection. cbn [fst snd]. split; [|split; [|split]].
  - unfold handleClose. cbn [clients]. rewrite lookup_insert_eq.
    cbn [topics pubsubEngine connectionCounter].
    rewrite elements_empty. cbn [unsubscribe_all foldl].
    rewrite delete_insert_eq, (delete_id _ _ Hc).
    replace (connectionCounter h + 1 - 1)%Z with (connectionCounter h)
      by lia.
    destruct h; reflexivity.
  - intros Hopen. unfold sendToClient. rewrite Hopen. simpl.
    unfold ws_send. rewrite set_socket_same. reflexivity.
  - intros w Hw. unfold sendToClient.
    destruct (Nat.eqb _ _); [|reflexivity].
    apply set_socket_other. exact Hw.
  - reflexivity.
Qed.

Lemma connect_then_close_round_trip_witness :
  let h := two_topics "drop_oldest" in
  clients h !! "conn1" = None
  /\ handleClose "conn1" (handleConnection "conn1" 1 0 h quiet).1 = h.
Proof.
  intros h. split; [reflexivity|].
  destruct (connect_then_close_round_trip h quiet "conn1" 1 0 eq_refl)
    as (H & _).
  exact H.
Defined.

(** The handlers of a message keep every record's socket, and add and
    remove no record. *)
Lemma with_client_records h cid client client' c :
  clients h !! cid = Some client -> ws client' = ws client ->
  ws <$> clients (with_client h cid client') !! c = ws <$> clients h !! c.
Proof.
  intros Hc Hws. unfold with_client. cbn [clients].
  destruct (decide (c = cid)) as [->|Hne].
  - rewrite lookup_insert_eq, Hc. simpl. rewrite Hws. reflexivity.
  - rewrite lookup_insert_ne by congruence. reflexivity.
Qed.

Lemma bind_identity_records cid client_id h c :
  ws <$> clients (bind_identity cid client_id h) !! c = ws <$> clients h !! c.
Proof.
  unfold bind_identity. destruct (clients h !! cid) as [client|] eqn:Hc;
    [|reflexivity].
  destruct (present client_id); [|reflexivity].
  apply (with_client_records h cid client); [exact Hc | reflexivity].
Qed.

Lemma handleMessage_records cid data now h net c :
  ws <$> clients (handleMessage cid data now h net).1 !! c
  = ws <$> clients h !! c.
Proof.
  unfold handleMessage. destruct data as [| |m]; [reflexivity..|].
  destruct (negb (validateMessage m)); [reflexivity|].
  destruct (_ && _); [reflexivity|].
  rewrite <- (bind_identity_records cid (client_id m) h c).
  generalize (bind_identity cid (client_id m) h). intros h1.
  destruct (String.eqb (type m) "subscribe").
  { unfold handleSubscribe. destruct (negb (present (topic m)));
      [reflexivity|].
    destruct (clients h1 !! cid) as [client|] eqn:Hc; [|reflexivity].
    destruct (PubSubEngine.subscribe _ _ _ _ _ _ _) as [[e' net1] result].
    destruct result; [|reflexivity]. cbn [fst].
    apply (with_client_records (with_engine h1 e') cid client);
      [exact Hc | reflexivity]. }
  destruct (String.eqb (type m) "unsubscribe").
  { unfold handleUnsubscribe. destruct (negb (present (topic m)));
      [reflexivity|].
    destruct (clients h1 !! cid) as [client|] eqn:Hc; [|reflexivity].
    destruct (PubSubEngine.unsubscribe _ _ _) as [e' result].
    destruct result; [|reflexivity]. cbn [fst].
    apply (with_client_records (with_engine h1 e') cid client);
      [exact Hc | reflexivity]. }
  destruct (String.eqb (type m) "publish").
  { unfold handlePublish. destruct (negb (present (topic m)));
      [reflexivity|].
    destruct (message m) as [msg|]; [|reflexivity].
    destruct (negb _ || negb _); [reflexivity|].
    destruct (PubSubEngine.publish _ _ _ _ _) as [[e' net1] result].
    destruct result; [|reflexivity].
    destruct (clients (with_engine h1 e') !! cid); reflexivity. }
  destruct (String.eqb (type m) "ping"); [|reflexivity].
  unfold handlePing.
  destruct (clients h1 !! cid) as [client|] eqn:Hc; [|reflexivity].
  cbn [fst]. apply (with_client_records h1 cid client);
    [exact Hc | reflexivity].
Qed.

Lemma same_records_dom (m m' : gmap string ClientInfo) :
  (forall c, ws <$> m' !! c = ws <$> m !! c) -> dom m' = dom m.
Proof.
  intros H. apply set_eq. intros c. rewrite !elem_of_dom.
  rewrite <- !(fmap_is_Some ws). rewrite H. reflexivity.
Qed.

Lemma wire_run_counted inputs : forall h net,
  counted h -> fresh_ids (dom (clients h)) inputs = true ->
  counted (Wire.run inputs (h, net)).1.
Proof.
  induction inputs as [|i inputs IH]; intros h net Hcount Hfresh;
    [exact Hcount|].
  unfold Wire.run in *. cbn [foldl].
  destruct i as [cid sock now | cid data now | cid]; cbn [Wire.step].
  - cbn [fresh_ids] in Hfresh. apply andb_prop in Hfresh.
    destruct Hfresh as [Hnew Hfresh].
    apply negb_true_iff, bool_decide_eq_false in Hnew.
    apply not_elem_of_dom in Hnew.
    unfold handleConnection. apply IH.
    + unfold counted in *. cbn [connectionCounter clients].
      rewrite map_size_insert_None by exact Hnew. lia.
    + cbn [clients]. rewrite dom_insert_L. exact Hfresh.
  - cbn [fresh_ids] in Hfresh.
    pose proof (same_records_dom _ _
                  (handleMessage_records cid data now h net)) as Hdom.
    assert (Hcounter : connectionCounter (handleMessage cid data now h net).1
                       = connectionCounter h).
    { unfold handleMessage. destruct data as [| |m]; [reflexivity..|].
      destruct (negb (validateMessage m)); [reflexivity|].
      destruct (_ && _); [reflexivity|].
      assert (Hb : connectionCounter (bind_identity cid (client_id m) h)
                   = connectionCounter h).
      { unfold bind_identity. destruct (clients h !! cid); [|reflexivity].
        destruct (present _); reflexivity. }
      rewrite <- Hb. generalize (bind_identity cid (client_id m) h).
      intros h1.
      destruct (String.eqb (type m) "subscribe").
      { unfold handleSubscribe. destruct (negb _); [reflexivity|].
        destruct (clients h1 !! cid); [|reflexivity].
        destruct (PubSubEngine.subscribe _ _ _ _ _ _ _) as [[e' net1] res].
        destruct res; reflexivity. }
      destruct (String.eqb (type m) "unsubscribe").
      { unfold handleUnsubscribe. destruct (negb _); [reflexivity|].
        destruct (clients h1 !! cid); [|reflexivity].
        destruct (PubSubEngine.unsubscribe _ _ _) as [e' res].
        destruct res; reflexivity. }
      destruct (String.eqb (type m) "publish").
      { unfold handlePublish. destruct (negb _); [reflexivity|].
        destruct (message m); [|reflexivity].
        destruct (negb _ || negb _); [reflexivity|].
        destruct (PubSubEngine.publish _ _ _ _ _) as [[e' net1] res].
        destruct res; [|reflexivity].
        destruct (clients _ !! cid); reflexivity. }
      destruct (String.eqb (type m) "ping"); [|reflexivity].
      unfold handlePing. destruct (clients h1 !! cid); reflexivity. }
    destruct (handleMessage cid data now h net) as [h' net'].
    cbn [fst] in Hdom, Hcounter. apply IH.
    + unfold counted in *. rewrite Hcounter, Hcount.
      rewrite <- !size_dom, Hdom. reflexivity.
    + rewrite Hdom. exact Hfresh.
  - cbn [fresh_ids] in Hfresh. unfold handleClose.
    destruct (clients h !! cid) as [client|] eqn:Hc.
    + apply IH.
      * unfold counted in *. cbn [connectionCounter clients].
        rewrite map_size_delete_Some by eauto.
        assert (Hpos : size (clients h) <> 0).
        { apply map_size_non_empty_iff. intros Hempty.
          rewrite Hempty, lookup_empty in Hc. discriminate. }
        lia.
      * cbn [clients]. rewrite dom_delete_L. exact Hfresh.
    + apply IH; [exact Hcount|].
      assert (Hsame : dom (clients h) ∖ {[cid]} = dom (clients h)).
      { apply not_elem_of_dom in Hc. set_solver. }
      rewrite <- Hsame. exact Hfresh.
Qed.

(** X21.  As long as no connection id is handed out while a connection
    with that id is live, [connectionCounter] is the number of connection
    records after any run of connects, messages and closes from a handler
    without connections: [getStats] reports [connectionCounter] equal to
    [totalClients]. *)
Theorem connection_counter_counts_records :
  forall e net inputs now,
    fresh_ids ∅ inputs = true ->
    let h := (Wire.run inputs (mk e ∅ 0, net)).1 in
    Connections.hs_connectionCounter (Connections.getStats now h)
    = Z.of_nat (Connections.totalClients (Connections.getStats now h))
    /\ Connections.totalClients (Connections.getStats now h)
       = length (Connections.hs_clients (Connections.getStats now h)).
Proof.
  intros e net inputs now Hfresh h. split.
  - apply (wire_run_counted inputs (mk e ∅ 0) net).
    + unfold counted. cbn [connectionCounter clients].
      rewrite map_size_empty. reflexivity.
    + cbn [clients]. rewrite dom_empty_L. exact Hfresh.
  - unfold Connections.getStats. cbn [Connections.totalClients
      Connections.hs_clients].
    rewrite length_map. symmetry. apply length_map_to_list.
Qed.

Lemma connection_counter_counts_records_witness :
  let h := (Wire.run overflow_T1
              (mk (pubsubEngine (two_topics "drop_oldest")) ∅ 0, quiet)).1 in
  fresh_ids ∅ overflow_T1 = true
  /\ Connections.hs_connectionCounter (Connections.getStats 9 h)
     = Z.of_nat (Connections.totalClients (Connections.getStats 9 h)).
Proof.
  intros h.
  assert (Hfresh : fresh_ids ∅ overflow_T1 = true) by (vm_compute; reflexivity).
  split; [exact Hfresh|].
  destruct (connection_counter_counts_records
              (pubsubEngine (two_topics "drop_oldest")) quiet overflow_T1 9
              Hfresh) as [H _].
  exact H.
Defined.

Lemma handler_send_each (f : Frame) (l : list nat) : forall net w,
  let net' := foldl (fun n w0 => sendToClient w0 f n) net l in
  readyState (net' w) = readyState (net w)
  /\ closeCalls (net' w) = closeCalls (net w)
  /\ sent (net' w)
     = sent (net w)
       ++ (if bool_decide (readyState (net w) = OPEN)
           then replicate (times w l) f else []).
Proof.
  induction l as [|w0 l IH]; intros net w; cbn [foldl].
  - simpl. destruct (bool_decide _); rewrite app_nil_r; auto.
  - cbn zeta in IH. destruct (IH (sendToClient w0 f net) w)
      as (Hst & Hcc & Hsent).
    rewrite Hst, Hcc, Hsent. clear Hst Hcc Hsent.
    rewrite times_cons. unfold sendToClient.
    destruct (Nat.eqb_spec (readyState (net w0)) OPEN) as [Hopen|Hclosed].
    + unfold ws_send, set_socket.
      destruct (Nat.eqb_spec w w0) as [->|Hne].
      * cbn [readyState sent closeCalls].
        rewrite decide_True by reflexivity.
        rewrite bool_decide_eq_true_2 by exact Hopen.
        split; [reflexivity|]. split; [reflexivity|].
        rewrite <- app_assoc. reflexivity.
      * rewrite decide_False by congruence. auto.
    + split; [reflexivity|]. split; [reflexivity|].
      destruct (decide (w0 = w)) as [->|Hne]; [|reflexivity].
      rewrite bool_decide_eq_false_2 by exact Hclosed. reflexivity.
Qed.

(** X22.  [broadcast], and with it the server's heartbeat, writes the
    frame once per connection record to the record's socket when that
    socket is open, writes nothing to a socket that is not open or has no
    record, and closes no socket. *)
Theorem broadcast_writes_once_per_connection :
  forall message h net now,
    (forall w,
       let net' := Connections.broadcast message h net in
       readyState (net' w) = readyState (net w)
       /\ closeCalls (net' w) = closeCalls (net w)
       /\ sent (net' w)
          = sent (net w)
            ++ (if bool_decide (readyState (net w) = OPEN)
                then replicate (times w (connection_sockets h)) message
                else []))
    /\ Connections.heartbeat now h net
       = Connections.broadcast (Info "heartbeat" now) h net.
Proof.
  intros message h net now. split; [|reflexivity].
  intros w. unfold Connections.broadcast, connection_sockets.
  rewrite <- list_fmap_compose.
  pose proof (handler_send_each message
                ((ws ∘ snd) <$> map_to_list (clients h)) net w) as H.
  cbn zeta in H. rewrite foldl_fmap in H. exact H.
Qed.

Lemma close_each (code : nat) (why : string) (l : list nat) : forall net,
  let net' := foldl (fun n w0 => ws_close w0 code why n) net l in
  (forall w, w ∉ l -> net' w = net w)
  /\ (forall w, w ∈ l -> closed_with code why (net' w))
  /\ (forall w, sent (net' w) = sent (net w)).
Proof.
  induction l as [|w0 l IH]; intros net; cbn [foldl].
  - split; [reflexivity|]. split; [|reflexivity].
    intros w Hw. apply elem_of_nil in Hw. contradiction.
  - cbn zeta in IH. destruct (IH (ws_close w0 code why net))
      as (Hout & Hin & Hsent).
    split; [|split].
    + intros w Hw. apply not_elem_of_cons in Hw. destruct Hw as [Hne Hw].
      rewrite Hout by exact Hw. apply ws_close_other. exact Hne.
    + intros w Hw. destruct (decide (w ∈ l)) as [Hl|Hl]; [auto|].
      apply elem_of_cons in Hw. destruct Hw as [->|Hw]; [|contradiction].
      rewrite Hout by exact Hl. apply ws_close_closed.
    + intros w. rewrite Hsent. apply ws_close_sent.
Qed.

(** X23.  The handler's [shutdown] calls [close(1000, Server shutdown)] on
    the socket of every connection record, writes nothing, and leaves the
    other sockets alone; it forgets every record and resets the counter,
    so the close events that follow find no record and change nothing; the
    engine, and with it every subscription, is as it was. *)
Theorem handler_shutdown_closes_every_connection :
  forall h net,
    let r := Connections.shutdown h net in
    clients r.1 = ∅ /\ connectionCounter r.1 = 0%Z
    /\ pubsubEngine r.1 = pubsubEngine h
    /\ (forall connectionId client,
          clients h !! connectionId = Some client ->
          closed_with 1000 "Server shutdown" (r.2 (ws client)))
    /\ (forall w, sent (r.2 w) = sent (net w))
    /\ (forall w, w ∉ connection_sockets h -> r.2 w = net w)
    /\ (forall connectionId, handleClose connectionId r.1 = r.1).
Proof.
  intros h net r. subst r. unfold Connections.shutdown. cbn [fst snd].
  destruct (close_each 1000 "Server shutdown" (connection_sockets h) net)
    as (Hout & Hin & Hsent).
  unfold connection_sockets in Hout, Hin, Hsent.
  rewrite <- list_fmap_compose in Hout, Hin, Hsent.
  cbn zeta in Hout, Hin, Hsent. rewrite foldl_fmap in Hout, Hin, Hsent.
  split; [reflexivity|]. split; [reflexivity|]. split; [reflexivity|].
  split; [|split; [|split]].
  - intros cid client Hc. apply Hin. apply list_elem_of_fmap.
    exists (cid, client). split; [reflexivity|].
    apply elem_of_map_to_list. exact Hc.
  - exact Hsent.
  - intros w Hw. apply Hout. unfold connection_sockets in Hw.
    rewrite <- list_fmap_compose in Hw. exact Hw.
  - intros cid. unfold handleClose. cbn [clients].
    rewrite lookup_empty. reflexivity.
Qed.

End ConnectionRecords.

(** ** Messages the handler rejects *)

Section RejectedMessages.

Import WebSocketHandler.

(** X24.  A message that is not JSON or not an object, whose type is not
    one of subscribe, unsubscribe, publish and ping, or that is not a ping
    and lacks a topic or a [client_id], is answered with BAD_REQUEST and
    nothing else happens: the handler, the identity bound to the
    connection and the engine are as they were. *)
Theorem invalid_message_is_rejected :
  forall h net connectionId data now,
    (data = Malformed \/ data = NotAnObject
     \/ exists m,
          data = Parsed m
          /\ (type m ∉ ["subscribe"; "unsubscribe"; "publish"; "ping"]
              \/ (type m <> "ping"
                  /\ (present (topic m) = false
                      \/ present (client_id m) = false)))) ->
    let r := handleMessage connectionId data now h net in
    r.1 = h
    /\ exists text, r.2 = sendError connectionId "BAD_REQUEST" text now h net.
Proof.
  intros h net connectionId data now Hcase. cbn zeta.
  destruct Hcase as [->|[->|(m & -> & Hm)]].
  1,2: split; [reflexivity | eexists; reflexivity].
  unfold handleMessage.
  destruct (validateMessage m) eqn:Hvalid; cbn [negb];
    [|split; [reflexivity | eexists; reflexivity]].
  assert (Hthree : type m <> "ping" ->
                   type m ∈ ["subscribe"; "unsubscribe"; "publish"]
                   /\ present (topic m) = true).
  { intros Hping. revert Hvalid. unfold validateMessage.
    destruct (String.eqb (type m) ""); [discriminate|].
    destruct (bool_decide (type m ∈ ["subscribe"; "unsubscribe"; "publish";
                                      "ping"])) eqn:Hfour;
      cbn [negb]; [|discriminate].
    apply bool_decide_eq_true in Hfour.
    assert (H3 : type m ∈ ["subscribe"; "unsubscribe"; "publish"]).
    { rewrite !elem_of_cons in Hfour. rewrite !elem_of_cons.
      destruct Hfour as [?|[?|[?|[?|Hnil]]]]; auto. contradiction. }
    rewrite bool_decide_eq_true_2 by exact H3. auto. }
  destruct Hm as [Hnot|[Hping Hmiss]].
  - exfalso. revert Hvalid. unfold validateMessage.
    destruct (String.eqb (type m) ""); [discriminate|].
    rewrite bool_decide_eq_false_2 by exact Hnot. discriminate.
  - destruct (Hthree Hping) as [H3 Htopic].
    destruct Hmiss as [Hmiss|Hmiss]; [congruence|].
    rewrite bool_decide_eq_true_2 by exact H3. rewrite Hmiss. cbn [negb andb].
    split; [reflexivity | eexists; reflexivity].
Qed.

Lemma invalid_message_is_rejected_witness :
  let s := Wire.run two_identities (two_topics "drop_oldest", quiet) in
  let m := mkProtocol "subscribe" (Some "T1") None None None None in
  (type m <> "ping" /\ present (client_id m) = false)
  /\ (handleMessage "conn1" (Parsed m) 3 s.1 s.2).1 = s.1.
Proof.
  intros s m.
  assert (Hping : type m <> "ping") by discriminate.
  assert (Hid : present (client_id m) = false) by reflexivity.
  split; [split; [exact Hping | exact Hid]|].
  destruct (invalid_message_is_rejected s.1 s.2 "conn1" (Parsed m) 3)
    as [H _].
  - right. right. exists m. split; [reflexivity|]. right. auto.
  - exact H.
Defined.

End RejectedMessages.

(** ** The topic routes *)

Section Routes.

Variable trim : string -> string.

Import PubSubEngine.



(** X27.  The life of a topic through the routes: once a name is posted on
    a registry that does not have it, every name with the same trimmed
    form gets the topic's details from GET, a 409 from POST, and a DELETE
    that reports no subscriber and no message and gives back the registry
    as it was before the POST; GET then answers 404. *)
Theorem topic_route_lifecycle :
  forall e net name name' t now now',
    Run.reachable e ->
    TopicRoutes.topic_name trim name = Some t ->
    TopicRoutes.topic_name trim name' = Some t ->
    topics e !! t = None ->
    let p := TopicRoutes.createTopic trim name now e in
    p.2 = TopicRoutes.Created t now
    /\ TopicRoutes.getTopic trim name' now' p.1
       = TopicRoutes.Details (mkInfo t 0 0 now) now'
    /\ TopicRoutes.createTopic trim name' now' p.1
       = (p.1, TopicRoutes.TopicExists t)
    /\ TopicRoutes.deleteTopic trim name' now' p.1 net
       = (e, net, TopicRoutes.Deleted t 0 0 now')
    /\ TopicRoutes.getTopic trim name' now' e = TopicRoutes.NotFound t.
Proof.
  intros e net name name' t now now' Hr Hn Hn' Ht p. subst p.
  destruct (createTopic_deleteTopic_restores e t now net
              (reachable_consistent e Hr) Ht) as (_ & Hget & Hdel).
  assert (Hp : TopicRoutes.createTopic trim name now e
               = ((createTopic t now e).1, TopicRoutes.Created t now)).
  { unfold TopicRoutes.createTopic. rewrite Hn, Ht.
    unfold createTopic. rewrite Ht. reflexivity. }
  rewrite Hp. cbn [fst snd].
  assert (Hthere : is_Some (topics (createTopic t now e).1 !! t)).
  { unfold createTopic. rewrite Ht. simpl. rewrite lookup_insert_eq. eauto. }
  destruct Hthere as [topic Htopic].
  split; [reflexivity|]. split; [|split; [|split]].
  - unfold TopicRoutes.getTopic. rewrite Hn', Hget. reflexivity.
  - unfold TopicRoutes.createTopic. rewrite Hn', Htopic. reflexivity.
  - unfold TopicRoutes.deleteTopic. rewrite Hn', Htopic, Hget, Hdel.
    reflexivity.
  - unfold TopicRoutes.getTopic, getTopic. rewrite Hn', Ht. reflexivity.
Qed.

End Routes.

Section RoutesExample.

Import PubSubEngine.

Lemma topic_route_lifecycle_witness :
  let s := alice_full "drop_oldest" in
  let name := VStr "  orders " in
  let name' := VStr "orders" in
  let p := TopicRoutes.createTopic trim_ascii name 5 s.1 in
  (Run.reachable s.1
   /\ TopicRoutes.topic_name trim_ascii name = Some "orders"
   /\ TopicRoutes.topic_name trim_ascii name' = Some "orders"
   /\ topics s.1 !! "orders" = None)
  /\ TopicRoutes.deleteTopic trim_ascii name' 6 p.1 s.2
     = (s.1, s.2, TopicRoutes.Deleted "orders" 0 0 6).
Proof.
  intros s name name' p.
  assert (Hr : Run.reachable s.1) by apply alice_full_reachable.
  split; [split; [exact Hr|]; repeat split|].
  destruct (topic_route_lifecycle trim_ascii s.1 s.2 name name' "orders" 5 6
              Hr eq_refl eq_refl eq_refl) as (_ & _ & _ & H & _).
  exact H.
Defined.

End RoutesExample.
